(** * Listing store and flyer renderer of the AI real-estate backend

    A shallow embedding of the server script (the Express application with
    the JSON-file listing store, the HTML escaping and formatting helpers,
    the PDF template builder and the PDF routes, the prompt and the reading
    of completions, and the share page), followed by the properties the
    functional specification states about it and by further properties of
    the code.

    Conventions of the embedding.
    - JavaScript strings are modelled by [string], read as the UTF-8
      encoding of the text.  Every character the code inspects ([&], [<],
      [>], the two quotes, [$], [,], [.], the digits, [/uploads/]) is
      ASCII, and UTF-8 never uses an ASCII byte inside a multi-byte
      sequence, so the byte-wise functions below agree with the code.
    - JSON values are modelled by [value].  Numbers are the safe integers,
      of magnitude below [2^53], which a double holds exactly and the
      runtime prints digit for digit; fractional and larger JSON numbers
      are outside the model.
    - A JavaScript exception is the [Throw] outcome of [result].
    - What the script takes from its platform is a parameter of the section
      that uses it: [JSON.parse] and [JSON.stringify], [path.join] and
      [path.extname], the files on the disk, the clock, the random
      identifier and the completion service, and whether the file system
      lets the script make its data directory and write its backing
      file. *)

From Stdlib Require Import String Ascii List NArith ZArith Lia Bool Arith.
From Stdlib Require Import DecimalString DecimalPos DecimalN.
Import ListNotations.
Set Warnings "-register-all".
Local Open Scope list_scope.
Local Open Scope string_scope.

(** ** Outcomes: a value or a thrown exception *)

Inductive result (A : Type) : Type :=
| Ok (a : A)
| Throw.
Arguments Ok {A} a.
Arguments Throw {A}.

Definition bind {A B : Type} (m : result A) (k : A -> result B) : result B :=
  match m with
  | Ok a => k a
  | Throw => Throw
  end.

Notation "'let*' x ':=' m 'in' k" := (bind m (fun x => k))
  (at level 10, x name, m at level 100, k at level 200).

(** ** JavaScript values that a JSON body or a property read can produce *)

Inductive value : Type :=
| VUndef
| VNull
| VBool (b : bool)
| VNum (n : Z)
| VStr (s : string)
| VArr (xs : list value)
| VObj (fields : list (string * value)).

(** Own-property lookup in the field list of an object.  [JSON.parse] keeps
    one entry per key, so the first match is the only one. *)
Fixpoint lookup (k : string) (fields : list (string * value)) : option value :=
  match fields with
  | [] => None
  | (k', v) :: rest => if String.eqb k k' then Some v else lookup k rest
  end.

(** [o.k] for the property names the program reads ([id], [title], [agent],
    [name], ...).  None of them exists on the prototypes of objects, arrays,
    strings, numbers or booleans, so the read is [undefined] unless [o] is an
    object with that own property; reading a property of [null] or
    [undefined] throws a [TypeError]. *)
Definition get (k : string) (o : value) : result value :=
  match o with
  | VUndef | VNull => Throw
  | VObj fields =>
      match lookup k fields with
      | Some v => Ok v
      | None => Ok VUndef
      end
  | _ => Ok VUndef
  end.

(** [o?.k]: optional chaining yields [undefined] on [null] and [undefined]. *)
Definition get_opt (k : string) (o : value) : value :=
  match get k o with
  | Ok v => v
  | Throw => VUndef
  end.

(** [ToBoolean]. *)
Definition truthy (v : value) : bool :=
  match v with
  | VUndef | VNull => false
  | VBool b => b
  | VNum n => negb (n =? 0)%Z
  | VStr s => negb (String.eqb s EmptyString)
  | VArr _ | VObj _ => true
  end.

(** [a || b] and [a ?? b]. *)
Definition js_or (a b : value) : value := if truthy a then a else b.

Definition nullish (v : value) : bool :=
  match v with
  | VUndef | VNull => true
  | _ => false
  end.

Definition js_coalesce (a b : value) : value := if nullish a then b else a.

(** [a === s] against a string [s]: strict equality never converts. *)
Definition strict_eq_string (a : value) (s : string) : bool :=
  match a with
  | VStr t => String.eqb t s
  | _ => false
  end.

Definition string_of_Z (n : Z) : string := NilZero.string_of_int (Z.to_int n).

Definition has_key (k : string) (fields : list (string * value)) : bool :=
  match lookup k fields with
  | Some _ => true
  | None => false
  end.

(** [String(v)].  A number is an integer and prints as its decimal digits,
    which is what the runtime prints below [10^21] in magnitude; the
    exponent form of larger numbers is outside the model.  An array is
    joined with commas, [null] and [undefined] elements giving the empty
    string.  A plain object answers
    ["[object Object]"] through [Object.prototype.toString]; a JSON object
    that carries a key [toString] of its own shadows that method with a
    value that is not callable, and the conversion throws a [TypeError]. *)
Fixpoint ToString (v : value) : result string :=
  match v with
  | VUndef => Ok "undefined"
  | VNull => Ok "null"
  | VBool true => Ok "true"
  | VBool false => Ok "false"
  | VNum n => Ok (string_of_Z n)
  | VStr s => Ok s
  | VObj fields =>
      if has_key "toString" fields then Throw else Ok "[object Object]"
  | VArr xs =>
      (fix join (l : list value) : result string :=
         match l with
         | [] => Ok EmptyString
         | x :: rest =>
             let* s := (if nullish x then Ok EmptyString else ToString x) in
             match rest with
             | [] => Ok s
             | _ :: _ => let* r := join rest in Ok (s ++ "," ++ r)
             end
         end) xs
  end.

(** ** String helpers of the JavaScript runtime *)

(** [s.replaceAll(c, r)] for a one-character pattern [c]. *)
Fixpoint replaceAll (c : ascii) (r : string) (s : string) : string :=
  match s with
  | EmptyString => EmptyString
  | String a rest =>
      if Ascii.eqb a c then r ++ replaceAll c r rest
      else String a (replaceAll c r rest)
  end.

(** The double quote, and a text between double quotes. *)
Definition dq : string := String "034"%char EmptyString.
Definition quoted (s : string) : string := dq ++ s ++ dq.

(** ** Helpers of the server script *)

(** [escapeHtml(str)] on the string [String(str ?? "")]. *)
Definition escape_string (s : string) : string :=
  replaceAll "'"%char "&#039;"
    (replaceAll "034"%char "&quot;"
       (replaceAll ">"%char "&gt;"
          (replaceAll "<"%char "&lt;"
             (replaceAll "&"%char "&amp;" s)))).

Definition escapeHtml (str : value) : result string :=
  let* s := ToString (js_coalesce str (VStr EmptyString)) in
  Ok (escape_string s).

(** [s.includes(c)] for a one-character needle. *)
Fixpoint includes (c : ascii) (s : string) : bool :=
  match s with
  | EmptyString => false
  | String a rest => Ascii.eqb a c || includes c rest
  end.

(** [s.startsWith(p)]. *)
Definition startsWith (p s : string) : bool := String.prefix p s.

(** [s.trimStart()].  The white space of ECMAScript is the ASCII characters
    tab, line feed, vertical tab, form feed, carriage return and space, and
    the code points U+00A0, U+1680, U+2000 to U+200A, U+2028, U+2029, U+202F,
    U+205F, U+3000 and U+FEFF, matched here in their UTF-8 encoding. *)
Definition ascii_ws (a : ascii) : bool :=
  match nat_of_ascii a with
  | 9 | 10 | 11 | 12 | 13 | 32 => true
  | _ => false
  end.

Definition ws2 (a b : ascii) : bool :=
  (Nat.eqb (nat_of_ascii a) 194) && (Nat.eqb (nat_of_ascii b) 160).

Definition ws3 (a b c : ascii) : bool :=
  let x := nat_of_ascii a in
  let y := nat_of_ascii b in
  let z := nat_of_ascii c in
  ((Nat.eqb x 225) && (Nat.eqb y 154) && (Nat.eqb z 128))
  || ((Nat.eqb x 226) && (Nat.eqb y 128)
      && ((Nat.leb 128 z) && (Nat.leb z 138) || (Nat.eqb z 168) || (Nat.eqb z 169) || (Nat.eqb z 175)))
  || ((Nat.eqb x 226) && (Nat.eqb y 129) && (Nat.eqb z 159))
  || ((Nat.eqb x 227) && (Nat.eqb y 128) && (Nat.eqb z 128))
  || ((Nat.eqb x 239) && (Nat.eqb y 187) && (Nat.eqb z 191)).

Fixpoint trimStart (s : string) : string :=
  match s with
  | EmptyString => EmptyString
  | String a r1 =>
      if ascii_ws a then trimStart r1
      else
        match r1 with
        | EmptyString => s
        | String b r2 =>
            if ws2 a b then trimStart r2
            else
              match r2 with
              | EmptyString => s
              | String c r3 => if ws3 a b c then trimStart r3 else s
              end
        end
  end.

Definition is_empty (s : string) : bool :=
  match s with
  | EmptyString => true
  | String _ _ => false
  end.

(** [s.trimEnd()]: a suffix made of white space only is dropped. *)
Fixpoint trimEnd (s : string) : string :=
  match s with
  | EmptyString => EmptyString
  | String a rest =>
      if is_empty (trimStart s) then EmptyString else String a (trimEnd rest)
  end.

(** [s.trim()]. *)
Definition trim (s : string) : string := trimEnd (trimStart s).

(** *** Numbers read from a text of digits and dots *)

Definition is_digit (a : ascii) : bool :=
  (Nat.leb 48 (nat_of_ascii a)) && (Nat.leb (nat_of_ascii a) 57).

Definition is_dot (a : ascii) : bool := Ascii.eqb a "."%char.

(** [s.replace(/[^\d.]/g, "")]: what is left of [s] when every character
    other than a digit or a dot is deleted. *)
Fixpoint strip_non_numeric (s : string) : string :=
  match s with
  | EmptyString => EmptyString
  | String a rest =>
      if is_digit a || is_dot a then String a (strip_non_numeric rest)
      else strip_non_numeric rest
  end.

(** The numbers [Number] can return on such a text.  A finite one is kept
    as its decimal expansion: the whole part and the digits after the dot.
    A text of at most 15 digits is the shortest decimal of the double it
    reads as, which is what the formatter prints, so the expansion gives the
    digits the runtime shows.  A longer text is rounded by the runtime to
    the nearest double, which the expansion does not follow: the digits of
    a formatted number are stated below for texts of at most 15 digits
    only. *)
Inductive number : Type :=
| NaN
| Infinity
| Finite (whole : N) (frac : string).

Fixpoint digits_value (acc : N) (s : string) : N :=
  match s with
  | EmptyString => acc
  | String a rest =>
      digits_value (acc * 10 + N.of_nat (nat_of_ascii a - 48))%N rest
  end.

(** The text before the first dot, and the text after it when there is one. *)
Fixpoint split_dot (s : string) : string * option string :=
  match s with
  | EmptyString => (EmptyString, None)
  | String a rest =>
      if is_dot a then (EmptyString, Some rest)
      else let (w, f) := split_dot rest in (String a w, f)
  end.

(** Decimal texts from [2^1024 - 2^970] on round to [Infinity]. *)
Definition double_overflow : N := (2 ^ 1024 - 2 ^ 970)%N.

Definition finite_or_infinity (w : N) (f : string) : number :=
  if (double_overflow <=? w)%N then Infinity else Finite w f.

(** [Number(s)] for a text [s] of digits and dots: the empty text is 0, a
    decimal literal (digits, at most one dot, at least one digit) is its
    value, anything else is [NaN]. *)
Definition Number (s : string) : number :=
  match split_dot s with
  | (w, None) => finite_or_infinity (digits_value 0 w) EmptyString
  | (w, Some f) =>
      if includes "."%char f then NaN
      else if is_empty w && is_empty f then NaN
      else finite_or_infinity (digits_value 0 w) f
  end.

Definition isFinite (n : number) : bool :=
  match n with
  | Finite _ _ => true
  | _ => false
  end.

(** *** [Intl.NumberFormat("en-US", { maximumFractionDigits: 0 })] *)

(** Rounding to an integer, halves away from zero (the default mode). *)
Definition round_half_expand (w : N) (f : string) : N :=
  match f with
  | String a _ => if Nat.leb 53 (nat_of_ascii a) then (w + 1)%N else w
  | EmptyString => w
  end.

(** Commas between groups of three digits, on the reversed digits. *)
Fixpoint group_rev (l : list ascii) : list ascii :=
  match l with
  | a :: b :: c :: ((_ :: _) as rest) =>
      a :: b :: c :: ","%char :: group_rev rest
  | _ => l
  end.

Definition group_thousands (digits : string) : string :=
  string_of_list_ascii (rev (group_rev (rev (list_ascii_of_string digits)))).

Definition string_of_N (n : N) : string := NilZero.string_of_uint (N.to_uint n).

Definition format_integer (n : number) : string :=
  match n with
  | Finite w f => group_thousands (string_of_N (round_half_expand w f))
  | NaN => "NaN"
  | Infinity => "∞"
  end.

(** With [style: "currency", currency: "USD"]. *)
Definition format_currency (n : number) : string :=
  match n with
  | NaN => "NaN"
  | _ => "$" ++ format_integer n
  end.

Definition fmtCurrency (v : value) : result string :=
  let* s0 := ToString (js_coalesce v (VStr EmptyString)) in
  let s := trim s0 in
  if is_empty s then Ok EmptyString
  else if includes "$"%char s || includes ","%char s then Ok s
  else
    let n := Number (strip_non_numeric s) in
    if negb (isFinite n) then Ok s
    else Ok (format_currency n).

Definition fmtNumber (v : value) : result string :=
  let* s0 := ToString (js_coalesce v (VStr EmptyString)) in
  let s := trim s0 in
  if is_empty s then Ok EmptyString
  else if includes ","%char s then Ok s
  else
    let n := Number (strip_non_numeric s) in
    if negb (isFinite n) then Ok s
    else Ok (format_integer n).

(** [s.toLowerCase()] on the ASCII letters.  The only results the code
    compares with are [.png] and [.webp], and no letter outside ASCII has one
    of their letters as its lower case. *)
Definition lower_ascii (a : ascii) : ascii :=
  let n := nat_of_ascii a in
  if Nat.leb 65 n && Nat.leb n 90 then ascii_of_nat (n + 32) else a.

Fixpoint toLowerCase (s : string) : string :=
  match s with
  | EmptyString => EmptyString
  | String a rest => String (lower_ascii a) (toLowerCase rest)
  end.

(** [arr.join(sep)]: [null] and [undefined] elements give the empty text. *)
Fixpoint join (sep : string) (l : list value) : result string :=
  match l with
  | [] => Ok EmptyString
  | x :: rest =>
      let* s := (if nullish x then Ok EmptyString else ToString x) in
      match rest with
      | [] => Ok s
      | _ :: _ => let* r := join sep rest in Ok (s ++ sep ++ r)
      end
  end.

(** [buf.toString("base64")]: the base64 alphabet of RFC 4648 with padding. *)
Definition b64_char (n : N) : ascii :=
  if (n <? 26)%N then ascii_of_N (65 + n)
  else if (n <? 52)%N then ascii_of_N (97 + (n - 26))
  else if (n <? 62)%N then ascii_of_N (48 + (n - 52))
  else if (n =? 62)%N then "+"%char
  else "/"%char.

Fixpoint base64 (bs : list Byte.byte) : string :=
  match bs with
  | [] => EmptyString
  | [a] =>
      let x := Byte.to_N a in
      String (b64_char (x / 4))
        (String (b64_char ((x mod 4) * 16)) "==")
  | [a; b] =>
      let x := Byte.to_N a in
      let y := Byte.to_N b in
      String (b64_char (x / 4))
        (String (b64_char ((x mod 4) * 16 + y / 16))
           (String (b64_char ((y mod 16) * 4)) "="))
  | a :: b :: c :: rest =>
      let x := Byte.to_N a in
      let y := Byte.to_N b in
      let z := Byte.to_N c in
      String (b64_char (x / 4))
        (String (b64_char ((x mod 4) * 16 + y / 16))
           (String (b64_char ((y mod 16) * 4 + z / 64))
              (String (b64_char (z mod 64)) (base64 rest))))
  end.

(** ** The flyer template *)

(** The pieces of the template literal of [buildPdfHtml] between its
    substitutions, in order and character for character. *)

Definition seg_head : string :=
  "
<!doctype html>
<html>
<head>
  <meta charset=" ++ dq ++ "utf-8" ++ dq ++ " />
  <title>Listing PDF</title>
  <style>
    body { font-family: Arial, sans-serif; margin: 40px; color: #111; }
    :root { --accent: #111; }

    .topbar { display:flex; justify-content: space-between; align-items:flex-start; gap:18px; }
    .left { flex: 1; }
    .right { width: 260px; text-align: right; }

    .title { font-size: 22px; font-weight: 800; margin: 0; letter-spacing: .2px; }
    .subtitle { margin: 6px 0 0 0; color: #444; font-size: 12px; line-height: 1.35; }

    .badge { display:inline-block; margin-top: 10px; font-size: 11px; padding: 6px 10px; border: 1px solid #ddd; border-radius: 999px; color: #111; background: #fff; }

    .presented { margin-top: 12px; font-size: 11px; color: #666; }
    .presented b { color: #111; }

    .logoBox { display:flex; justify-content:flex-end; margin-bottom: 10px; }
    .logoBox img { max-width: 170px; max-height: 70px; object-fit: contain; }

    .agentCard { border: 1px solid #eee; border-radius: 14px; padding: 12px; text-align: left; background: #fff; }
    .agentName { font-weight: 800; font-size: 13px; margin: 0; color: #111; }
    .agentLine { font-size: 11px; color:#444; margin: 4px 0; }

    .hero { margin-top: 18px; border: 1px solid #eee; border-radius: 16px; overflow: hidden; }
    .hero img { width: 100%; height: 280px; object-fit: cover; display:block; }

    .grid { display:grid; grid-template-columns: 1fr 1fr; gap: 14px; margin-top: 16px; }
    .card { border: 1px solid #eee; border-radius: 14px; padding: 14px; background:#fff; }
    .k { color: #666; font-size: 11px; text-transform: uppercase; letter-spacing: .04em; }
    .v { font-size: 14px; font-weight: 700; margin-top: 4px; }
    .priceBig { font-size: 18px; font-weight: 900; color: var(--accent); }

    .desc { margin-top: 16px; line-height: 1.5; white-space: pre-wrap; font-size: 12.5px; }

    .footerBar { margin-top: 20px; border-top: 1px solid #eee; padding-top: 12px; display:flex; justify-content: space-between; align-items: center; gap: 14px; font-size: 10.5px; color:#666; }
    .footerLeft { display:flex; align-items:center; gap:10px; flex-wrap:wrap; }
    .footerDot { width: 4px; height: 4px; border-radius: 999px; background: #bbb; display:inline-block; }
    .footerRight { text-align:right; }
    .smallCaps { text-transform: uppercase; letter-spacing: .08em; font-size: 10px; color:#777; }
  </style>
</head>
<body>

  <div class=" ++ dq ++ "topbar" ++ dq ++ ">
    <div class=" ++ dq ++ "left" ++ dq ++ ">
      <p class=" ++ dq ++ "title" ++ dq ++ ">".

Definition seg_subtitle : string :=
  "</p>
      <p class=" ++ dq ++ "subtitle" ++ dq ++ ">".

Definition seg_badge : string :=
  "</p>
      <div class=" ++ dq ++ "badge" ++ dq ++ ">".

Definition seg_presented : string :=
  "</div>
      <div class=" ++ dq ++ "presented" ++ dq ++ ">Presented by <b>".

Definition seg_presented_end : string :=
  "</b>".

Definition seg_right : string :=
  "</div>
    </div>

    <div class=" ++ dq ++ "right" ++ dq ++ ">
      ".

Definition seg_agent_card : string :=
  "
      <div class=" ++ dq ++ "agentCard" ++ dq ++ ">
        ".

Definition seg_agent_line_a : string :=
  "
        ".

Definition seg_agent_line_b : string :=
  "
        ".

Definition seg_agent_line_c : string :=
  "
        ".

Definition seg_agent_card_end : string :=
  "
      </div>
    </div>
  </div>

  ".

Definition seg_grid : string :=
  "

  <div class=" ++ dq ++ "grid" ++ dq ++ ">
    <div class=" ++ dq ++ "card" ++ dq ++ ">
      <div class=" ++ dq ++ "k" ++ dq ++ ">Price</div>
      <div class=" ++ dq ++ "v priceBig" ++ dq ++ ">".

Definition seg_beds : string :=
  "</div>
    </div>
    <div class=" ++ dq ++ "card" ++ dq ++ ">
      <div class=" ++ dq ++ "k" ++ dq ++ ">Beds / Baths / Sqft</div>
      <div class=" ++ dq ++ "v" ++ dq ++ ">".

Definition seg_grid_end : string :=
  "</div>
    </div>
  </div>

  ".

Definition seg_desc : string :=
  "

  <div class=" ++ dq ++ "card desc" ++ dq ++ ">".

Definition seg_footer : string :=
  "</div>

  <div class=" ++ dq ++ "footerBar" ++ dq ++ ">
    <div class=" ++ dq ++ "footerLeft" ++ dq ++ ">
      <span class=" ++ dq ++ "smallCaps" ++ dq ++ ">Listing Flyer</span>
      <span class=" ++ dq ++ "footerDot" ++ dq ++ "></span>
      <span>".

Definition seg_footer_phone : string :=
  "</span>
      ".

Definition seg_footer_email : string :=
  "
      ".

Definition seg_footer_right : string :=
  "
    </div>
    <div class=" ++ dq ++ "footerRight" ++ dq ++ ">Generated ".

Definition seg_tail : string :=
  "</div>
  </div>

</body>
</html>
".

(** The template literals nested in the substitutions of the page, as
    functions of the text they substitute. *)
Definition logo_box (src : string) : string :=
  "<div class=" ++ dq ++ "logoBox" ++ dq ++ "><img src=" ++ dq
  ++ src ++ dq ++ " /></div>".

Definition agent_name_div (text : string) : string :=
  "<div class=" ++ dq ++ "agentName" ++ dq ++ ">" ++ text ++ "</div>".

Definition agent_line_div (text : string) : string :=
  "<div class=" ++ dq ++ "agentLine" ++ dq ++ ">" ++ text ++ "</div>".

Definition hero_box (src : string) : string :=
  "<div class=" ++ dq ++ "hero" ++ dq ++ "><img src=" ++ dq
  ++ src ++ dq ++ " /></div>".

Definition year_card (text : string) : string :=
  "
    <div class=" ++ dq ++ "card" ++ dq ++ " style=" ++ dq ++ "margin-top:14px;" ++ dq ++ ">
      <div class=" ++ dq ++ "k" ++ dq ++ ">Year Built</div>
      <div class=" ++ dq ++ "v" ++ dq ++ ">" ++ text ++ "</div>
    </div>
  ".

Definition footer_item (text : string) : string :=
  "<span class=" ++ dq ++ "footerDot" ++ dq ++ "></span><span>"
  ++ text ++ "</span>".

(** What a path names on the disk of the server. *)
Inductive entry : Type :=
| NoEntry
| Unreadable
| File (bytes : list Byte.byte).

Definition existsSync (e : entry) : bool :=
  match e with
  | NoEntry => false
  | _ => true
  end.

Definition readFileSync (e : entry) : result (list Byte.byte) :=
  match e with
  | File bytes => Ok bytes
  | _ => Throw
  end.

Section Renderer.

(** The directory of the script, the two functions of the [path] module
    the code calls, the disk, and the text [new Date().toLocaleString()]
    gives at the time of the call. *)
Variable dirname : string.
Variable path_join : string -> string -> string.
Variable path_extname : string -> string.
Variable disk : string -> entry.
Variable now : string.

Definition mime_of (ext : string) : string :=
  if String.eqb ext ".png" then "image/png"
  else if String.eqb ext ".webp" then "image/webp"
  else "image/jpeg".

(** The body of the [try] block of [imageUrlToDataUri]. *)
Definition imageUrlToDataUri_try (imageUrl : value) : result value :=
  if negb (truthy imageUrl) then Ok VNull
  else
    let* s := ToString imageUrl in
    if negb (startsWith "/uploads/" s) then Ok VNull
    else
      let filePath := path_join dirname s in
      if negb (existsSync (disk filePath)) then Ok VNull
      else
        let ext := toLowerCase (path_extname filePath) in
        let mime := mime_of ext in
        let* bytes := readFileSync (disk filePath) in
        Ok (VStr ("data:" ++ mime ++ ";base64," ++ base64 bytes)).

Definition imageUrlToDataUri (imageUrl : value) : value :=
  match imageUrlToDataUri_try imageUrl with
  | Ok v => v
  | Throw => VNull
  end.

(** [cond ? then : ""] inside the template. *)
Definition when (cond : value) (body : result string) : result string :=
  if truthy cond then body else Ok EmptyString.

Definition buildPdfHtml (listing : value) : result string :=
  let* agent_field := get "agent" listing in
  let agent := js_or agent_field (VObj []) in
  let* imageUrl := get "imageUrl" listing in
  let propertyImageDataUri := imageUrlToDataUri imageUrl in
  let* logoUrl := get "logoUrl" agent in
  let agentLogoDataUri := imageUrlToDataUri logoUrl in
  let* price := get "price" listing in
  let* priceFmt := fmtCurrency price in
  let* sqft := get "sqft" listing in
  let* sqftFmt := fmtNumber sqft in
  let* name := get "name" agent in
  let* presentedBy := (if truthy name then escapeHtml name else Ok "—") in
  let* brokerage := get "brokerage" agent in
  let* brokerageSuffix :=
    (if truthy brokerage
     then let* b := escapeHtml brokerage in Ok (" • " ++ b)
     else Ok EmptyString) in
  let* title := get "title" listing in
  let* h_title := escapeHtml (js_or title (VStr "Property Listing")) in
  let* address := get "address" listing in
  let* city := get "city" listing in
  let* state := get "state" listing in
  let* address_line := join ", " (filter truthy [address; city; state]) in
  let* h_subtitle := escapeHtml (VStr address_line) in
  let* tone := get "tone" listing in
  let* h_badge := escapeHtml (js_or tone (VStr "MLS")) in
  let* h_logo :=
    when agentLogoDataUri
      (let* u := ToString agentLogoDataUri in Ok (logo_box u)) in
  let* h_agent_name :=
    when name (let* e := escapeHtml name in Ok (agent_name_div e)) in
  let* phone := get "phone" agent in
  let* h_agent_phone :=
    when phone (let* e := escapeHtml phone in Ok (agent_line_div e)) in
  let* email := get "email" agent in
  let* h_agent_email :=
    when email (let* e := escapeHtml email in Ok (agent_line_div e)) in
  let* h_agent_brokerage :=
    when brokerage
      (let* e := escapeHtml brokerage in Ok (agent_line_div e)) in
  let* h_hero :=
    when propertyImageDataUri
      (let* u := ToString propertyImageDataUri in Ok (hero_box u)) in
  let* h_price :=
    escapeHtml (js_or (js_or (VStr priceFmt) price) (VStr EmptyString)) in
  let* beds := get "beds" listing in
  let* baths := get "baths" listing in
  let* beds_line :=
    join " • " (filter truthy [beds; baths; js_or (VStr sqftFmt) sqft]) in
  let* h_beds := escapeHtml (VStr beds_line) in
  let* yearBuilt := get "yearBuilt" listing in
  let* h_year :=
    when yearBuilt (let* e := escapeHtml yearBuilt in Ok (year_card e)) in
  let* description := get "description" listing in
  let* h_desc := escapeHtml (js_or description (VStr EmptyString)) in
  let* h_footer_name := escapeHtml (js_or name (VStr EmptyString)) in
  let* h_footer_phone :=
    when phone (let* e := escapeHtml phone in Ok (footer_item e)) in
  let* h_footer_email :=
    when email (let* e := escapeHtml email in Ok (footer_item e)) in
  let* h_now := escapeHtml (VStr now) in
  Ok (trim
        (seg_head ++ h_title
         ++ seg_subtitle ++ h_subtitle
         ++ seg_badge ++ h_badge
         ++ seg_presented ++ presentedBy
         ++ seg_presented_end ++ brokerageSuffix
         ++ seg_right ++ h_logo
         ++ seg_agent_card ++ h_agent_name
         ++ seg_agent_line_a ++ h_agent_phone
         ++ seg_agent_line_b ++ h_agent_email
         ++ seg_agent_line_c ++ h_agent_brokerage
         ++ seg_agent_card_end ++ h_hero
         ++ seg_grid ++ h_price
         ++ seg_beds ++ h_beds
         ++ seg_grid_end ++ h_year
         ++ seg_desc ++ h_desc
         ++ seg_footer ++ h_footer_name
         ++ seg_footer_phone ++ h_footer_phone
         ++ seg_footer_email ++ h_footer_email
         ++ seg_footer_right ++ h_now
         ++ seg_tail)).

(** *** The page as a function of the texts it shows

    [slots_of] gathers, without failing, the texts and data URIs
    [buildPdfHtml] substitutes; [fill] puts their escaped form into the
    template.  The specification is stated on [fill]. *)

Definition str (r : result string) : string :=
  match r with
  | Ok s => s
  | Throw => EmptyString
  end.

(** The text [escapeHtml] escapes. *)
Definition text (v : value) : string :=
  str (ToString (js_coalesce v (VStr EmptyString))).

Definition opt_text (v : value) : option string :=
  if truthy v then Some (text v) else None.

Definition opt_uri (v : value) : option string :=
  if truthy v then Some (str (ToString v)) else None.

Record slots : Type := mkSlots {
  s_title : string;
  s_subtitle : string;
  s_badge : string;
  s_name : option string;
  s_phone : option string;
  s_email : option string;
  s_brokerage : option string;
  s_logo : option string;
  s_hero : option string;
  s_price : string;
  s_beds : string;
  s_year : option string;
  s_desc : string;
  s_footer_name : string;
  s_now : string
}.

Definition slots_of (listing : value) : slots :=
  let agent := js_or (get_opt "agent" listing) (VObj []) in
  let price := get_opt "price" listing in
  let sqft := get_opt "sqft" listing in
  {| s_title :=
       text (js_or (get_opt "title" listing) (VStr "Property Listing"));
     s_subtitle :=
       str (join ", "
              (filter truthy
                 [get_opt "address" listing; get_opt "city" listing;
                  get_opt "state" listing]));
     s_badge := text (js_or (get_opt "tone" listing) (VStr "MLS"));
     s_name := opt_text (get_opt "name" agent);
     s_phone := opt_text (get_opt "phone" agent);
     s_email := opt_text (get_opt "email" agent);
     s_brokerage := opt_text (get_opt "brokerage" agent);
     s_logo := opt_uri (imageUrlToDataUri (get_opt "logoUrl" agent));
     s_hero := opt_uri (imageUrlToDataUri (get_opt "imageUrl" listing));
     s_price :=
       text (js_or (js_or (VStr (str (fmtCurrency price))) price)
               (VStr EmptyString));
     s_beds :=
       str (join " • "
              (filter truthy
                 [get_opt "beds" listing; get_opt "baths" listing;
                  js_or (VStr (str (fmtNumber sqft))) sqft]));
     s_year := opt_text (get_opt "yearBuilt" listing);
     s_desc :=
       text (js_or (get_opt "description" listing) (VStr EmptyString));
     s_footer_name := text (js_or (get_opt "name" agent) (VStr EmptyString));
     s_now := now |}.

End Renderer.

(** A part of the page that is there only when its text is. *)
Definition opt (part : string -> string) (o : option string) : string :=
  match o with
  | Some x => part x
  | None => EmptyString
  end.

Definition fill (s : slots) : string :=
  trimStart seg_head ++ escape_string (s_title s)
  ++ seg_subtitle ++ escape_string (s_subtitle s)
  ++ seg_badge ++ escape_string (s_badge s)
  ++ seg_presented
  ++ match s_name s with Some n => escape_string n | None => "—" end
  ++ seg_presented_end
  ++ opt (fun b => " • " ++ escape_string b) (s_brokerage s)
  ++ seg_right ++ opt logo_box (s_logo s)
  ++ seg_agent_card
  ++ opt (fun n => agent_name_div (escape_string n)) (s_name s)
  ++ seg_agent_line_a
  ++ opt (fun n => agent_line_div (escape_string n)) (s_phone s)
  ++ seg_agent_line_b
  ++ opt (fun n => agent_line_div (escape_string n)) (s_email s)
  ++ seg_agent_line_c
  ++ opt (fun n => agent_line_div (escape_string n)) (s_brokerage s)
  ++ seg_agent_card_end ++ opt hero_box (s_hero s)
  ++ seg_grid ++ escape_string (s_price s)
  ++ seg_beds ++ escape_string (s_beds s)
  ++ seg_grid_end
  ++ opt (fun y => year_card (escape_string y)) (s_year s)
  ++ seg_desc ++ escape_string (s_desc s)
  ++ seg_footer ++ escape_string (s_footer_name s)
  ++ seg_footer_phone
  ++ opt (fun n => footer_item (escape_string n)) (s_phone s)
  ++ seg_footer_email
  ++ opt (fun n => footer_item (escape_string n)) (s_email s)
  ++ seg_footer_right ++ escape_string (s_now s)
  ++ trimEnd seg_tail.

(** The bare frame: the same parts present, every text and image source
    empty. *)
Definition emptied (o : option string) : option string :=
  option_map (fun _ => EmptyString) o.

Definition blank (s : slots) : slots :=
  {| s_title := EmptyString;
     s_subtitle := EmptyString;
     s_badge := EmptyString;
     s_name := emptied (s_name s);
     s_phone := emptied (s_phone s);
     s_email := emptied (s_email s);
     s_brokerage := emptied (s_brokerage s);
     s_logo := emptied (s_logo s);
     s_hero := emptied (s_hero s);
     s_price := EmptyString;
     s_beds := EmptyString;
     s_year := emptied (s_year s);
     s_desc := EmptyString;
     s_footer_name := EmptyString;
     s_now := EmptyString |}.

Definition present (o : option string) : nat :=
  match o with
  | Some _ => 1
  | None => 0
  end.

(** ** The listing store *)

(** The backing file [data/listings.json]: absent, present but not to be
    opened, neither for reading nor for writing (a directory at its path, a
    file without permissions), or present with a text. *)
Inductive file : Type :=
| Missing
| Locked
| Content (raw : string).

Record store : Type := mkStore {
  data_dir : bool;
  listings_file : file
}.

(** [fs.existsSync(DATA_DIR)]: the directory exists when it is known to, and
    whenever there is an entry at the path of the file inside it. *)
Definition dir_exists (st : store) : bool :=
  data_dir st
  || match listings_file st with
     | Missing => false
     | _ => true
     end.

(** Computations on the store that may throw; the store a computation
    leaves behind is kept when it throws. *)
Definition io (A : Type) : Type := store -> result A * store.

Definition ret {A : Type} (a : A) : io A := fun st => (Ok a, st).

Definition raise {A : Type} : io A := fun st => (Throw, st).

Definition seq {A B : Type} (m : io A) (k : A -> io B) : io B :=
  fun st =>
    match m st with
    | (Ok a, st') => k a st'
    | (Throw, st') => (Throw, st')
    end.

Definition lift {A : Type} (r : result A) : io A := fun st => (r, st).

(** [try { body } catch { handler }]. *)
Definition try_catch {A : Type} (body : io A) (handler : io A) : io A :=
  fun st =>
    match body st with
    | (Ok a, st') => (Ok a, st')
    | (Throw, st') => handler st'
    end.

Notation "'do' x '<-' m ';' k" := (seq m (fun x => k))
  (at level 10, x name, m at level 100, k at level 200).

(** What a route handler sends. *)
Inductive response : Type :=
| Json (status : nat) (body : value)
| Text (status : nat) (body : string).

Definition status_of (r : response) : nat :=
  match r with
  | Json s _ => s
  | Text s _ => s
  end.

Definition ok_true : value := VObj [("ok", VBool true)].

Definition failure (message : string) : value :=
  VObj [("ok", VBool false); ("error", VStr message)].

Definition isArray (v : value) : bool :=
  match v with
  | VArr _ => true
  | _ => false
  end.

Definition elements (v : value) : list value :=
  match v with
  | VArr xs => xs
  | _ => []
  end.

(** [listings.find((l) => l.id === id)]: the callback runs on the elements in
    order and stops at the first match. *)
Fixpoint find_by_id (id : string) (l : list value) : result value :=
  match l with
  | [] => Ok VUndef
  | x :: rest =>
      let* xid := get "id" x in
      if strict_eq_string xid id then Ok x else find_by_id id rest
  end.

(** [listings.filter((l) => l.id !== id)]. *)
Fixpoint filter_not_id (id : string) (l : list value) : result (list value) :=
  match l with
  | [] => Ok []
  | x :: rest =>
      let* xid := get "id" x in
      let* kept := filter_not_id id rest in
      Ok (if negb (strict_eq_string xid id) then x :: kept else kept)
  end.

Section Store.

(** [JSON.parse], which throws on a text that is not JSON, and
    [JSON.stringify(v, null, 2)]; whether the file system lets the program
    make the data directory ([fs.mkdirSync]) and write the backing file
    ([fs.writeFileSync]): either call throws when it is refused. *)
Variable JSON_parse : string -> result value.
Variable JSON_stringify : value -> string.
Variable mkdir_ok : bool.
Variable write_ok : bool.

(** [ensureDataFile]: the directory is made when it does not exist, then the
    file is written with the text of the empty array when it does not
    exist.  A refused call throws and leaves what was done before it. *)
Definition ensureDataFile : io unit :=
  fun st =>
    if negb (dir_exists st) && negb mkdir_ok then (Throw, st)
    else
      let st1 := if data_dir st then st else mkStore true (listings_file st) in
      match listings_file st1 with
      | Missing =>
          if write_ok
          then (Ok tt,
                mkStore (data_dir st1) (Content (JSON_stringify (VArr []))))
          else (Throw, st1)
      | _ => (Ok tt, st1)
      end.

(** [fs.readFileSync(LISTINGS_FILE, "utf8")]. *)
Definition read_file : io string :=
  fun st =>
    match listings_file st with
    | Content raw => (Ok raw, st)
    | _ => (Throw, st)
    end.

(** [fs.writeFileSync(LISTINGS_FILE, text)].  The call throws on an entry
    that is no file to open and when the file system refuses the write, and
    leaves the store as it was; a write that goes through leaves the text in
    the file. *)
Definition write_file (text : string) : io unit :=
  fun st =>
    match listings_file st with
    | Locked => (Throw, st)
    | _ =>
        if write_ok
        then (Ok tt, mkStore (data_dir st) (Content text))
        else (Throw, st)
    end.

Definition readListings : io (list value) :=
  do _ <- ensureDataFile;
  try_catch
    (do raw <- read_file;
     do parsed <- lift (JSON_parse raw);
     ret (if isArray parsed then elements parsed else []))
    (ret []).

Definition writeListings (listings : list value) : io unit :=
  do _ <- ensureDataFile;
  write_file (JSON_stringify (VArr listings)).

(** [GET /api/listings]. *)
Definition get_listings : io response :=
  do listings <- readListings;
  ret (Json 200 (VObj [("ok", VBool true); ("listings", VArr listings)])).

(** [GET /api/listings/:id]. *)
Definition get_listing (id : string) : io response :=
  try_catch
    (do listings <- readListings;
     do listing <- lift (find_by_id id listings);
     if negb (truthy listing)
     then ret (Json 404 (failure "Listing not found."))
     else ret (Json 200 (VObj [("ok", VBool true); ("listing", listing)])))
    (ret (Json 500 (failure "Failed to load listing."))).

(** [POST /api/listings/save] with the parsed request body. *)
Definition save_listing (body : value) : io response :=
  try_catch
    (let listing := body in
     if negb (truthy (get_opt "id" listing))
     then ret (Json 400 (failure "Listing with id is required."))
     else
       do listings <- readListings;
       do _ <- writeListings (listing :: listings);
       ret (Json 200 ok_true))
    (ret (Json 500 (failure "Failed to save listing."))).

(** [DELETE /api/listings/:id]. *)
Definition delete_listing (id : string) : io response :=
  try_catch
    (do listings <- readListings;
     do filtered <- lift (filter_not_id id listings);
     do _ <- writeListings filtered;
     ret (Json 200 ok_true))
    (ret (Json 500 (failure "Failed to delete listing."))).

End Store.

(** ** Listing generation *)

(** [hay.includes(needle)] for texts. *)
Fixpoint includes_text (needle hay : string) : bool :=
  String.prefix needle hay
  || match hay with
     | EmptyString => false
     | String _ rest => includes_text needle rest
     end.

(** [/spanish/i.test(v)]: the pattern is ASCII, and without the [u] flag a
    character outside ASCII never matches an ASCII letter. *)
Definition test_spanish (v : value) : result bool :=
  let* s := ToString v in
  Ok (includes_text "spanish" (toLowerCase s)).

Definition buildPrompt (input : value) : result string :=
  let* tone_field := get "tone" input in
  let tone := js_or tone_field (VStr "MLS (English)") in
  let* spanish := test_spanish tone in
  let langRule :=
    if spanish
    then "Language requirement: Output must be 100% Spanish. Do NOT include English."
    else "Language requirement: Output must be 100% English." in
  let field (k : string) : result string :=
    let* v := get k input in ToString (js_or v (VStr EmptyString)) in
  let* tone_text := ToString tone in
  let* address := field "address" in
  let* city := field "city" in
  let* state := field "state" in
  let* price := field "price" in
  let* beds := field "beds" in
  let* baths := field "baths" in
  let* sqft := field "sqft" in
  let* yearBuilt := field "yearBuilt" in
  let* features := field "features" in
  let* descriptionInput := field "descriptionInput" in
  Ok (trim ("
You are an expert real estate listing writer.
Style/Tone: " ++ dq ++ tone_text ++ dq ++ "
" ++ langRule ++ "

Rules:
- Use clear, professional language appropriate to the tone.
- Avoid fair-housing violations.
- Use only provided facts; do not invent specifics.
- Output: First line = title. Then a polished description. Then optional bullet highlights.

Property details:
Address: " ++ address ++ "
City/State: " ++ city ++ " " ++ state ++ "
Price: " ++ price ++ "
Beds: " ++ beds ++ "
Baths: " ++ baths ++ "
Sqft: " ++ sqft ++ "
Year Built: " ++ yearBuilt ++ "
Features/Notes: " ++ features ++ "
Extra description from user: " ++ descriptionInput ++ "
")).

Section Generate.

(** Whether the API key is configured, the completion service (it answers
    a title and a description, or fails), and the identifier and the time
    stamp drawn for the new listing. *)
Variable hasOpenAIKey : bool.
Variable generateWithOpenAI : string -> result (string * string).
Variable fresh_id : string.
Variable created_at : string.

(** The object literal [listing] of the handler. *)
Definition new_listing (input : value) (generated : string * string)
  : result value :=
  let field (k : string) : result value :=
    let* v := get k input in Ok (js_or v (VStr EmptyString)) in
  let agent_field (k : string) : value :=
    js_or (get_opt k (get_opt "agent" input)) (VStr EmptyString) in
  let* tone := get "tone" input in
  let* address := field "address" in
  let* city := field "city" in
  let* state := field "state" in
  let* price := field "price" in
  let* beds := field "beds" in
  let* baths := field "baths" in
  let* sqft := field "sqft" in
  let* yearBuilt := field "yearBuilt" in
  let* features := field "features" in
  let* descriptionInput := field "descriptionInput" in
  let* imageUrl := field "imageUrl" in
  Ok (VObj
        [("id", VStr fresh_id);
         ("createdAt", VStr created_at);
         ("tone", js_or tone (VStr "MLS (English)"));
         ("title", js_or (VStr (fst generated)) (VStr "Property Listing"));
         ("description", js_or (VStr (snd generated)) (VStr EmptyString));
         ("address", address);
         ("city", city);
         ("state", state);
         ("price", price);
         ("beds", beds);
         ("baths", baths);
         ("sqft", sqft);
         ("yearBuilt", yearBuilt);
         ("features", features);
         ("descriptionInput", descriptionInput);
         ("imageUrl", imageUrl);
         ("agent",
          VObj
            [("name", agent_field "name");
             ("brokerage", agent_field "brokerage");
             ("phone", agent_field "phone");
             ("email", agent_field "email");
             ("logoUrl", agent_field "logoUrl")])]).

(** [POST /api/listings/generate] with the parsed request body, once the
    rate limiter has let the request through.  The handler does not touch
    the store. *)
Definition generate_listing (body : value) : response :=
  if negb hasOpenAIKey
  then Json 503
         (VObj [("error",
                 VStr "AI generation is disabled (missing OPENAI_API_KEY).")])
  else
    match
      (let input := js_or body (VObj []) in
       let* prompt := buildPrompt input in
       let* generated := generateWithOpenAI prompt in
       let* listing := new_listing input generated in
       Ok (Json 200 (VObj [("ok", VBool true); ("listing", listing)])))
    with
    | Ok r => r
    | Throw => Json 500 (failure "Failed to generate listing.")
    end.

End Generate.

(** ** A JSON reader and writer to run the store on concrete files

    [stringify] lays a value out the way [JSON.stringify(v, null, 2)] does;
    [parse] reads JSON texts whose numbers are integers.  They instantiate
    the two parameters of the store in the examples. *)
Module MiniJson.

Fixpoint spaces (n : nat) : string :=
  match n with
  | O => EmptyString
  | S k => String " "%char (spaces k)
  end.

Definition backslash : string := String "092"%char EmptyString.

Definition hex_digit (n : nat) : ascii :=
  if Nat.ltb n 10 then ascii_of_nat (48 + n) else ascii_of_nat (87 + n).

Definition escape_char (a : ascii) : string :=
  let n := nat_of_ascii a in
  if Nat.eqb n 34 then backslash ++ dq
  else if Nat.eqb n 92 then backslash ++ backslash
  else if Nat.eqb n 8 then backslash ++ "b"
  else if Nat.eqb n 9 then backslash ++ "t"
  else if Nat.eqb n 10 then backslash ++ "n"
  else if Nat.eqb n 12 then backslash ++ "f"
  else if Nat.eqb n 13 then backslash ++ "r"
  else if Nat.ltb n 32
       then backslash ++ "u00" ++ String (hex_digit (n / 16))
                        (String (hex_digit (n mod 16)) EmptyString)
  else String a EmptyString.

Fixpoint escape_chars (s : string) : string :=
  match s with
  | EmptyString => EmptyString
  | String a rest => escape_char a ++ escape_chars rest
  end.

Definition quote (s : string) : string := quoted (escape_chars s).

Definition newline : string := String (ascii_of_nat 10) EmptyString.

(** Object members whose value is [undefined] are left out; an
    [undefined] array element is written [null]. *)
Fixpoint stringify_at (indent : nat) (v : value) : string :=
  match v with
  | VUndef | VNull => "null"
  | VBool true => "true"
  | VBool false => "false"
  | VNum n => string_of_Z n
  | VStr s => quote s
  | VArr [] => "[]"
  | VArr xs =>
      "[" ++ newline
      ++ (fix items (l : list value) : string :=
            match l with
            | [] => EmptyString
            | x :: rest =>
                spaces (indent + 2) ++ stringify_at (indent + 2) x
                ++ match rest with
                   | [] => newline
                   | _ :: _ => "," ++ newline ++ items rest
                   end
            end) xs
      ++ spaces indent ++ "]"
  | VObj fields =>
      let body :=
        (fix members (first : bool) (l : list (string * value)) : string :=
           match l with
           | [] => EmptyString
           | (k, x) :: rest =>
               match x with
               | VUndef => members first rest
               | _ =>
                   (if first then EmptyString else "," ++ newline)
                   ++ spaces (indent + 2) ++ quote k ++ ": "
                   ++ stringify_at (indent + 2) x
                   ++ members false rest
               end
           end) true fields in
      if is_empty body then "{}"
      else "{" ++ newline ++ body ++ newline ++ spaces indent ++ "}"
  end.

Definition stringify (v : value) : string := stringify_at 0 v.

Definition json_ws (a : ascii) : bool :=
  match nat_of_ascii a with
  | 9 | 10 | 13 | 32 => true
  | _ => false
  end.

Fixpoint skip_ws (s : string) : string :=
  match s with
  | String a rest => if json_ws a then skip_ws rest else s
  | EmptyString => s
  end.

Definition hex_value (a : ascii) : option nat :=
  let n := nat_of_ascii a in
  if Nat.leb 48 n && Nat.leb n 57 then Some (n - 48)
  else if Nat.leb 97 n && Nat.leb n 102 then Some (n - 87)
  else if Nat.leb 65 n && Nat.leb n 70 then Some (n - 55)
  else None.

(** The UTF-8 encoding of a code point of the basic plane. *)
Definition utf8 (c : nat) : string :=
  if Nat.ltb c 128 then String (ascii_of_nat c) EmptyString
  else if Nat.ltb c 2048
       then String (ascii_of_nat (192 + c / 64))
              (String (ascii_of_nat (128 + c mod 64)) EmptyString)
  else String (ascii_of_nat (224 + c / 4096))
         (String (ascii_of_nat (128 + (c / 64) mod 64))
            (String (ascii_of_nat (128 + c mod 64)) EmptyString)).

(** The characters of a string literal after its opening quote. *)
Fixpoint parse_chars (s : string) : option (string * string) :=
  match s with
  | EmptyString => None
  | String a rest =>
      let n := nat_of_ascii a in
      if Nat.eqb n 34 then Some (EmptyString, rest)
      else if Nat.ltb n 32 then None
      else if Nat.eqb n 92 then
        match rest with
        | String e rest' =>
            let unescaped (c : nat) :=
              match parse_chars rest' with
              | Some (t, r) => Some (String (ascii_of_nat c) t, r)
              | None => None
              end in
            match nat_of_ascii e with
            | 34 => unescaped 34
            | 92 => unescaped 92
            | 47 => unescaped 47
            | 98 => unescaped 8
            | 102 => unescaped 12
            | 110 => unescaped 10
            | 114 => unescaped 13
            | 116 => unescaped 9
            | 117 =>
                match rest' with
                | String h1 (String h2 (String h3 (String h4 rest4))) =>
                    match hex_value h1, hex_value h2,
                          hex_value h3, hex_value h4 with
                    | Some a1, Some a2, Some a3, Some a4 =>
                        match parse_chars rest4 with
                        | Some (t, r) =>
                            Some (utf8 (((a1 * 16 + a2) * 16 + a3) * 16 + a4)
                                  ++ t, r)
                        | None => None
                        end
                    | _, _, _, _ => None
                    end
                | _ => None
                end
            | _ => None
            end
        | EmptyString => None
        end
      else
        match parse_chars rest with
        | Some (t, r) => Some (String a t, r)
        | None => None
        end
  end.

Fixpoint take_digits (s : string) : string * string :=
  match s with
  | String a rest =>
      if is_digit a
      then let (d, r) := take_digits rest in (String a d, r)
      else (EmptyString, s)
  | EmptyString => (EmptyString, s)
  end.

(** An integer literal; a fraction or an exponent is refused. *)
Definition parse_number (s : string) : option (value * string) :=
  let (neg, s1) :=
    match s with
    | String "-"%char r => (true, r)
    | _ => (false, s)
    end in
  let (d, r) := take_digits s1 in
  let plain :=
    match r with
    | String c _ =>
        negb (Ascii.eqb c "."%char || Ascii.eqb c "e"%char
              || Ascii.eqb c "E"%char)
    | EmptyString => true
    end in
  let well_formed :=
    match d with
    | EmptyString => false
    | String "0"%char (String _ _) => false
    | _ => true
    end in
  if well_formed && plain
  then
    let n := Z.of_N (digits_value 0 d) in
    Some (VNum (if neg then (- n)%Z else n), r)
  else None.

(** A later member with the same key replaces the value of the earlier. *)
Fixpoint set_member (k : string) (v : value) (l : list (string * value))
  : list (string * value) :=
  match l with
  | [] => [(k, v)]
  | (k', v') :: rest =>
      if String.eqb k k' then (k', v) :: rest
      else (k', v') :: set_member k v rest
  end.

Definition expect (p : string) (s : string) : option string :=
  if String.prefix p s
  then Some (String.substring (String.length p)
               (String.length s - String.length p) s)
  else None.

Fixpoint parse_value (fuel : nat) (s : string) : option (value * string) :=
  match fuel with
  | O => None
  | S f =>
      match s with
      | EmptyString => None
      | String a rest =>
          match nat_of_ascii a with
          | 110 =>
              match expect "null" s with
              | Some r => Some (VNull, r)
              | None => None
              end
          | 116 =>
              match expect "true" s with
              | Some r => Some (VBool true, r)
              | None => None
              end
          | 102 =>
              match expect "false" s with
              | Some r => Some (VBool false, r)
              | None => None
              end
          | 34 =>
              match parse_chars rest with
              | Some (t, r) => Some (VStr t, r)
              | None => None
              end
          | 91 =>
              match skip_ws rest with
              | String "]"%char r => Some (VArr [], r)
              | s1 => parse_items f s1 []
              end
          | 123 =>
              match skip_ws rest with
              | String "}"%char r => Some (VObj [], r)
              | s1 => parse_members f s1 []
              end
          | _ => parse_number s
          end
      end
  end
with parse_items (fuel : nat) (s : string) (acc : list value)
  : option (value * string) :=
  match fuel with
  | O => None
  | S f =>
      match parse_value f s with
      | Some (v, r) =>
          match skip_ws r with
          | String ","%char r' => parse_items f (skip_ws r') (acc ++ [v])%list
          | String "]"%char r' => Some (VArr (acc ++ [v])%list, r')
          | _ => None
          end
      | None => None
      end
  end
with parse_members (fuel : nat) (s : string) (acc : list (string * value))
  : option (value * string) :=
  match fuel with
  | O => None
  | S f =>
      match s with
      | String q rest =>
          if Nat.eqb (nat_of_ascii q) 34 then
            match parse_chars rest with
            | Some (k, r) =>
                match skip_ws r with
                | String ":"%char r1 =>
                    match parse_value f (skip_ws r1) with
                    | Some (v, r2) =>
                        match skip_ws r2 with
                        | String ","%char r3 =>
                            parse_members f (skip_ws r3) (set_member k v acc)
                        | String "}"%char r3 =>
                            Some (VObj (set_member k v acc), r3)
                        | _ => None
                        end
                    | None => None
                    end
                | _ => None
                end
            | None => None
            end
          else None
      | EmptyString => None
      end
  end.

Definition parse (s : string) : result value :=
  match parse_value (S (String.length s)) (skip_ws s) with
  | Some (v, r) => if is_empty (skip_ws r) then Ok v else Throw
  | None => Throw
  end.

End MiniJson.

(** ** Measures on texts used by the specification *)

Fixpoint sfilter (f : ascii -> bool) (s : string) : string :=
  match s with
  | EmptyString => EmptyString
  | String a rest => if f a then String a (sfilter f rest) else sfilter f rest
  end.

(** The characters that delimit markup: the angle brackets and the quotes. *)
Definition is_markup (a : ascii) : bool :=
  Ascii.eqb a "<"%char || Ascii.eqb a ">"%char
  || Ascii.eqb a "034"%char || Ascii.eqb a "'"%char.

(** The markup characters of a text, in order. *)
Definition markup (s : string) : string := sfilter is_markup s.

(** One of the five entity names of [escapeHtml] starts the text. *)
Definition entity_follows (r : string) : bool :=
  String.prefix "amp;" r || String.prefix "lt;" r || String.prefix "gt;" r
  || String.prefix "quot;" r || String.prefix "#039;" r.

(** Every ampersand of the text starts an entity reference. *)
Fixpoint amp_ok (s : string) : bool :=
  match s with
  | EmptyString => true
  | String a rest =>
      (if Ascii.eqb a "&"%char then entity_follows rest else true)
      && amp_ok rest
  end.

(** The number of places of [s] where the text [p] starts. *)
Fixpoint count_sub (p s : string) : nat :=
  match s with
  | EmptyString => 0
  | String _ rest => (if String.prefix p s then 1 else 0) + count_sub p rest
  end.

(** No end of [a] is a beginning of [p] that stops short of [p]: an
    occurrence of [p] cannot start in [a] and finish after it. *)
Fixpoint no_partial (p a : string) : bool :=
  match a with
  | EmptyString => true
  | String _ rest =>
      negb (String.prefix a p && Nat.ltb (String.length a) (String.length p))
      && no_partial p rest
  end.

Definition b64_alphabet (a : ascii) : bool :=
  let n := nat_of_ascii a in
  (Nat.leb 65 n && Nat.leb n 90) || (Nat.leb 97 n && Nat.leb n 122)
  || (Nat.leb 48 n && Nat.leb n 57)
  || Nat.eqb n 43 || Nat.eqb n 47 || Nat.eqb n 61.

(** The five characters [escapeHtml] replaces. *)
Definition special (a : ascii) : bool := is_markup a || Ascii.eqb a "&"%char.

(** A character that is ASCII and not white space. *)
Definition plain (a : ascii) : bool :=
  negb (ascii_ws a) && Nat.ltb (nat_of_ascii a) 128.

Fixpoint has_plain (s : string) : bool :=
  match s with
  | EmptyString => false
  | String a rest => plain a || has_plain rest
  end.


(** A text with none of the five characters. *)
Definition quiet (x : string) : Prop := sfilter special x = EmptyString.

Definition quiet_opt (o : option string) : Prop :=
  forall u, o = Some u -> quiet u.

(** The inlining rule of the specification for an image reference: only a
    reference into [/uploads/] that names a readable file is inlined, as a
    base64 data URI whose MIME type follows the extension of the file. *)
Definition inline_image (dirname : string)
  (path_join : string -> string -> string) (path_extname : string -> string)
  (disk : string -> entry) (ref : value) : value :=
  match ToString ref with
  | Ok s =>
      if startsWith "/uploads/" s
      then
        let filePath := path_join dirname s in
        match disk filePath with
        | File bytes =>
            VStr ("data:" ++ mime_of (toLowerCase (path_extname filePath))
                  ++ ";base64," ++ base64 bytes)
        | _ => VNull
        end
      else VNull
  | Throw => VNull
  end.

(** 1 for a data URI, 0 for [null]. *)
Definition inlined (v : value) : nat :=
  match v with
  | VNull => 0
  | _ => 1
  end.

(** The opening tags of the two image boxes. *)
Definition logo_open : string :=
  Eval vm_compute in "<div class=" ++ dq ++ "logoBox" ++ dq ++ ">".

Definition hero_open : string :=
  Eval vm_compute in "<div class=" ++ dq ++ "hero" ++ dq ++ ">".

(** The constant text before and after the substitution of each nested
    template. *)
Definition logo_box_pre : string :=
  Eval vm_compute in
    "<div class=" ++ dq ++ "logoBox" ++ dq ++ "><img src=" ++ dq.
Definition image_box_post : string := Eval vm_compute in dq ++ " /></div>".
Definition hero_box_pre : string :=
  Eval vm_compute in "<div class=" ++ dq ++ "hero" ++ dq ++ "><img src=" ++ dq.
Definition agent_name_pre : string :=
  Eval vm_compute in "<div class=" ++ dq ++ "agentName" ++ dq ++ ">".
Definition agent_line_pre : string :=
  Eval vm_compute in "<div class=" ++ dq ++ "agentLine" ++ dq ++ ">".
Definition year_card_pre : string :=
  Eval vm_compute in
    String.substring 0 (String.length (year_card EmptyString) - 20)
      (year_card EmptyString).
Definition year_card_post : string :=
  Eval vm_compute in
    String.substring (String.length (year_card EmptyString) - 20) 20
      (year_card EmptyString).
Definition footer_item_pre : string :=
  Eval vm_compute in
    "<span class=" ++ dq ++ "footerDot" ++ dq ++ "></span><span>".

(** *** The store as the specification sees it *)

Section StoreView.

Variable JSON_parse : string -> result value.
Variable JSON_stringify : value -> string.
Variable mkdir_ok : bool.
Variable write_ok : bool.

(** The sequence a backing file holds: the elements of the array its text
    parses to, and nothing when the file cannot be read, does not parse, or
    parses to something else. *)
Definition stored (f : file) : list value :=
  match f with
  | Content raw =>
      match JSON_parse raw with
      | Ok v => elements v
      | Throw => []
      end
  | _ => []
  end.

(** The file with the sequence [xs] written to it. *)
Definition written (xs : list value) : file :=
  Content (JSON_stringify (VArr xs)).

(** Whether [ensureDataFile] returns: a file that exists needs nothing, a
    missing one must be created. *)
Definition can_ensure (st : store) : bool :=
  match listings_file st with
  | Missing => (data_dir st || mkdir_ok) && write_ok
  | _ => true
  end.

(** The store once [ensureDataFile] has returned. *)
Definition ensured (st : store) : store :=
  mkStore true
    match listings_file st with
    | Missing => written []
    | f => f
    end.

(** The store [ensureDataFile] leaves when it throws: as it was when the
    directory could not be made, and with the directory but no file when
    the file could not be written. *)
Definition unensured (st : store) : store :=
  if data_dir st || mkdir_ok then mkStore true Missing else st.

(** The file system serves the store: the backing file can be read when
    it exists, created when it is missing, and written. *)
Definition serviceable (st : store) : bool :=
  write_ok
  && match listings_file st with
     | Missing => data_dir st || mkdir_ok
     | Locked => false
     | Content _ => true
     end.

End StoreView.

Definition isObject (v : value) : bool :=
  match v with
  | VObj _ => true
  | _ => false
  end.

(** The identifier of a body is missing or empty: [undefined], [null] or
    the empty text. *)
Definition absent_or_empty (id : value) : bool :=
  match id with
  | VUndef | VNull => true
  | VStr s => is_empty s
  | _ => false
  end.

(** The values JavaScript takes for false. *)
Inductive falsy : value -> Prop :=
| falsy_undefined : falsy VUndef
| falsy_null : falsy VNull
| falsy_false : falsy (VBool false)
| falsy_zero : falsy (VNum 0)
| falsy_empty : falsy (VStr EmptyString).

(** The record [x] does not carry the identifier [id]. *)
Definition other_id (id : string) (x : value) : bool :=
  negb (strict_eq_string (get_opt "id" x) id).

(** The fields a generated listing carries, and those of its agent. *)
Definition listing_fields : list string :=
  ["id"; "createdAt"; "tone"; "title"; "description"; "address"; "city";
   "state"; "price"; "beds"; "baths"; "sqft"; "yearBuilt"; "features";
   "descriptionInput"; "imageUrl"; "agent"].

Definition agent_fields : list string :=
  ["name"; "brokerage"; "phone"; "email"; "logoUrl"].

(** The fields copied from the input, empty when the input has none. *)
Definition copied_fields : list string :=
  ["address"; "city"; "state"; "price"; "beds"; "baths"; "sqft"; "yearBuilt";
   "features"; "descriptionInput"; "imageUrl"].

Definition has_field (o : value) (k : string) : Prop :=
  exists v, get k o = Ok v /\ nullish v = false
            /\ match o with
               | VObj fields => lookup k fields = Some v
               | _ => False
               end.

(** No field of the record, nor of its agent, is missing, [null] or
    [undefined]. *)
Definition complete (listing : value) : Prop :=
  Forall (has_field listing) listing_fields
  /\ Forall (has_field (get_opt "agent" listing)) agent_fields.

(** *** Notions for the formatting rule *)

Fixpoint count_char (c : ascii) (s : string) : nat :=
  match s with
  | EmptyString => 0
  | String a rest => (if Ascii.eqb a c then 1 else 0) + count_char c rest
  end.

Fixpoint has_digit (s : string) : bool :=
  match s with
  | EmptyString => false
  | String a rest => is_digit a || has_digit rest
  end.

(** How many digits a text holds. *)
Fixpoint digit_count (s : string) : nat :=
  match s with
  | EmptyString => 0
  | String a rest => (if is_digit a then 1 else 0) + digit_count rest
  end.

(** The digits before the first dot of a text, and those after it. *)
Definition whole_digits (r : string) : string := fst (split_dot r).

Definition frac_digits (r : string) : string :=
  match snd (split_dot r) with
  | Some f => f
  | None => EmptyString
  end.

(** The rule the specification gives for the price, read for the square
    footage: format when the text has neither [$] nor [,] and reads as a
    number, else leave the text as it is. *)
Definition same_rule_as_price (s : string) : string :=
  if includes "$"%char s || includes ","%char s then s
  else
    match Number (strip_non_numeric s) with
    | Finite w f => format_integer (Finite w f)
    | _ => s
    end.

(** ** Data of the examples *)

Definition example_join (a b : string) : string := a ++ b.

(** The text from the last dot on. *)
Fixpoint example_extname (p : string) : string :=
  match p with
  | EmptyString => EmptyString
  | String a rest =>
      let e := example_extname rest in
      if is_empty e then (if is_dot a then p else EmptyString) else e
  end.

Definition example_disk (p : string) : entry :=
  if String.eqb p "/app/uploads/a.png"
  then File [Byte.x01; Byte.x02; Byte.x03; Byte.x04]
  else if String.eqb p "/app/uploads/locked.webp" then Unreadable
  else NoEntry.

Definition example_image : value -> value :=
  imageUrlToDataUri "/app" example_join example_extname example_disk.

Definition example_build : value -> result string :=
  buildPdfHtml "/app" example_join example_extname example_disk
    "11/2/2026, 7:00:00 PM".

Definition script_listing : value :=
  VObj [("title", VStr "<script>alert('x')</script>");
        ("address", VStr "1 Main St");
        ("state", VStr "TX");
        ("price", VStr "350000");
        ("beds", VStr "3");
        ("sqft", VStr "1800");
        ("imageUrl", VStr "/uploads/a.png");
        ("agent",
         VObj [("name", VStr "Ann & Co");
               ("logoUrl", VStr "https://example.com/logo.png")])].

(** A listing whose price is not a number. *)
Definition unpriced_listing : value :=
  VObj [("title", VStr "Cozy Bungalow"); ("price", VStr "N/A")].

Definition empty_store : store := mkStore false Missing.

Definition bungalow : value :=
  VObj [("id", VStr "abc123"); ("title", VStr "Cozy Bungalow");
        ("price", VStr "350000"); ("beds", VStr "3")].

Definition cottage : value :=
  VObj [("id", VStr "xyz789"); ("title", VStr "Stone Cottage")].

Definition bungalow_again : value :=
  VObj [("id", VStr "abc123"); ("title", VStr "Cozy Bungalow, reduced")].

(** A store whose file holds three records, two of them with one [id]. *)
Definition three_store : store :=
  mkStore true
    (Content (MiniJson.stringify (VArr [bungalow_again; cottage; bungalow]))).

(** A store whose file holds JSON for an object. *)
Definition object_store : store :=
  mkStore true (Content (MiniJson.stringify (VObj [("listings", VArr [])]))).

(** A store whose file does not hold JSON. *)
Definition corrupt_store : store := mkStore true (Content "[{oops").

(** Bodies for the save route: one whose [id] is the number 0, one whose
    [id] is the number 123, one with a [null] title and no address. *)
Definition zero_id_body : value :=
  VObj [("id", VNum 0); ("title", VStr "Cozy Bungalow")].

(** A body whose [id] is a number. *)
Definition numbered_body : value :=
  VObj [("id", VNum 123); ("title", VStr "Garden Loft")].

Definition partial_body : value :=
  VObj [("id", VStr "abc123"); ("title", VNull)].

Definition example_generate : value -> response :=
  generate_listing true
    (fun _ => Ok ("Sunny Home", "Sunny Home
A bright place."))
    "0123456789abcdef01234567" "2026-11-02T19:00:00.000Z".

(** ** Further notions of the specification *)

(** The sequence [xs], written to the backing file, reads back as written. *)
Definition reads_back (JSON_parse : string -> result value)
  (JSON_stringify : value -> string) (xs : list value) : Prop :=
  JSON_parse (JSON_stringify (VArr xs)) = Ok (VArr xs).

Definition not_null (x : value) : Prop := nullish x = false.

(** The record [x] carries the identifier [id]. *)
Definition has_id (id : string) (x : value) : bool :=
  strict_eq_string (get_opt "id" x) id.

(** What an HTML parser reads back from a text in which the five characters
    were replaced by [escapeHtml]: each of the five references stands for its
    character.  [skip] counts the characters of a reference still to pass. *)
Fixpoint decode_entities (skip : nat) (s : string) : string :=
  match s with
  | EmptyString => EmptyString
  | String a rest =>
      match skip with
      | S k => decode_entities k rest
      | O =>
          if Ascii.eqb a "&"%char then
            if String.prefix "amp;" rest
            then String "&"%char (decode_entities 4 rest)
            else if String.prefix "lt;" rest
            then String "<"%char (decode_entities 3 rest)
            else if String.prefix "gt;" rest
            then String ">"%char (decode_entities 3 rest)
            else if String.prefix "quot;" rest
            then String "034"%char (decode_entities 5 rest)
            else if String.prefix "#039;" rest
            then String "'"%char (decode_entities 5 rest)
            else String a (decode_entities O rest)
          else String a (decode_entities O rest)
      end
  end.

(** A store whose array holds a [null] beside a record. *)
Definition null_store : store :=
  mkStore true (Content (MiniJson.stringify (VArr [cottage; VNull]))).

(** ** The completion service *)

(** [s.split] at each line feed. *)
Fixpoint split_lines (s : string) : list string :=
  match s with
  | EmptyString => [EmptyString]
  | String a rest =>
      if Ascii.eqb a "010"%char then EmptyString :: split_lines rest
      else
        match split_lines rest with
        | line :: lines => String a line :: lines
        | [] => [String a EmptyString]
        end
  end.

(** [s.length], the number of UTF-16 code units, for a text held in UTF-8:
    a byte that continues a character adds none, a byte that opens a
    character of four bytes adds two, any other byte one. *)
Definition utf16_units (a : ascii) : nat :=
  let n := nat_of_ascii a in
  if Nat.ltb n 128 then 1
  else if Nat.ltb n 192 then 0
  else if Nat.ltb n 240 then 1
  else 2.

Fixpoint js_length (s : string) : nat :=
  match s with
  | EmptyString => 0
  | String a rest => utf16_units a + js_length rest
  end.

Definition is_quote (a : ascii) : bool :=
  Ascii.eqb a "034"%char || Ascii.eqb a "'"%char.

(** The second alternative of the pattern: a quote that ends the text. *)
Fixpoint drop_last_quote (s : string) : string :=
  match s with
  | EmptyString => EmptyString
  | String a EmptyString => if is_quote a then EmptyString else s
  | String a rest => String a (drop_last_quote rest)
  end.

(** [s.replace] with the global pattern of [generateWithOpenAI], a single
    or double quote at the start of the text or at its end: a quote that
    opens the text and a quote that ends it are dropped; one quote alone is
    the opening one. *)
Definition strip_quotes (s : string) : string :=
  match s with
  | EmptyString => EmptyString
  | String a rest =>
      if is_quote a then drop_last_quote rest else drop_last_quote s
  end.

(** [choices?.[0]?.message].  Element 0 of an array, or the property [0] of
    an object; the element 0 of a text is a text of one code unit, which
    like a number or a boolean has no property [message]. *)
Definition first_message (choices : value) : value :=
  match choices with
  | VArr (x :: _) => get_opt "message" x
  | VObj fields =>
      match lookup "0" fields with
      | Some x => get_opt "message" x
      | None => VUndef
      end
  | _ => VUndef
  end.

(** [content?.trim()]: only a text has the method; calling it on any other
    value that is neither [null] nor [undefined] throws a [TypeError]. *)
Definition call_trim (content : value) : result value :=
  match content with
  | VUndef | VNull => Ok VUndef
  | VStr s => Ok (VStr (trim s))
  | _ => Throw
  end.

Definition not_empty (s : string) : bool := negb (is_empty s).

(** The part of [generateWithOpenAI] that follows [await resp.json()]. *)
Definition read_completion (data : value) : result (string * string) :=
  let* trimmed :=
    call_trim
      (get_opt "content" (first_message (get_opt "choices" data))) in
  let* content := ToString (js_or trimmed (VStr EmptyString)) in
  let lines := filter not_empty (map trim (split_lines content)) in
  let title :=
    strip_quotes
      match lines with
      | first :: _ =>
          if Nat.leb (js_length first) 90 then first else "Property Listing"
      | [] => "Property Listing"
      end in
  Ok (title, content).

(** What the request to the completion service comes to: [fetch] rejects,
    the response is not [ok] (the function throws), or the response is
    [ok] and [resp.json()] gives a value or rejects. *)
Inductive reply : Type :=
| Unreachable
| Refused
| Answered (body : result value).

Definition placeholder_description : string :=
  "OPENAI_API_KEY is not set. Add it to your .env file to enable AI generation.

(Uploads + PDF + branding still work.)".

Section Completion.

(** The two settings read from the environment, and the service: the
    outcome of the request sent with a key and a model for a prompt. *)
Variable env_key : option string.
Variable env_model : option string.
Variable fetch : string -> string -> string -> reply.

(** [process.env.NAME || fallback]. *)
Definition env_or (setting : option string) (fallback : string) : string :=
  match setting with
  | Some s => if is_empty s then fallback else s
  | None => fallback
  end.

Definition OPENAI_API_KEY : string := env_or env_key EmptyString.
Definition OPENAI_MODEL : string := env_or env_model "gpt-4o-mini".

(** [!!process.env.OPENAI_API_KEY]. *)
Definition hasOpenAIKey : bool :=
  match env_key with
  | Some s => not_empty s
  | None => false
  end.

(** [generateWithOpenAI] from the request on. *)
Definition request_completion (prompt : string) : result (string * string) :=
  match fetch OPENAI_API_KEY OPENAI_MODEL prompt with
  | Unreachable | Refused => Throw
  | Answered body =>
      let* data := body in
      read_completion data
  end.

Definition generateWithOpenAI (prompt : string) : result (string * string) :=
  if is_empty OPENAI_API_KEY
  then Ok ("Property Listing", placeholder_description)
  else request_completion prompt.

(** [POST /api/listings/generate], the handler with the service of the
    program. *)
Definition generate_route (fresh_id created_at : string) (body : value)
  : response :=
  generate_listing hasOpenAIKey generateWithOpenAI fresh_id created_at body.

End Completion.

(** *** The title of a completion, as its rule reads *)

(** The text before the first line feed. *)
Fixpoint first_line (s : string) : string :=
  match s with
  | EmptyString => EmptyString
  | String a rest =>
      if Ascii.eqb a "010"%char then EmptyString
      else String a (first_line rest)
  end.

Definition ends_with_quote (s : string) : bool :=
  match rev (list_ascii_of_string s) with
  | a :: _ => is_quote a
  | [] => false
  end.

Definition without_last (s : string) : string :=
  string_of_list_ascii (removelast (list_ascii_of_string s)).

(** A text without the quote that opens it, if one does, and then without
    the quote that ends it, if one does. *)
Definition unquoted (s : string) : string :=
  let opened :=
    match s with
    | String a rest => if is_quote a then rest else s
    | EmptyString => s
    end in
  if ends_with_quote opened then without_last opened else opened.

(** The text of the completion in the answer of the service: the content
    of the message of the first choice, trimmed; the empty text when there
    is none. *)
Definition completion_text (data : value) : string :=
  match get_opt "content" (first_message (get_opt "choices" data)) with
  | VStr c => trim c
  | _ => EmptyString
  end.

(** The title a listing gets for the text of a completion: its first line
    without the white space around it, when that has at most 90 UTF-16 code
    units, and [Property Listing] when it has more or the completion is
    empty; the quotes around it are dropped, and [Property Listing] stands
    in again when nothing is left. *)
Definition title_rule (content : string) : string :=
  let line := trim (first_line content) in
  let chosen :=
    if is_empty line || Nat.ltb 90 (js_length line)
    then "Property Listing" else line in
  let bare := unquoted chosen in
  if is_empty bare then "Property Listing" else bare.

(** A text that does not open with white space: [trimStart] returns it as
    it is. *)
Definition opens_text (s : string) : Prop :=
  match s with
  | EmptyString => True
  | String a r1 =>
      ascii_ws a = false
      /\ match r1 with
         | EmptyString => True
         | String b r2 =>
             ws2 a b = false
             /\ match r2 with
                | EmptyString => True
                | String c _ => ws3 a b c = false
                end
         end
  end.

(** Every character of a text passes a test. *)
Fixpoint all_chars (f : ascii -> bool) (s : string) : bool :=
  match s with
  | EmptyString => true
  | String a rest => f a && all_chars f rest
  end.

(** A digit or the group symbol. *)
Definition digit_or_comma (a : ascii) : bool :=
  is_digit a || Ascii.eqb a ","%char.

(** ** The opening of the prompt *)

Definition spanish_rule : string :=
  "Language requirement: Output must be 100% Spanish. Do NOT include English.".

Definition english_rule : string :=
  "Language requirement: Output must be 100% English.".

(** The first three lines of a prompt written for a tone under a language
    rule. *)
Definition prompt_opening (tone rule : string) : string :=
  "You are an expert real estate listing writer.
Style/Tone: " ++ dq ++ tone ++ dq ++ "
" ++ rule ++ "
".

(** ** The PDF routes *)

(** What the calls to the headless browser come to: whether
    [puppeteer.launch], [browser.newPage] and [page.setContent] resolve,
    what [page.pdf] gives for the document that was set, and whether
    [browser.close] resolves. *)
Record puppeteer : Type := mkPuppeteer {
  launch : bool;
  newPage : bool;
  setContent : string -> bool;
  pdf : string -> result (list Byte.byte);
  close : bool
}.

(** The browsers of the server: how many were launched so far, and how
    many of them are still running. *)
Record browsers : Type := mkBrowsers {
  launched : nat;
  running : nat
}.

(** What a PDF route sends: the file (status 200, [application/pdf], as the
    attachment [listing.pdf]), or a plain text under a status.  The text
    sent with status 500 is the stack of the error caught, which the model
    does not hold. *)
Inductive pdf_response : Type :=
| PdfFile (bytes : list Byte.byte)
| PdfText (status : nat) (body : option string).

Definition pdf_failure : pdf_response := PdfText 500 None.

(** The [try] block from [buildPdfHtml] on, with its [catch] and its
    [finally].  [browser] is assigned once [launch] has resolved; [finally]
    closes it then, and a rejection of [close] is swallowed. *)
Definition print_listing (chrome : puppeteer) (html : result string)
  (b : browsers) : pdf_response * browsers :=
  match html with
  | Throw => (pdf_failure, b)
  | Ok document =>
      if negb (launch chrome) then (pdf_failure, b)
      else
        let printed :=
          if negb (newPage chrome) then Throw
          else if negb (setContent chrome document) then Throw
          else pdf chrome document in
        let answer :=
          match printed with
          | Ok bytes => PdfFile bytes
          | Throw => pdf_failure
          end in
        (answer,
         mkBrowsers (S (launched b))
           (if close chrome then running b else S (running b)))
  end.

Section PdfRoutes.

Variable dirname : string.
Variable path_join : string -> string -> string.
Variable path_extname : string -> string.
Variable disk : string -> entry.
Variable now : string.
Variable JSON_parse : string -> result value.
Variable JSON_stringify : value -> string.
Variable mkdir_ok : bool.
Variable write_ok : bool.
Variable chrome : puppeteer.

(** [POST /api/pdf] with the parsed request body. *)
Definition post_pdf (body : value) (b : browsers) : pdf_response * browsers :=
  let listing := js_or body (VObj []) in
  print_listing chrome
    (buildPdfHtml dirname path_join path_extname disk now listing) b.

(** [GET /pdf/:id]. *)
Definition get_pdf (id : string) (b : browsers) (st : store)
  : pdf_response * browsers * store :=
  match readListings JSON_parse JSON_stringify mkdir_ok write_ok st with
  | (Ok listings, st') =>
      match find_by_id id listings with
      | Ok listing =>
          if negb (truthy listing)
          then (PdfText 404 (Some "Listing not found."), b, st')
          else
            (print_listing chrome
               (buildPdfHtml dirname path_join path_extname disk now listing)
               b, st')
      | Throw => (pdf_failure, b, st')
      end
  | (Throw, st') => (pdf_failure, b, st')
  end.

End PdfRoutes.

(** ** The public share page *)

(** The page up to the [id] in its title. *)
Definition share_head : string :=
  "<!doctype html>
<html>
<head>
  <meta charset=" ++ dq ++ "utf-8" ++ dq ++ " />
  <meta name=" ++ dq ++ "viewport" ++ dq ++ " content=" ++ dq ++ "width=device-width,initial-scale=1" ++ dq ++ " />
  <title>Listing ".

(** From the title to the [id] in the script. *)
Definition share_mid : string :=
  "</title>
  <style>
    body { font-family: Arial, sans-serif; margin: 0; background: #fafafa; color: #111; }
    .wrap { max-width: 980px; margin: 0 auto; padding: 18px; }
    .card { background: #fff; border: 1px solid #e8e8e8; border-radius: 14px; padding: 14px; }
    .top { display:flex; justify-content: space-between; gap: 14px; flex-wrap: wrap; }
    .title { margin: 0; font-size: 20px; font-weight: 800; }
    .sub { margin: 8px 0 0; color:#555; font-size: 12px; line-height: 1.4; }
    .badge { display:inline-block; margin-top: 10px; font-size: 11px; padding: 6px 10px; border: 1px solid #ddd; border-radius: 999px; }
    .agent { text-align: right; min-width: 240px; }
    .logo { max-width: 180px; max-height: 70px; object-fit: contain; display:block; margin-left: auto; margin-bottom: 8px; }
    .agentName { font-weight: 800; margin: 0; font-size: 13px; }
    .agentLine { margin: 4px 0; font-size: 11px; color:#444; }
    .hero { margin-top: 14px; border: 1px solid #eee; border-radius: 14px; overflow: hidden; }
    .hero img { width: 100%; height: 320px; object-fit: cover; display:block; }
    .grid { display:grid; grid-template-columns: 1fr 1fr; gap: 12px; margin-top: 14px; }
    @media (max-width: 720px) { .grid { grid-template-columns: 1fr; } .agent { text-align:left; } .logo { margin-left: 0; } }
    .k { color:#666; font-size: 11px; text-transform: uppercase; letter-spacing: .04em; }
    .v { font-size: 14px; font-weight: 800; margin-top: 4px; }
    .desc { margin-top: 14px; white-space: pre-wrap; line-height: 1.5; font-size: 13px; }
    .btns { display:flex; gap: 10px; flex-wrap: wrap; margin-top: 12px; }
    a.btn { border: 1px solid #e8e8e8; border-radius: 10px; padding: 10px 12px; background:#111; color:#fff; font-size: 14px; text-decoration:none; display:inline-block; }
    a.secondary { background:#fff; color:#111; }
    .muted { color:#666; font-size: 12px; margin-top: 10px; }
  </style>
</head>
<body>
  <div class=" ++ dq ++ "wrap" ++ dq ++ ">
    <div class=" ++ dq ++ "card" ++ dq ++ " id=" ++ dq ++ "card" ++ dq ++ "><div class=" ++ dq ++ "muted" ++ dq ++ ">Loading…</div></div>
  </div>

  <script>
    const id = ".

(** The rest of the script and of the page. *)
Definition share_tail : string :=
  ";

    function esc(s){ return String(s ?? " ++ dq ++ dq ++ ").replaceAll(" ++ dq ++ "&" ++ dq ++ "," ++ dq ++ "&amp;" ++ dq ++ ").replaceAll(" ++ dq ++ "<" ++ dq ++ "," ++ dq ++ "&lt;" ++ dq ++ ").replaceAll(" ++ dq ++ ">" ++ dq ++ "," ++ dq ++ "&gt;" ++ dq ++ "); }
    function fmtMoney(x){
      const s = String(x ?? " ++ dq ++ dq ++ ").trim();
      if (!s) return " ++ dq ++ dq ++ ";
      if (s.includes(" ++ dq ++ "$" ++ dq ++ ") || s.includes(" ++ dq ++ "," ++ dq ++ ")) return s;
      const n = Number(s.replace(/[^\d.]/g," ++ dq ++ dq ++ "));
      if (!Number.isFinite(n)) return s;
      return new Intl.NumberFormat(" ++ dq ++ "en-US" ++ dq ++ ",{style:" ++ dq ++ "currency" ++ dq ++ ",currency:" ++ dq ++ "USD" ++ dq ++ ",maximumFractionDigits:0}).format(n);
    }

    async function load() {
      const card = document.getElementById(" ++ dq ++ "card" ++ dq ++ ");
      try {
        const r = await fetch(" ++ dq ++ "/api/listings/" ++ dq ++ " + encodeURIComponent(id));
        const data = await r.json();
        if (!r.ok || !data.ok) throw new Error(data.error || " ++ dq ++ "Not found" ++ dq ++ ");

        const l = data.listing;
        const a = l.agent || {};

        card.innerHTML = `
          <div class=" ++ dq ++ "top" ++ dq ++ ">
            <div>
              <h1 class=" ++ dq ++ "title" ++ dq ++ ">${esc(l.title || " ++ dq ++ "Property Listing" ++ dq ++ ")}</h1>
              <div class=" ++ dq ++ "sub" ++ dq ++ ">${esc([l.address, l.city, l.state].filter(Boolean).join(" ++ dq ++ ", " ++ dq ++ "))}</div>
              <div class=" ++ dq ++ "badge" ++ dq ++ ">${esc(l.tone || " ++ dq ++ "MLS" ++ dq ++ ")}</div>
            </div>

            <div class=" ++ dq ++ "agent" ++ dq ++ ">
              ${a.logoUrl ? `<img class=" ++ dq ++ "logo" ++ dq ++ " src=" ++ dq ++ "${esc(a.logoUrl)}" ++ dq ++ " alt=" ++ dq ++ "Agent logo" ++ dq ++ " />` : " ++ dq ++ dq ++ "}
              ${a.name ? `<p class=" ++ dq ++ "agentName" ++ dq ++ ">${esc(a.name)}</p>` : " ++ dq ++ dq ++ "}
              ${a.brokerage ? `<div class=" ++ dq ++ "agentLine" ++ dq ++ ">${esc(a.brokerage)}</div>` : " ++ dq ++ dq ++ "}
              ${a.phone ? `<div class=" ++ dq ++ "agentLine" ++ dq ++ ">${esc(a.phone)}</div>` : " ++ dq ++ dq ++ "}
              ${a.email ? `<div class=" ++ dq ++ "agentLine" ++ dq ++ ">${esc(a.email)}</div>` : " ++ dq ++ dq ++ "}
            </div>
          </div>

          ${l.imageUrl ? `<div class=" ++ dq ++ "hero" ++ dq ++ "><img src=" ++ dq ++ "${esc(l.imageUrl)}" ++ dq ++ " alt=" ++ dq ++ "Property photo" ++ dq ++ " /></div>` : " ++ dq ++ dq ++ "}

          <div class=" ++ dq ++ "grid" ++ dq ++ ">
            <div class=" ++ dq ++ "card" ++ dq ++ ">
              <div class=" ++ dq ++ "k" ++ dq ++ ">Price</div>
              <div class=" ++ dq ++ "v" ++ dq ++ ">${esc(fmtMoney(l.price) || l.price || " ++ dq ++ dq ++ ")}</div>
            </div>
            <div class=" ++ dq ++ "card" ++ dq ++ ">
              <div class=" ++ dq ++ "k" ++ dq ++ ">Beds / Baths / Sqft</div>
              <div class=" ++ dq ++ "v" ++ dq ++ ">${esc([l.beds, l.baths, l.sqft].filter(Boolean).join(" ++ dq ++ " • " ++ dq ++ "))}</div>
            </div>
          </div>

          ${l.yearBuilt ? `
            <div class=" ++ dq ++ "card" ++ dq ++ " style=" ++ dq ++ "margin-top:12px;" ++ dq ++ ">
              <div class=" ++ dq ++ "k" ++ dq ++ ">Year Built</div>
              <div class=" ++ dq ++ "v" ++ dq ++ ">${esc(l.yearBuilt)}</div>
            </div>` : " ++ dq ++ dq ++ "}

          <div class=" ++ dq ++ "card desc" ++ dq ++ ">${esc(l.description || " ++ dq ++ dq ++ ")}</div>

          <div class=" ++ dq ++ "btns" ++ dq ++ ">
            <a class=" ++ dq ++ "btn" ++ dq ++ " href=" ++ dq ++ "/pdf/${encodeURIComponent(l.id)}" ++ dq ++ ">Download PDF</a>
            <a class=" ++ dq ++ "btn secondary" ++ dq ++ " href=" ++ dq ++ "/" ++ dq ++ ">Back to Generator</a>
          </div>

          <div class=" ++ dq ++ "muted" ++ dq ++ ">Share link: ${location.href}</div>
        `;
      } catch (e) {
        card.innerHTML = '<div class=" ++ dq ++ "muted" ++ dq ++ ">This listing link is invalid or was deleted.</div>';
      }
    }

    load();
  </script>
</body>
</html>".

(** The document [GET /listing/:id] sends for the route parameter [id], a
    text.  [escapeHtml] of a text is [escape_string] of it, and
    [JSON.stringify] of a text is the text between quotes with the
    characters JSON escapes. *)
Definition share_page (id : string) : string :=
  share_head ++ escape_string id ++ share_mid
  ++ MiniJson.quote id ++ share_tail.

Definition get_share (id : string) : response := Text 200 (share_page id).

(** A character [JSON.stringify] leaves as it is. *)
Definition json_plain (a : ascii) : bool :=
  let n := nat_of_ascii a in
  negb (Nat.ltb n 32 || Nat.eqb n 34 || Nat.eqb n 92).

(** ** Listings that can be printed *)

(** A value that is neither an array nor an object: [String] never throws
    on it. *)
Definition scalar (v : value) : bool :=
  match v with
  | VArr _ | VObj _ => false
  | _ => true
  end.

Definition scalar_fields (fields : list (string * value)) : bool :=
  forallb (fun kv => scalar (snd kv)) fields.

(** A listing as the form of the application sends it: an object whose
    fields are scalar, but for [agent], which may be an object of scalar
    fields. *)
Definition plain_listing (listing : value) : bool :=
  match listing with
  | VObj fields =>
      forallb
        (fun kv =>
           if String.eqb (fst kv) "agent"
           then match snd kv with
                | VObj agent => scalar_fields agent
                | VArr _ => false
                | _ => true
                end
           else scalar (snd kv))
        fields
  | _ => false
  end.

(** ** Data of further examples *)

(** A completion whose first line is a title in quotes. *)
Definition quoted_completion : value :=
  VObj
    [("choices",
      VArr
        [VObj
           [("message",
             VObj
               [("role", VStr "assistant");
                ("content",
                 VStr (dq ++ "Sunny Home" ++ dq ++ "
A bright place.
"))])]])].

Definition example_route : value -> response :=
  generate_route (Some "sk-test") None
    (fun _ _ _ => Answered (Ok quoted_completion))
    "0123456789abcdef01234567" "2026-11-02T19:00:00.000Z".

(** The listing of a response of the generate route. *)
Definition listing_of (r : response) : value :=
  match r with
  | Json _ body => get_opt "listing" body
  | Text _ _ => VUndef
  end.

Definition spanish_input : value :=
  VObj [("tone", VStr "Luxury (SPANISH)"); ("address", VStr "1 Main St")].

(** A browser whose calls all succeed. *)
Definition example_chrome : puppeteer :=
  mkPuppeteer true true (fun _ => true)
    (fun _ => Ok [Byte.x25; Byte.x50; Byte.x44; Byte.x46]) true.

Definition example_get_pdf : string -> browsers -> store
                             -> pdf_response * browsers * store :=
  get_pdf "/app" example_join example_extname example_disk
    "11/2/2026, 7:00:00 PM" MiniJson.parse MiniJson.stringify true true
    example_chrome.

Definition example_post_pdf : value -> browsers -> pdf_response * browsers :=
  post_pdf "/app" example_join example_extname example_disk
    "11/2/2026, 7:00:00 PM" example_chrome.

(** A listing whose texts hold markup and which shows no optional part,
    like [unpriced_listing]. *)
Definition tagged_listing : value :=
  VObj [("title", VStr "<b>Villa</b>"); ("price", VStr "1 < 2")].
(** ** Facts about texts *)

Lemma append_nil_r (s : string) : s ++ EmptyString = s.
Proof. induction s as [|a s IH]; simpl; [reflexivity | now rewrite IH]. Qed.

Lemma append_assoc (a b c : string) : (a ++ b) ++ c = a ++ (b ++ c).
Proof. induction a as [|x a IH]; simpl; [reflexivity | now rewrite IH]. Qed.

Lemma append_length (a b : string) :
  String.length (a ++ b) = String.length a + String.length b.
Proof. induction a as [|x a IH]; simpl; [reflexivity | now rewrite IH]. Qed.

Lemma sfilter_app (f : ascii -> bool) (a b : string) :
  sfilter f (a ++ b) = sfilter f a ++ sfilter f b.
Proof.
  induction a as [|x a IH]; simpl; [reflexivity |].
  destruct (f x); simpl; now rewrite IH.
Qed.

Lemma markup_app (a b : string) : markup (a ++ b) = markup a ++ markup b.
Proof. apply sfilter_app. Qed.

Lemma includes_app (c : ascii) (a b : string) :
  includes c (a ++ b) = includes c a || includes c b.
Proof.
  induction a as [|x a IH]; simpl; [reflexivity |].
  now rewrite IH, orb_assoc.
Qed.

Lemma sfilter_none (f : ascii -> bool) (s : string) :
  (forall a, f a = true -> includes a s = false) -> sfilter f s = EmptyString.
Proof.
  induction s as [|x s IH]; simpl; intros H; [reflexivity |].
  destruct (f x) eqn:Hx.
  - specialize (H x Hx). now rewrite Ascii.eqb_refl in H.
  - apply IH. intros a Ha. specialize (H a Ha).
    now apply orb_false_iff in H.
Qed.

Lemma prefix_nil (s : string) : String.prefix EmptyString s = true.
Proof. now destruct s. Qed.

Lemma prefix_app_r (p a b : string) :
  String.prefix p a = true -> String.prefix p (a ++ b) = true.
Proof.
  revert a. induction p as [|x p IH]; intros a H; [apply prefix_nil |].
  destruct a as [|y a]; simpl in *; [discriminate |].
  destruct (ascii_dec x y); [now apply IH | discriminate].
Qed.

Lemma prefix_app_l (a b p : string) :
  String.prefix (a ++ b) p = true -> String.prefix a p = true.
Proof.
  revert p. induction a as [|x a IH]; intros p H; [apply prefix_nil |].
  destruct p as [|y p]; simpl in *; [discriminate |].
  destruct (ascii_dec x y); [now apply IH | discriminate].
Qed.

(** An occurrence of [p] at the start of [a ++ b] lies within [a], or [a] is
    a beginning of [p] that stops short of it. *)
Lemma prefix_app_cases (p a b : string) :
  String.prefix p (a ++ b) = true ->
  String.prefix p a = true
  \/ (String.prefix a p = true /\ String.length a < String.length p).
Proof.
  revert a. induction p as [|x p IH]; intros a H.
  - left. now destruct a.
  - destruct a as [|y a]; simpl in *.
    + right. split; [reflexivity | lia].
    + destruct (ascii_dec x y) as [->|]; [| easy].
      destruct (IH a H) as [Hp | [Hp Hl]].
      * now left.
      * right. destruct (ascii_dec y y); [| easy]. split; [exact Hp | lia].
Qed.

Lemma count_sub_app (p a b : string) :
  no_partial p a = true ->
  count_sub p (a ++ b) = count_sub p a + count_sub p b.
Proof.
  induction a as [|x a IH]; intros H; [reflexivity |].
  cbn [no_partial] in H. apply andb_true_iff in H as [Hx Ha].
  change (String x a ++ b) with (String x (a ++ b)).
  cbn [count_sub]. rewrite (IH Ha).
  assert (E : String.prefix p (String x (a ++ b)) = String.prefix p (String x a)).
  { destruct (String.prefix p (String x a)) eqn:E1.
    - apply (prefix_app_r p (String x a) b E1).
    - destruct (String.prefix p (String x (a ++ b))) eqn:E2; [| reflexivity].
      destruct (prefix_app_cases p (String x a) b E2) as [E3 | [E3 E4]].
      + congruence.
      + apply Nat.ltb_lt in E4. rewrite E3, E4 in Hx. discriminate. }
  rewrite E. lia.
Qed.

Lemma no_partial_app (p a b : string) :
  no_partial p a = true -> no_partial p b = true ->
  no_partial p (a ++ b) = true.
Proof.
  induction a as [|x a IH]; intros Ha Hb; [exact Hb |].
  cbn [no_partial] in Ha. apply andb_true_iff in Ha as [Hx Ha].
  change (String x a ++ b) with (String x (a ++ b)).
  cbn [no_partial]. rewrite (IH Ha Hb), andb_true_r.
  destruct (String.prefix (String x (a ++ b)) p) eqn:E1; [| reflexivity].
  destruct (Nat.ltb (String.length (String x (a ++ b))) (String.length p))
    eqn:E2; [| reflexivity].
  exfalso.
  pose proof (prefix_app_l (String x a) b p E1) as E3.
  apply Nat.ltb_lt in E2.
  assert (E4 : Nat.ltb (String.length (String x a)) (String.length p) = true).
  { apply Nat.ltb_lt. cbn [String.length] in *. rewrite append_length in E2. lia. }
  rewrite E3, E4 in Hx. discriminate.
Qed.

(** A text without [<] cannot take part in an occurrence of a tag. *)
Lemma no_partial_lt_free (q a : string) :
  includes "<"%char a = false -> no_partial (String "<"%char q) a = true.
Proof.
  induction a as [|x a IH]; intros H; [reflexivity |].
  cbn [includes] in H. apply orb_false_iff in H as [Hx Ha].
  cbn [no_partial]. rewrite (IH Ha), andb_true_r.
  cbn [String.prefix]. destruct (ascii_dec x "<"%char) as [->|]; [| reflexivity].
  discriminate.
Qed.

Lemma count_sub_lt_free (q a : string) :
  includes "<"%char a = false -> count_sub (String "<"%char q) a = 0.
Proof.
  induction a as [|x a IH]; intros H; [reflexivity |].
  cbn [includes] in H. apply orb_false_iff in H as [Hx Ha].
  cbn [count_sub]. rewrite (IH Ha).
  cbn [String.prefix]. destruct (ascii_dec "<"%char x) as [<-|]; [| reflexivity].
  discriminate.
Qed.

Lemma entity_follows_app (r b : string) :
  entity_follows r = true -> entity_follows (r ++ b) = true.
Proof.
  unfold entity_follows. intros H.
  repeat (apply orb_true_iff in H as [H | H]);
    apply (prefix_app_r _ r b) in H; rewrite H;
    repeat rewrite orb_true_r; reflexivity.
Qed.

Lemma amp_ok_app (a b : string) :
  amp_ok a = true -> amp_ok b = true -> amp_ok (a ++ b) = true.
Proof.
  induction a as [|x a IH]; intros Ha Hb; [exact Hb |].
  cbn [amp_ok] in Ha. apply andb_true_iff in Ha as [Hx Ha].
  change (String x a ++ b) with (String x (a ++ b)).
  cbn [amp_ok]. rewrite (IH Ha Hb), andb_true_r.
  destruct (Ascii.eqb x "&"%char); [| reflexivity].
  now apply entity_follows_app.
Qed.

Lemma amp_ok_amp_free (s : string) :
  includes "&"%char s = false -> amp_ok s = true.
Proof.
  induction s as [|x s IH]; intros H; [reflexivity |].
  cbn [includes] in H. apply orb_false_iff in H as [Hx Hs].
  cbn [amp_ok]. now rewrite Hx, (IH Hs).
Qed.

(** *** [escapeHtml] leaves no markup character and no bare ampersand *)

Ltac each_ascii a := destruct a as [[] [] [] [] [] [] [] []].

Lemma replaceAll_app (c : ascii) (r a b : string) :
  replaceAll c r (a ++ b) = replaceAll c r a ++ replaceAll c r b.
Proof.
  induction a as [|x a IH]; simpl; [reflexivity |].
  destruct (Ascii.eqb x c); simpl; rewrite IH; [| reflexivity].
  now rewrite append_assoc.
Qed.

Lemma escape_string_app (a b : string) :
  escape_string (a ++ b) = escape_string a ++ escape_string b.
Proof. unfold escape_string. now rewrite !replaceAll_app. Qed.

Lemma escape_string_cons (a : ascii) (s : string) :
  escape_string (String a s)
  = escape_string (String a EmptyString) ++ escape_string s.
Proof.
  change (String a s) with (String a EmptyString ++ s).
  apply escape_string_app.
Qed.

Lemma escape_one_markup (a : ascii) :
  markup (escape_string (String a EmptyString)) = EmptyString.
Proof. each_ascii a; reflexivity. Qed.

Lemma escape_one_amp (a : ascii) :
  amp_ok (escape_string (String a EmptyString)) = true.
Proof. each_ascii a; reflexivity. Qed.

Lemma escape_one_lt (a : ascii) :
  includes "<"%char (escape_string (String a EmptyString)) = false.
Proof. each_ascii a; reflexivity. Qed.

Lemma markup_escape_string (s : string) :
  markup (escape_string s) = EmptyString.
Proof.
  induction s as [|a s IH]; [reflexivity |].
  now rewrite escape_string_cons, markup_app, escape_one_markup, IH.
Qed.

Lemma amp_ok_escape_string (s : string) : amp_ok (escape_string s) = true.
Proof.
  induction s as [|a s IH]; [reflexivity |].
  rewrite escape_string_cons. apply amp_ok_app; [apply escape_one_amp | exact IH].
Qed.

Lemma lt_free_escape_string (s : string) :
  includes "<"%char (escape_string s) = false.
Proof.
  induction s as [|a s IH]; [reflexivity |].
  now rewrite escape_string_cons, includes_app, escape_one_lt, IH.
Qed.

(** *** The base64 alphabet *)

Lemma b64_char_small (k : nat) :
  k < 64 -> b64_alphabet (b64_char (N.of_nat k)) = true.
Proof.
  intros H. do 64 (destruct k as [|k]; [reflexivity |]). lia.
Qed.

Lemma b64_char_alphabet (n : N) : b64_alphabet (b64_char n) = true.
Proof.
  destruct (N.ltb n 64) eqn:E.
  - apply N.ltb_lt in E. rewrite <- (N2Nat.id n). apply b64_char_small. lia.
  - apply N.ltb_ge in E. unfold b64_char.
    destruct (N.ltb_spec n 26); [lia |].
    destruct (N.ltb_spec n 52); [lia |].
    destruct (N.ltb_spec n 62); [lia |].
    destruct (N.eqb_spec n 62); [lia | reflexivity].
Qed.

Lemma base64_alphabet (bs : list Byte.byte) :
  sfilter (fun a => negb (b64_alphabet a)) (base64 bs) = EmptyString.
Proof.
  revert bs. fix IH 1. intros [|a [|b [|c rest]]]; cbn [base64 sfilter];
    rewrite ?b64_char_alphabet; cbn [negb]; try reflexivity.
  apply IH.
Qed.

Lemma sfilter_weaken (f g : ascii -> bool) (s : string) :
  (forall a, f a = true -> g a = true) ->
  sfilter g s = EmptyString -> sfilter f s = EmptyString.
Proof.
  intros Hfg. induction s as [|a s IH]; [reflexivity |].
  cbn [sfilter]. destruct (g a) eqn:Hg; [discriminate |].
  destruct (f a) eqn:Hf; [| exact IH].
  rewrite (Hfg a Hf) in Hg. discriminate.
Qed.

Lemma includes_sfilter (c : ascii) (s : string) :
  sfilter (Ascii.eqb c) s = EmptyString -> includes c s = false.
Proof.
  induction s as [|a s IH]; [reflexivity |].
  cbn [sfilter includes]. rewrite (Ascii.eqb_sym a c).
  destruct (Ascii.eqb c a); [discriminate | exact IH].
Qed.

Lemma special_not_b64 (a : ascii) :
  special a = true -> negb (b64_alphabet a) = true.
Proof. each_ascii a; cbn; intros H; try reflexivity; discriminate H. Qed.

Lemma base64_special (bs : list Byte.byte) :
  sfilter special (base64 bs) = EmptyString.
Proof.
  apply (sfilter_weaken _ _ _ special_not_b64), base64_alphabet.
Qed.

Lemma special_free_markup (s : string) :
  sfilter special s = EmptyString -> markup s = EmptyString.
Proof.
  apply sfilter_weaken. intros a H. unfold special. now rewrite H.
Qed.

Lemma special_free_includes (c : ascii) (s : string) :
  special c = true -> sfilter special s = EmptyString -> includes c s = false.
Proof.
  intros Hc H. apply includes_sfilter.
  revert H. apply sfilter_weaken. intros a Ha.
  apply Ascii.eqb_eq in Ha. now subst a.
Qed.

(** *** Trimming *)

Lemma plain_not_ws2 (a b : ascii) : plain a = true -> ws2 a b = false.
Proof.
  unfold plain, ws2. intros H. apply andb_true_iff in H as [_ H].
  apply Nat.ltb_lt in H.
  destruct (Nat.eqb_spec (nat_of_ascii a) 194); [lia | reflexivity].
Qed.

Lemma plain_not_ws3 (a b c : ascii) : plain a = true -> ws3 a b c = false.
Proof.
  unfold plain, ws3. intros H. apply andb_true_iff in H as [_ H].
  apply Nat.ltb_lt in H. cbv zeta.
  destruct (Nat.eqb_spec (nat_of_ascii a) 225); [lia |].
  destruct (Nat.eqb_spec (nat_of_ascii a) 226); [lia |].
  destruct (Nat.eqb_spec (nat_of_ascii a) 227); [lia |].
  destruct (Nat.eqb_spec (nat_of_ascii a) 239); [lia |].
  reflexivity.
Qed.

Lemma trimStart_plain (a : ascii) (r : string) :
  plain a = true -> trimStart (String a r) = String a r.
Proof.
  intros H. cbn [trimStart].
  assert (Hw : ascii_ws a = false).
  { unfold plain in H. apply andb_true_iff in H as [H _].
    now apply negb_true_iff in H. }
  rewrite Hw. destruct r as [|b [|c r]]; try reflexivity.
  - now rewrite (plain_not_ws2 a b H).
  - now rewrite (plain_not_ws2 a b H), (plain_not_ws3 a b c H).
Qed.

Lemma ws2_not_plain (a b : ascii) :
  ws2 a b = true -> plain a = false /\ plain b = false.
Proof.
  unfold ws2, plain. intros H. apply andb_true_iff in H as [Ha Hb].
  apply Nat.eqb_eq in Ha, Hb. rewrite Ha, Hb.
  split; apply andb_false_r.
Qed.

Lemma ws3_high (a b c : ascii) :
  ws3 a b c = true ->
  128 <= nat_of_ascii a /\ 128 <= nat_of_ascii b /\ 128 <= nat_of_ascii c.
Proof.
  unfold ws3. cbv zeta. intros H.
  repeat match type of H with
         | (_ || _) = true => apply orb_true_iff in H as [H | H]
         end;
    repeat match goal with
           | H : (_ && _) = true |- _ => apply andb_true_iff in H as [? ?]
           | H : (_ || _) = true |- _ => apply orb_true_iff in H as [H | H]
           | H : Nat.eqb _ _ = true |- _ => apply Nat.eqb_eq in H
           | H : Nat.leb _ _ = true |- _ => apply Nat.leb_le in H
           end; lia.
Qed.

Lemma high_not_plain (a : ascii) : 128 <= nat_of_ascii a -> plain a = false.
Proof.
  intros H. unfold plain. apply andb_false_iff. right.
  apply Nat.ltb_ge. exact H.
Qed.

Lemma ws_not_plain (a : ascii) : ascii_ws a = true -> plain a = false.
Proof. intros H. unfold plain. now rewrite H. Qed.

(** White space only is trimmed: a plain character survives [trimStart]. *)
Lemma trimStart_has_plain (n : nat) (s : string) :
  String.length s <= n -> has_plain s = true ->
  is_empty (trimStart s) = false.
Proof.
  revert s. induction n as [|n IH]; intros s Hn Hp.
  - destruct s; [discriminate | cbn in Hn; lia].
  - destruct s as [|a r1]; [discriminate |].
    cbn [trimStart]. cbn [has_plain] in Hp. cbn [String.length] in Hn.
    destruct (ascii_ws a) eqn:Ha.
    + rewrite (ws_not_plain a Ha) in Hp. apply IH; [lia | exact Hp].
    + destruct r1 as [|b r2]; [reflexivity |].
      cbn [has_plain] in Hp. cbn [String.length] in Hn.
      destruct (ws2 a b) eqn:Hab.
      * destruct (ws2_not_plain a b Hab) as [Pa Pb]. rewrite Pa, Pb in Hp.
        apply IH; [lia | exact Hp].
      * destruct r2 as [|c r3]; [reflexivity |].
        cbn [has_plain] in Hp. cbn [String.length] in Hn.
        destruct (ws3 a b c) eqn:Habc; [| reflexivity].
        destruct (ws3_high a b c Habc) as (Ha' & Hb' & Hc').
        rewrite (high_not_plain a Ha'), (high_not_plain b Hb'),
          (high_not_plain c Hc') in Hp.
        apply IH; [lia | exact Hp].
Qed.

Lemma has_plain_app_r (a b : string) :
  has_plain b = true -> has_plain (a ++ b) = true.
Proof.
  intros H. induction a as [|x a IH]; [exact H |].
  cbn. rewrite IH. apply orb_true_r.
Qed.

Lemma trimEnd_blank (w : string) :
  is_empty (trimStart w) = true -> trimEnd w = EmptyString.
Proof. destruct w as [|a w]; [reflexivity |]. cbn [trimEnd]. now intros ->. Qed.

(** [trimEnd] drops a blank end after a plain character, and nothing else. *)
Lemma trimEnd_plain_end (y : string) (a : ascii) (w : string) :
  plain a = true -> is_empty (trimStart w) = true ->
  trimEnd (y ++ String a w) = y ++ String a EmptyString.
Proof.
  intros Ha Hw. induction y as [|x y IH].
  - cbn [append trimEnd]. rewrite (trimStart_plain a w Ha). cbn [is_empty].
    now rewrite (trimEnd_blank w Hw).
  - change (String x y ++ String a w) with (String x (y ++ String a w)).
    cbn [trimEnd].
    rewrite (trimStart_has_plain _ (String x (y ++ String a w)) (le_n _)).
    + now rewrite IH.
    + change (String x (y ++ String a w)) with (String x y ++ String a w).
      apply has_plain_app_r. cbn [has_plain]. now rewrite Ha.
Qed.

(** ** The page is the template filled with escaped texts *)

Lemma bind_Ok {A B : Type} (m : result A) (k : A -> result B) (b : B) :
  bind m k = Ok b -> exists a, m = Ok a /\ k a = Ok b.
Proof. destruct m as [a|]; [| discriminate]. intros H. now exists a. Qed.

Lemma Ok_inj {A : Type} (a b : A) : Ok a = Ok b -> a = b.
Proof. congruence. Qed.

Lemma get_opt_of_get (k : string) (o v : value) :
  get k o = Ok v -> v = get_opt k o.
Proof. unfold get_opt. now intros ->. Qed.

Lemma str_Ok (r : result string) (x : string) : r = Ok x -> x = str r.
Proof. now intros ->. Qed.

Lemma escapeHtml_text (v : value) (h : string) :
  escapeHtml v = Ok h -> h = escape_string (text v).
Proof.
  unfold escapeHtml, text. intros H.
  apply bind_Ok in H as (t & Ht & H). rewrite Ht. cbn [str].
  now injection H as <-.
Qed.

Lemma escapeHtml_VStr (x h : string) :
  escapeHtml (VStr x) = Ok h -> h = escape_string x.
Proof. intros H. now apply escapeHtml_text in H. Qed.

Lemma when_escape (part : string -> string) (c : value) (h : string) :
  when c (let* e := escapeHtml c in Ok (part e)) = Ok h ->
  h = opt (fun n => part (escape_string n)) (opt_text c).
Proof.
  unfold when, opt_text. destruct (truthy c); cbn [opt].
  - intros H. apply bind_Ok in H as (e & He & H).
    apply escapeHtml_text in He. subst e. now injection H as <-.
  - intros H. now injection H as <-.
Qed.

Lemma when_uri (part : string -> string) (c : value) (h : string) :
  when c (let* u := ToString c in Ok (part u)) = Ok h ->
  h = opt part (opt_uri c).
Proof.
  unfold when, opt_uri. destruct (truthy c); cbn [opt].
  - intros H. apply bind_Ok in H as (u & Hu & H). rewrite Hu. cbn [str].
    now injection H as <-.
  - intros H. now injection H as <-.
Qed.

Lemma presented_text (name : value) (p : string) :
  (if truthy name then escapeHtml name else Ok "—") = Ok p ->
  p = match opt_text name with
      | Some n => escape_string n
      | None => "—"
      end.
Proof.
  unfold opt_text. destruct (truthy name).
  - apply escapeHtml_text.
  - intros H. now injection H as <-.
Qed.

Lemma trimEnd_app_keep (y z : string) :
  has_plain z = true -> trimEnd (y ++ z) = y ++ trimEnd z.
Proof.
  intros Hz. induction y as [|x y IH]; [reflexivity |].
  change (String x y ++ z) with (String x (y ++ z)).
  cbn [trimEnd].
  rewrite (trimStart_has_plain _ (String x (y ++ z)) (le_n _)).
  - now rewrite IH.
  - change (String x (y ++ z)) with (String x y ++ z).
    now apply has_plain_app_r.
Qed.

Lemma has_plain_seg_tail : has_plain seg_tail = true.
Proof. reflexivity. Qed.

Lemma trimStart_ws (a : ascii) (r : string) :
  ascii_ws a = true -> trimStart (String a r) = trimStart r.
Proof. intros H. cbn [trimStart]. now rewrite H. Qed.

Lemma trimStart_seg_head (x : string) :
  trimStart (seg_head ++ x) = trimStart seg_head ++ x.
Proof.
  assert (E : seg_head
              = String "010"%char
                  (String "<"%char
                     (String.substring 2 (String.length seg_head) seg_head)))
    by (vm_compute; reflexivity).
  rewrite E. generalize (String.substring 2 (String.length seg_head) seg_head).
  intros h. cbn [append].
  rewrite !(trimStart_ws "010"%char) by reflexivity.
  rewrite !(trimStart_plain "<"%char) by reflexivity.
  reflexivity.
Qed.

Ltac inv_bind H :=
  let x := fresh "x" in
  let E := fresh "E" in
  apply bind_Ok in H as (x & E & H).


(** ** Measures of the filled template *)

Lemma append_cong (a a' b b' : string) :
  a = a' -> b = b' -> a ++ b = a' ++ b'.
Proof. now intros -> ->. Qed.

Lemma quiet_lt_free (x : string) : quiet x -> includes "<"%char x = false.
Proof. now apply special_free_includes. Qed.

Lemma quiet_amp_ok (x : string) : quiet x -> amp_ok x = true.
Proof.
  intros H. apply amp_ok_amp_free. now apply special_free_includes.
Qed.

Lemma quiet_markup (x : string) : quiet x -> markup x = EmptyString.
Proof. apply special_free_markup. Qed.

Lemma markup_opt_emptied (part : string -> string) (o : option string) :
  (forall x, o = Some x -> markup (part x) = markup (part EmptyString)) ->
  markup (opt part o) = markup (opt part (emptied o)).
Proof. destruct o as [x|]; cbn; intros H; [now apply H | reflexivity]. Qed.

Lemma amp_ok_opt (part : string -> string) (o : option string) :
  (forall x, o = Some x -> amp_ok (part x) = true) ->
  amp_ok (opt part o) = true.
Proof. destruct o as [x|]; cbn; intros H; [now apply H | reflexivity]. Qed.

Lemma no_partial_opt (p : string) (part : string -> string)
  (o : option string) :
  (forall x, o = Some x -> no_partial p (part x) = true) ->
  no_partial p (opt part o) = true.
Proof. destruct o as [x|]; cbn; intros H; [now apply H | reflexivity]. Qed.

Lemma count_sub_opt (p : string) (part : string -> string)
  (o : option string) (k : nat) :
  (forall x, o = Some x -> count_sub p (part x) = k) ->
  count_sub p (opt part o) = k * present o.
Proof.
  destruct o as [x|]; cbn [opt present]; intros H.
  - rewrite (H x eq_refl). lia.
  - cbn. lia.
Qed.

(** The proof steps shared by the measures: split the text at its
    concatenations and settle each part by the facts on escaped texts, on
    quiet texts, or by computation on a constant. *)
Lemma logo_box_eq (x : string) :
  logo_box x = logo_box_pre ++ x ++ image_box_post.
Proof. reflexivity. Qed.

Lemma hero_box_eq (x : string) :
  hero_box x = hero_box_pre ++ x ++ image_box_post.
Proof. reflexivity. Qed.

Lemma agent_name_div_eq (x : string) :
  agent_name_div x = agent_name_pre ++ x ++ "</div>".
Proof. reflexivity. Qed.

Lemma agent_line_div_eq (x : string) :
  agent_line_div x = agent_line_pre ++ x ++ "</div>".
Proof. reflexivity. Qed.

Lemma year_card_eq (x : string) :
  year_card x = year_card_pre ++ x ++ year_card_post.
Proof. reflexivity. Qed.

Lemma footer_item_eq (x : string) :
  footer_item x = footer_item_pre ++ x ++ "</span>".
Proof. reflexivity. Qed.

Ltac split_parts :=
  rewrite ?logo_box_eq, ?hero_box_eq, ?agent_name_div_eq, ?agent_line_div_eq,
    ?year_card_eq, ?footer_item_eq.

Ltac unfold_parts :=
  unfold logo_box, hero_box, agent_name_div, agent_line_div, year_card,
    footer_item.

Ltac tame_part :=
  lazymatch goal with
  | |- no_partial _ (escape_string _) = true =>
      apply no_partial_lt_free, lt_free_escape_string
  | |- no_partial _ (opt _ _) = true =>
      apply no_partial_opt; intros; cbn beta; split_parts; tame_part
  | |- no_partial _ (_ ++ _) = true =>
      apply no_partial_app; tame_part
  | |- no_partial _ (match ?o with Some _ => _ | None => _ end) = true =>
      destruct o; tame_part
  | H : quiet ?x |- no_partial _ ?x = true =>
      apply no_partial_lt_free, quiet_lt_free, H
  | H : quiet_opt ?o, E : ?o = Some ?x |- no_partial _ ?x = true =>
      apply no_partial_lt_free, quiet_lt_free, (H x E)
  | |- no_partial _ _ = true => vm_compute; reflexivity
  end.

Ltac count_part :=
  repeat rewrite count_sub_app by tame_part;
  repeat lazymatch goal with
    | |- context [count_sub ?p (escape_string ?t)] =>
        rewrite (count_sub_lt_free _ (escape_string t)
                   (lt_free_escape_string t))
    | H : quiet ?x |- context [count_sub (String "<"%char ?q) ?x] =>
        rewrite (count_sub_lt_free q x (quiet_lt_free x H))
    | H : quiet_opt ?o, E : ?o = Some ?x
      |- context [count_sub (String "<"%char ?q) ?x] =>
        rewrite (count_sub_lt_free q x (quiet_lt_free x (H x E)))
    end.

Ltac amp_part :=
  lazymatch goal with
  | |- amp_ok (escape_string _) = true => apply amp_ok_escape_string
  | |- amp_ok (opt _ _) = true => apply amp_ok_opt; intros; amp_part
  | |- amp_ok (_ ++ _) = true => apply amp_ok_app; amp_part
  | |- amp_ok (match ?o with Some _ => _ | None => _ end) = true =>
      destruct o; amp_part
  | H : quiet ?x |- amp_ok ?x = true => apply quiet_amp_ok, H
  | H : quiet_opt ?o, E : ?o = Some ?x |- amp_ok ?x = true =>
      apply quiet_amp_ok, (H x E)
  | |- amp_ok _ = true => vm_compute; reflexivity
  end.

Ltac markup_part :=
  lazymatch goal with
  | |- markup (opt _ _) = markup (opt _ (emptied _)) =>
      apply markup_opt_emptied; intros; markup_part
  | |- markup (match ?o with Some _ => _ | None => _ end) = _ =>
      destruct o; markup_part
  | H : quiet_opt ?o, E : ?o = Some ?x |- _ =>
      rewrite !markup_app, (quiet_markup x (H x E)); reflexivity
  | |- _ =>
      cbn beta; rewrite ?markup_app, ?markup_escape_string; reflexivity
  end.

Lemma fill_amp_ok (s : slots) :
  quiet_opt (s_logo s) -> quiet_opt (s_hero s) -> amp_ok (fill s) = true.
Proof. intros Hl Hh. unfold fill. unfold_parts. amp_part. Qed.

Lemma fill_markup (s : slots) :
  quiet_opt (s_logo s) -> quiet_opt (s_hero s) ->
  markup (fill s) = markup (fill (blank s)).
Proof.
  intros Hl Hh. unfold fill, blank. unfold_parts.
  cbn [s_title s_subtitle s_badge s_name s_phone s_email s_brokerage s_logo
       s_hero s_price s_beds s_year s_desc s_footer_name s_now].
  rewrite !markup_app.
  repeat (apply append_cong; [markup_part |]).
  reflexivity.
Qed.

(** The number of occurrences of a tag opening [p] in the filled template:
    the sum over the parts, each settled as above. *)
Ltac count_opt_parts :=
  repeat lazymatch goal with
    | |- context [count_sub ?p (opt ?part ?o)] =>
        let k := eval vm_compute in (count_sub p (part EmptyString)) in
        rewrite (count_sub_opt p part o k)
          by (intros; cbn beta; split_parts; count_part;
              vm_compute; reflexivity)
    end.

Ltac count_constants :=
  repeat lazymatch goal with
    | |- context [count_sub ?p ?x] =>
        let v := eval vm_compute in (count_sub p x) in
        replace (count_sub p x) with v by (vm_compute; reflexivity)
    end.

Lemma count_presented (q : string) (o : option string) :
  count_sub (String "<"%char q)
    match o with
    | Some n => escape_string n
    | None => "—"
    end = 0.
Proof.
  destruct o as [n|]; [| reflexivity].
  apply count_sub_lt_free, lt_free_escape_string.
Qed.

Lemma fill_count_img (s : slots) :
  quiet_opt (s_logo s) -> quiet_opt (s_hero s) ->
  count_sub "<img" (fill s) = present (s_logo s) + present (s_hero s).
Proof.
  intros Hl Hh. unfold fill.
  count_part. rewrite count_presented. count_opt_parts. count_constants.
  lia.
Qed.

Lemma fill_count_script (s : slots) :
  quiet_opt (s_logo s) -> quiet_opt (s_hero s) ->
  count_sub "<script" (fill s) = 0.
Proof.
  intros Hl Hh. unfold fill.
  count_part. rewrite count_presented. count_opt_parts. count_constants.
  lia.
Qed.

Lemma fill_count_logo (s : slots) :
  quiet_opt (s_logo s) -> quiet_opt (s_hero s) ->
  count_sub logo_open (fill s) = present (s_logo s).
Proof.
  intros Hl Hh. unfold fill, logo_open.
  count_part. rewrite count_presented. count_opt_parts. count_constants.
  lia.
Qed.

Lemma fill_count_hero (s : slots) :
  quiet_opt (s_logo s) -> quiet_opt (s_hero s) ->
  count_sub hero_open (fill s) = present (s_hero s).
Proof.
  intros Hl Hh. unfold fill, hero_open.
  count_part. rewrite count_presented. count_opt_parts. count_constants.
  lia.
Qed.
Section RendererFacts.

Variable dirname : string.
Variable path_join : string -> string -> string.
Variable path_extname : string -> string.
Variable disk : string -> entry.
Variable now : string.

Local Abbreviation image := (imageUrlToDataUri dirname path_join path_extname disk).
Local Abbreviation build := (buildPdfHtml dirname path_join path_extname disk now).
Local Abbreviation slots_of_listing :=
  (slots_of dirname path_join path_extname disk now).

Lemma buildPdfHtml_fill (listing : value) (doc : string) :
  build listing = Ok doc -> doc = fill (slots_of_listing listing).
Proof.
  unfold buildPdfHtml. intros H.
  repeat inv_bind H.
  repeat match goal with
         | E : get _ _ = Ok _ |- _ => apply get_opt_of_get in E
         end.
  subst.
  repeat match goal with
         | E : fmtCurrency _ = Ok _ |- _ => apply str_Ok in E
         | E : fmtNumber _ = Ok _ |- _ => apply str_Ok in E
         | E : join _ _ = Ok _ |- _ => apply str_Ok in E
         | E : escapeHtml (VStr _) = Ok _ |- _ => apply escapeHtml_VStr in E
         | E : when _ (let* e := escapeHtml _ in Ok (_ e)) = Ok _ |- _ =>
             apply when_escape in E
         | E : when _ (let* u := ToString _ in Ok (_ u)) = Ok _ |- _ =>
             apply when_uri in E
         | E : (if truthy _ then escapeHtml _ else Ok _) = Ok _ |- _ =>
             apply presented_text in E
         | E : (if truthy _ then let* b := escapeHtml _ in Ok (_ ++ b)
                else Ok _) = Ok _ |- _ =>
             apply (when_escape (fun e => " • " ++ e)) in E
         | E : escapeHtml _ = Ok _ |- _ => apply escapeHtml_text in E
         end.
  subst. apply Ok_inj in H. subst doc.
  unfold trim. rewrite trimStart_seg_head.
  repeat rewrite trimEnd_app_keep
    by (repeat first [exact has_plain_seg_tail | apply has_plain_app_r]).
  reflexivity.
Qed.


(** *** What [imageUrlToDataUri] yields *)

Lemma startsWith_uploads_truthy (v : value) (s : string) :
  ToString v = Ok s -> startsWith "/uploads/" s = true -> truthy v = true.
Proof.
  intros Hs Hp.
  destruct v as [| |[]|n|t|xs|fields]; try reflexivity;
    try (apply Ok_inj in Hs; subst s; discriminate Hp).
  - cbn in Hs. apply Ok_inj in Hs. subst s.
    cbn. destruct (Z.eqb_spec n 0) as [->|]; [discriminate Hp | reflexivity].
  - cbn in Hs. apply Ok_inj in Hs. subst s.
    destruct t; [discriminate Hp | reflexivity].
Qed.

Lemma imageUrlToDataUri_rule (ref : value) :
  image ref = inline_image dirname path_join path_extname disk ref.
Proof.
  unfold imageUrlToDataUri, imageUrlToDataUri_try, inline_image.
  destruct (ToString ref) as [s|] eqn:Hs.
  - destruct (startsWith "/uploads/" s) eqn:Hp.
    + rewrite (startsWith_uploads_truthy ref s Hs Hp). cbn.
      rewrite Hp. cbn.
      now destruct (disk (path_join dirname s)).
    + destruct (truthy ref); cbn; [now rewrite Hp | reflexivity].
  - now destruct (truthy ref).
Qed.

Lemma quiet_data_uri (ext : string) (bytes : list Byte.byte) :
  quiet ("data:" ++ mime_of ext ++ ";base64," ++ base64 bytes).
Proof.
  unfold quiet. rewrite !sfilter_app, base64_special.
  unfold mime_of.
  destruct (String.eqb ext ".png"); [reflexivity |].
  destruct (String.eqb ext ".webp"); reflexivity.
Qed.

Lemma image_cases (ref : value) :
  image ref = VNull
  \/ exists ext bytes,
      image ref = VStr ("data:" ++ mime_of ext ++ ";base64," ++ base64 bytes).
Proof.
  rewrite imageUrlToDataUri_rule. unfold inline_image.
  destruct (ToString ref) as [s|]; [| now left].
  destruct (startsWith "/uploads/" s); [| now left].
  destruct (disk (path_join dirname s)) as [| |bytes]; try now left.
  right. now eexists _, bytes.
Qed.

Lemma quiet_opt_image (ref : value) : quiet_opt (opt_uri (image ref)).
Proof.
  intros u. destruct (image_cases ref) as [-> | (ext & bytes & ->)];
    [discriminate |].
  cbn. intros H. injection H as <-. apply quiet_data_uri.
Qed.

Lemma present_opt_image (ref : value) :
  present (opt_uri (image ref)) = inlined (image ref).
Proof.
  destruct (image_cases ref) as [-> | (ext & bytes & ->)]; reflexivity.
Qed.

Lemma quiet_slots (listing : value) :
  quiet_opt (s_logo (slots_of_listing listing))
  /\ quiet_opt (s_hero (slots_of_listing listing)).
Proof. split; apply quiet_opt_image. Qed.

Lemma buildPdfHtml_markup (listing : value) (doc : string) :
  build listing = Ok doc ->
  markup doc = markup (fill (blank (slots_of_listing listing))).
Proof.
  intros H. apply buildPdfHtml_fill in H. subst doc.
  destruct (quiet_slots listing) as [Hl Hh]. now apply fill_markup.
Qed.

(** C1.  Whenever [buildPdfHtml] returns a document, the document is the
    template filled with the escaped form of the texts taken from the
    listing, the agent and the clock.  Hence its markup characters (angle
    brackets and quotes) are exactly those of the bare frame with the same
    parts present, every ampersand in it starts one of the five entity
    references, and no [<script] occurs in it, whatever the title holds. *)
Theorem buildPdfHtml_escapes (listing : value) (doc : string) :
  build listing = Ok doc ->
  doc = fill (slots_of_listing listing)
  /\ markup doc = markup (fill (blank (slots_of_listing listing)))
  /\ amp_ok doc = true
  /\ count_sub "<script" doc = 0.
Proof.
  intros H. apply buildPdfHtml_fill in H. subst doc.
  destruct (quiet_slots listing) as [Hl Hh].
  split; [reflexivity |]. split; [now apply fill_markup |].
  split; [now apply fill_amp_ok | now apply fill_count_script].
Qed.

(** X20.  Two listings that show the same optional parts give documents
    with the same markup characters: no text of a listing adds or removes
    one. *)
Corollary buildPdfHtml_markup_independent (l1 l2 : value) (d1 d2 : string) :
  build l1 = Ok d1 -> build l2 = Ok d2 ->
  blank (slots_of_listing l1) = blank (slots_of_listing l2) ->
  markup d1 = markup d2.
Proof.
  intros H1 H2 E.
  apply buildPdfHtml_markup in H1. apply buildPdfHtml_markup in H2.
  rewrite H1, H2. exact (f_equal (fun b => markup (fill b)) E).
Qed.

(** C8.  [imageUrlToDataUri] follows the inlining rule: a reference whose
    text starts with [/uploads/] and names a readable file gives the base64
    data URI of the file, with the MIME type of its extension ([.png],
    [.webp], anything else JPEG); every other reference gives [null].  A
    document [buildPdfHtml] returns holds one [img] element for each
    reference inlined and none for the others. *)
Theorem imageUrlToDataUri_inlines :
  (forall ref : value,
      image ref = inline_image dirname path_join path_extname disk ref)
  /\ mime_of ".png" = "image/png"
  /\ mime_of ".webp" = "image/webp"
  /\ (forall ext : string,
        ext <> ".png" -> ext <> ".webp" -> mime_of ext = "image/jpeg")
  /\ (forall (listing : value) (doc : string),
        build listing = Ok doc ->
        let agent := js_or (get_opt "agent" listing) (VObj []) in
        let logo := image (get_opt "logoUrl" agent) in
        let photo := image (get_opt "imageUrl" listing) in
        count_sub "<img" doc = inlined logo + inlined photo
        /\ count_sub logo_open doc = inlined logo
        /\ count_sub hero_open doc = inlined photo).
Proof.
  split; [exact imageUrlToDataUri_rule |].
  split; [reflexivity |]. split; [reflexivity |]. split.
  - intros ext H1 H2. unfold mime_of.
    destruct (String.eqb_spec ext ".png"); [contradiction |].
    destruct (String.eqb_spec ext ".webp"); [contradiction | reflexivity].
  - intros listing doc H agent logo photo.
    apply buildPdfHtml_fill in H. subst doc.
    destruct (quiet_slots listing) as [Hl Hh].
    rewrite (fill_count_img _ Hl Hh), (fill_count_logo _ Hl Hh),
      (fill_count_hero _ Hl Hh).
    cbn [slots_of s_logo s_hero]. now rewrite !present_opt_image.
Qed.

End RendererFacts.

(** ** The listing store *)

(** *** The file system calls *)

Lemma ensureDataFile_run (JSON_stringify : value -> string)
  (mkdir_ok write_ok : bool) (st : store) :
  ensureDataFile JSON_stringify mkdir_ok write_ok st
  = if can_ensure mkdir_ok write_ok st
    then (Ok tt, ensured JSON_stringify st)
    else (Throw, unensured mkdir_ok st).
Proof.
  unfold ensureDataFile, can_ensure, ensured, unensured, dir_exists, written.
  destruct st as [[] [| |raw]], mkdir_ok, write_ok; reflexivity.
Qed.

Lemma can_ensure_ensured (JSON_stringify : value -> string)
  (mkdir_ok write_ok : bool) (st : store) :
  can_ensure mkdir_ok write_ok (ensured JSON_stringify st) = true.
Proof. unfold can_ensure, ensured. now destruct st as [d [| |raw]]. Qed.

Lemma ensured_idem (JSON_stringify : value -> string) (st : store) :
  ensured JSON_stringify (ensured JSON_stringify st)
  = ensured JSON_stringify st.
Proof. unfold ensured. now destruct st as [d [| |raw]]. Qed.

Lemma serviceable_parts (mkdir_ok write_ok : bool) (st : store) :
  serviceable mkdir_ok write_ok st = true ->
  write_ok = true
  /\ can_ensure mkdir_ok write_ok st = true
  /\ listings_file st <> Locked.
Proof.
  unfold serviceable, can_ensure.
  destruct write_ok; [| discriminate].
  destruct st as [d [| |raw]]; cbn; intros H; repeat split;
    try discriminate; try assumption; try reflexivity.
  now rewrite H.
Qed.

Lemma serviceable_written (JSON_stringify : value -> string)
  (mkdir_ok : bool) (d : bool) (xs : list value) :
  serviceable mkdir_ok true (mkStore d (written JSON_stringify xs)) = true.
Proof. reflexivity. Qed.

Section StoreFacts.

Variable JSON_parse : string -> result value.
Variable JSON_stringify : value -> string.
Variable mkdir_ok : bool.
Variable write_ok : bool.

Local Abbreviation readListings' :=
  (readListings JSON_parse JSON_stringify mkdir_ok write_ok).
Local Abbreviation writeListings' :=
  (writeListings JSON_stringify mkdir_ok write_ok).
Local Abbreviation stored' := (stored JSON_parse).
Local Abbreviation written' := (written JSON_stringify).
Local Abbreviation ensured' := (ensured JSON_stringify).
Local Abbreviation unensured' := (unensured mkdir_ok).
Local Abbreviation can_ensure' := (can_ensure mkdir_ok write_ok).
Local Abbreviation serviceable' := (serviceable mkdir_ok write_ok).
Local Abbreviation save :=
  (save_listing JSON_parse JSON_stringify mkdir_ok write_ok).
Local Abbreviation delete :=
  (delete_listing JSON_parse JSON_stringify mkdir_ok write_ok).
Local Abbreviation get_one :=
  (get_listing JSON_parse JSON_stringify mkdir_ok write_ok).
Local Abbreviation get_all :=
  (get_listings JSON_parse JSON_stringify mkdir_ok write_ok).

(** [readListings] answers the stored sequence when [ensureDataFile]
    returns, and throws when it throws. *)
Lemma readListings_run (st : store) :
  readListings' st
  = if can_ensure' st
    then (Ok (stored' (listings_file (ensured' st))), ensured' st)
    else (Throw, unensured' st).
Proof.
  unfold readListings, seq. rewrite ensureDataFile_run.
  destruct (can_ensure' st); [| reflexivity].
  unfold try_catch, seq, read_file, lift, ret, stored.
  destruct (listings_file (ensured' st)) as [| |raw]; try reflexivity.
  destruct (JSON_parse raw) as [v|]; [| reflexivity].
  now destruct v.
Qed.

Lemma readListings_ensures (st : store) (xs : list value) :
  fst (readListings' st) = Ok xs -> can_ensure' st = true.
Proof.
  rewrite readListings_run. now destruct (can_ensure' st).
Qed.

Lemma readListings_value (st : store) (xs : list value) :
  fst (readListings' st) = Ok xs ->
  xs = stored' (listings_file (ensured' st)).
Proof.
  rewrite readListings_run. destruct (can_ensure' st); cbn; congruence.
Qed.

Lemma readListings_ensured (st : store) :
  can_ensure' st = true ->
  readListings' st
  = (Ok (stored' (listings_file (ensured' st))), ensured' st).
Proof. intros H. now rewrite readListings_run, H. Qed.

Lemma writeListings_run (xs : list value) (st : store) :
  serviceable' st = true ->
  writeListings' xs st = (Ok tt, mkStore true (written' xs)).
Proof.
  intros H. apply serviceable_parts in H as (W & E & L).
  unfold writeListings, seq. rewrite ensureDataFile_run, E.
  unfold write_file, ensured. rewrite W.
  destruct st as [d [| |raw]]; cbn in *; try reflexivity.
  now destruct L.
Qed.

(** A write on a store that was read: the file is there, so only the write
    itself can fail. *)
Lemma writeListings_ensured (xs : list value) (st : store) :
  writeListings' xs (ensured' st)
  = match listings_file (ensured' st) with
    | Locked => (Throw, ensured' st)
    | _ =>
        if write_ok
        then (Ok tt, mkStore true (written' xs))
        else (Throw, ensured' st)
    end.
Proof.
  unfold writeListings, seq.
  rewrite ensureDataFile_run, can_ensure_ensured, ensured_idem.
  unfold write_file, ensured. now destruct st as [d [| |raw]].
Qed.

Lemma serviceable_ensured (st : store) :
  serviceable' st = true -> serviceable' (ensured' st) = true.
Proof.
  unfold serviceable, ensured, written.
  destruct write_ok; [| discriminate].
  now destruct st as [d [| |raw]].
Qed.

Lemma truthy_falsy (v : value) : truthy v = false <-> falsy v.
Proof.
  split.
  - destruct v as [| |[]|n|s|xs|fields]; cbn; try discriminate;
      try (intros _; constructor).
    + destruct (Z.eqb_spec n 0) as [->|]; [constructor | discriminate].
    + destruct s; [constructor | discriminate].
  - now intros [].
Qed.


Lemma save_invalid (body : value) (st : store) :
  truthy (get_opt "id" body) = false ->
  save body st
  = (Ok (Json 400 (failure "Listing with id is required.")), st).
Proof. intros T. unfold save_listing, try_catch. now rewrite T. Qed.

Lemma save_run (body : value) (st : store) :
  truthy (get_opt "id" body) = true ->
  serviceable' st = true ->
  save body st
  = (Ok (Json 200 ok_true),
     mkStore true
       (written' (body :: stored' (listings_file (ensured' st))))).
Proof.
  intros T H. unfold save_listing, try_catch. rewrite T. cbn [negb].
  unfold seq.
  rewrite (readListings_ensured st (proj1 (proj2 (serviceable_parts _ _ _ H)))).
  rewrite (writeListings_run _ _ (serviceable_ensured st H)).
  reflexivity.
Qed.

(** A body that passes the validation is answered 200 or 500. *)
Lemma save_answers (body : value) (st : store) :
  truthy (get_opt "id" body) = true ->
  fst (save body st) = Ok (Json 200 ok_true)
  \/ fst (save body st) = Ok (Json 500 (failure "Failed to save listing.")).
Proof.
  intros T. unfold save_listing, try_catch. rewrite T. cbn [negb].
  unfold seq. rewrite readListings_run.
  destruct (can_ensure' st); [| now right].
  rewrite writeListings_ensured.
  destruct (listings_file (ensured' st)); [| now right |];
    (destruct write_ok; [now left | now right]).
Qed.

Lemma find_by_id_head (id : string) (r : value) (xs : list value) :
  get_opt "id" r = VStr id -> find_by_id id (r :: xs) = Ok r.
Proof.
  intros H. cbn [find_by_id]. unfold get_opt in H.
  destruct (get "id" r) as [v|]; [| discriminate]. subst v.
  cbn. now rewrite String.eqb_refl.
Qed.

Lemma filter_not_id_run (id : string) (xs : list value) :
  Forall (fun x => nullish x = false) xs ->
  filter_not_id id xs = Ok (filter (other_id id) xs).
Proof.
  induction 1 as [|x xs Hx _ IH]; [reflexivity |].
  cbn [filter_not_id filter]. rewrite IH. unfold other_id, get_opt.
  destruct x; try discriminate; cbn;
    try reflexivity.
  now destruct (lookup "id" fields).
Qed.


Lemma delete_run (id : string) (st : store) :
  serviceable' st = true ->
  Forall (fun x => nullish x = false) (stored' (listings_file (ensured' st))) ->
  delete id st
  = (Ok (Json 200 ok_true),
     mkStore true
       (written'
          (filter (other_id id) (stored' (listings_file (ensured' st)))))).
Proof.
  intros S H. unfold delete_listing, try_catch, seq.
  rewrite (readListings_ensured st (proj1 (proj2 (serviceable_parts _ _ _ S)))).
  unfold lift.
  rewrite (filter_not_id_run id _ H).
  rewrite (writeListings_run _ _ (serviceable_ensured st S)). reflexivity.
Qed.

Lemma filter_all {A : Type} (f : A -> bool) (l : list A) :
  Forall (fun x => f x = true) l -> filter f l = l.
Proof.
  induction 1 as [|x l Hx _ IH]; [reflexivity |].
  cbn. now rewrite Hx, IH.
Qed.


Lemma ensured_written (d : bool) (xs : list value) :
  listings_file (ensured' (mkStore d (written' xs))) = written' xs.
Proof. reflexivity. Qed.

Lemma stored_written (xs : list value) :
  JSON_parse (JSON_stringify (VArr xs)) = Ok (VArr xs) ->
  stored' (written' xs) = xs.
Proof. unfold stored, written. now intros ->. Qed.

Lemma can_ensure_written (d : bool) (xs : list value) :
  can_ensure' (mkStore d (written' xs)) = true.
Proof. reflexivity. Qed.

Lemma get_one_run (id : string) (st : store) :
  get_one id st
  = if can_ensure' st
    then
      (match find_by_id id (stored' (listings_file (ensured' st))) with
       | Ok listing =>
           Ok (if truthy listing
               then Json 200 (VObj [("ok", VBool true); ("listing", listing)])
               else Json 404 (failure "Listing not found."))
       | Throw => Ok (Json 500 (failure "Failed to load listing."))
       end, ensured' st)
    else (Ok (Json 500 (failure "Failed to load listing.")), unensured' st).
Proof.
  unfold get_listing, try_catch, seq. rewrite readListings_run.
  destruct (can_ensure' st); [| reflexivity]. unfold lift.
  destruct (find_by_id id (stored' (listings_file (ensured' st))))
    as [listing|]; [| reflexivity].
  now destruct (truthy listing).
Qed.

(** The save route only admits objects, and the delete route keeps what
    it is given: the records of the store are objects, none is [null]. *)
Lemma truthy_id_object (body : value) :
  truthy (get_opt "id" body) = true -> exists fields, body = VObj fields.
Proof. destruct body; try discriminate. now eexists. Qed.

Lemma admitted_body_is_object (body : value) :
  ~ falsy (get_opt "id" body) -> isObject body = true.
Proof.
  intros H. destruct (truthy (get_opt "id" body)) eqn:T.
  - now destruct (truthy_id_object body T) as (fields & ->).
  - now apply truthy_falsy in T.
Qed.

Lemma records_not_null (xs : list value) :
  Forall (fun x => isObject x = true) xs ->
  Forall (fun x => nullish x = false) xs.
Proof. apply Forall_impl. now intros []. Qed.


(** C4, as the code has it.  [readListings] calls [ensureDataFile] before
    its [try]: when the backing file is missing and cannot be created it
    throws, and with it [GET /api/listings], whose handler catches nothing,
    while [GET /api/listings/:id] answers 500.  In every other state it
    returns: the empty sequence on a file just created, on a file that
    cannot be read and on a text that does not parse, and the elements of
    the array, in order, on a text that parses to one. *)
Theorem readListings_throws_uncreatable (st : store) :
  (can_ensure' st = false ->
   listings_file st = Missing
   /\ fst (readListings' st) = Throw
   /\ fst (get_all st) = Throw
   /\ (forall id,
         fst (get_one id st) = Ok (Json 500 (failure "Failed to load listing."))))
  /\ (can_ensure' st = true ->
      JSON_parse (JSON_stringify (VArr [])) = Ok (VArr []) ->
      exists xs st',
        readListings' st = (Ok xs, st')
        /\ match listings_file st with
           | Missing | Locked => xs = []
           | Content raw =>
               match JSON_parse raw with
               | Throw => xs = []
               | Ok (VArr records) => xs = records
               | Ok _ => xs = []
               end
           end).
Proof.
  split.
  - intros E. split.
    { unfold can_ensure in E. now destruct (listings_file st). }
    split; [now rewrite readListings_run, E |].
    split; [unfold get_listings, seq; now rewrite readListings_run, E |].
    intros id. now rewrite get_one_run, E.
  - intros E Hempty. eexists _, _.
    split; [apply (readListings_ensured st E) |].
    destruct st as [d [| |raw]]; cbn.
    + now rewrite Hempty.
    + reflexivity.
    + destruct (JSON_parse raw) as [[]|]; reflexivity.
Qed.

(** C10.  [readListings] answers a list whenever it returns, and so does
    [GET /api/listings]; it returns on every file that exists, and when the
    text of the file is JSON for something other than an array, the list is
    empty. *)
Theorem readListings_not_array (st : store) :
  (can_ensure' st = true ->
   exists xs,
     fst (readListings' st) = Ok xs
     /\ fst (get_all st)
        = Ok (Json 200 (VObj [("ok", VBool true); ("listings", VArr xs)])))
  /\ (forall raw v,
        listings_file st = Content raw ->
        JSON_parse raw = Ok v ->
        isArray v = false ->
        fst (readListings' st) = Ok []
        /\ fst (get_all st)
           = Ok (Json 200 (VObj [("ok", VBool true); ("listings", VArr [])]))).
Proof.
  unfold get_listings, seq. rewrite readListings_run.
  split.
  - intros E. rewrite E. cbn [fst]. now eexists.
  - intros raw v Hf Hp Hv.
    assert (E : can_ensure' st = true)
      by (unfold can_ensure; now rewrite Hf).
    rewrite E. cbn [fst].
    assert (S : stored' (listings_file (ensured' st)) = []).
    { destruct st as [d f]. cbn in Hf. subst f. cbn. rewrite Hp.
      now destruct v. }
    now rewrite S.
Qed.

(** C2, as the code has it.  Saving answers 400 exactly when the [id] of the
    body is one of the values JavaScript takes for false ([undefined], that
    is absent, [null], [false], [0] or the empty text), and then the store is
    left as it was; a body with any other [id], in particular a text that is
    not empty, passes the validation: it is answered 200 when the file
    system serves the store, and 500 when a read or write is refused. *)
Theorem save_validates (body : value) (st : store) :
  ((exists b, fst (save body st) = Ok (Json 400 b))
   <-> falsy (get_opt "id" body))
  /\ (falsy (get_opt "id" body) -> snd (save body st) = st)
  /\ (~ falsy (get_opt "id" body) ->
      (fst (save body st) = Ok (Json 200 ok_true)
       \/ fst (save body st)
          = Ok (Json 500 (failure "Failed to save listing.")))
      /\ (serviceable' st = true ->
          fst (save body st) = Ok (Json 200 ok_true)))
  /\ (forall s, get_opt "id" body = VStr s -> s <> EmptyString ->
      (forall b, fst (save body st) <> Ok (Json 400 b))
      /\ (serviceable' st = true ->
          fst (save body st) = Ok (Json 200 ok_true))).
Proof.
  rewrite <- truthy_falsy.
  destruct (truthy (get_opt "id" body)) eqn:E.
  - pose proof (save_answers body st E) as A.
    assert (N : forall b, fst (save body st) <> Ok (Json 400 b)).
    { intros b Hb. destruct A as [A | A]; rewrite A in Hb; discriminate Hb. }
    assert (S : serviceable' st = true ->
                fst (save body st) = Ok (Json 200 ok_true)).
    { intros H. now rewrite (save_run body st E H). }
    split; [| split; [| split]].
    + split; [| discriminate]. intros (b & Hb). now destruct (N b).
    + discriminate.
    + intros _. split; [exact A | exact S].
    + intros s _ _. split; [exact N | exact S].
  - rewrite (save_invalid body st E). cbn [fst snd].
    split; [| split; [| split]].
    + split; [reflexivity | intros _; now eexists].
    + reflexivity.
    + intros H. now destruct H.
    + intros s Hs Hne. rewrite Hs in E. destruct s; [easy | discriminate].
Qed.

(** C3, as the code has it.  On a store that the file system serves, a
    record whose [id] is a text that is not empty, once saved, is what
    [GET /api/listings/:id] answers for that [id], field for field,
    whatever the store held, provided the sequence written reads back as
    written. *)
Theorem save_then_get (r : value) (id : string) (st : store)
  (xs : list value) :
  get_opt "id" r = VStr id ->
  id <> EmptyString ->
  serviceable' st = true ->
  fst (readListings' st) = Ok xs ->
  JSON_parse (JSON_stringify (VArr (r :: xs))) = Ok (VArr (r :: xs)) ->
  fst (save r st) = Ok (Json 200 ok_true)
  /\ fst (get_one id (snd (save r st)))
     = Ok (Json 200 (VObj [("ok", VBool true); ("listing", r)])).
Proof.
  intros Hid Hne Hs Hxs Hrt. apply readListings_value in Hxs. subst xs.
  assert (T : truthy (get_opt "id" r) = true).
  { rewrite Hid. destruct id; [easy | reflexivity]. }
  rewrite (save_run r st T Hs). cbn [fst snd]. split; [reflexivity |].
  rewrite get_one_run, can_ensure_written.
  rewrite ensured_written, (stored_written _ Hrt).
  rewrite (find_by_id_head id r _ Hid). cbn [fst].
  assert (Tr : truthy r = true).
  { destruct r; try discriminate Hid; reflexivity. }
  now rewrite Tr.
Qed.

(** C5, as the code has it.  On a store that the file system serves and
    whose records are not [null], deleting by [id] answers 200 and leaves in
    the store the records read before whose [id] is not [id], in their
    order: every record with that [id] is gone, every other is kept, and
    when none matched the sequence is the one read before.  The sequence
    written is taken to read back as written. *)
Theorem delete_removes_all (id : string) (st : store) (xs : list value) :
  serviceable' st = true ->
  fst (readListings' st) = Ok xs ->
  Forall (fun x => nullish x = false) xs ->
  JSON_parse (JSON_stringify (VArr (filter (other_id id) xs)))
  = Ok (VArr (filter (other_id id) xs)) ->
  fst (delete id st) = Ok (Json 200 ok_true)
  /\ fst (readListings' (snd (delete id st))) = Ok (filter (other_id id) xs)
  /\ Forall (fun x => strict_eq_string (get_opt "id" x) id = false)
       (filter (other_id id) xs)
  /\ (forall x, In x xs -> strict_eq_string (get_opt "id" x) id = false ->
      In x (filter (other_id id) xs))
  /\ (Forall (fun x => strict_eq_string (get_opt "id" x) id = false) xs ->
      filter (other_id id) xs = xs).
Proof.
  intros Hs Hxs Hnn Hrt. apply readListings_value in Hxs. subst xs.
  rewrite (delete_run id st Hs Hnn). cbn [fst snd].
  split; [reflexivity |]. split.
  { rewrite readListings_run, can_ensure_written. cbn [fst].
    now rewrite ensured_written, (stored_written _ Hrt). }
  split.
  { apply Forall_forall. intros x Hx. apply filter_In in Hx as [_ Hx].
    unfold other_id in Hx. now apply negb_true_iff in Hx. }
  split.
  { intros x Hx Hne. apply filter_In. split; [exact Hx |].
    unfold other_id. now rewrite Hne. }
  intros Hall. apply filter_all.
  eapply Forall_impl; [| exact Hall].
  intros x Hx. unfold other_id. now rewrite Hx.
Qed.

End StoreFacts.

(** ** Number formatting *)

Lemma has_digit_strip (t : string) :
  has_digit (strip_non_numeric t) = has_digit t.
Proof.
  induction t as [|a t IH]; [reflexivity |].
  cbn [strip_non_numeric has_digit].
  destruct (is_digit a) eqn:Ha; cbn [orb has_digit].
  - now rewrite Ha.
  - destruct (is_dot a); cbn [has_digit]; rewrite ?Ha; exact IH.
Qed.

Lemma has_digit_not_empty (t : string) :
  has_digit t = true -> is_empty t = false.
Proof. now destruct t. Qed.

Lemma has_digit_app (a b : string) :
  has_digit (a ++ b) = has_digit a || has_digit b.
Proof.
  induction a as [|x a IH]; [reflexivity |].
  cbn. now rewrite IH, orb_assoc.
Qed.

Lemma includes_count (c : ascii) (s : string) :
  includes c s = Nat.leb 1 (count_char c s).
Proof.
  induction s as [|a s IH]; [reflexivity |].
  cbn [includes count_char]. destruct (Ascii.eqb a c); [reflexivity |].
  exact IH.
Qed.

Lemma split_dot_spec (r : string) :
  match split_dot r with
  | (w, None) => r = w /\ count_char "."%char r = 0
  | (w, Some f) =>
      r = w ++ String "."%char f
      /\ count_char "."%char r = S (count_char "."%char f)
  end.
Proof.
  induction r as [|a r IH]; [now split |].
  cbn [split_dot count_char]. unfold is_dot.
  destruct (Ascii.eqb_spec a "."%char) as [->|Hne].
  - now split.
  - destruct (split_dot r) as [w [f|]]; destruct IH as [E C];
      split; cbn; try rewrite <- E; try rewrite C; reflexivity.
Qed.

Lemma is_dot_not_digit (a : ascii) : is_dot a = true -> is_digit a = false.
Proof.
  unfold is_dot. intros H. apply Ascii.eqb_eq in H. now subst a.
Qed.

(** [Number] on a text of digits and dots that has a digit: [NaN] exactly
    when the text has two dots or more, and otherwise the decimal read,
    [Infinity] from the bound of the doubles on. *)
Lemma Number_with_digit (r : string) :
  has_digit r = true ->
  Number r
  = if Nat.leb 2 (count_char "."%char r) then NaN
    else finite_or_infinity (digits_value 0 (whole_digits r)) (frac_digits r).
Proof.
  intros Hd. unfold Number, whole_digits, frac_digits.
  pose proof (split_dot_spec r) as S.
  destruct (split_dot r) as [w [f|]]; destruct S as [E C]; cbn [fst snd].
  - rewrite C, includes_count.
    destruct (count_char "."%char f) as [|n]; cbn [Nat.leb]; [| reflexivity].
    assert (N : is_empty w && is_empty f = false).
    { destruct w; [| reflexivity]. destruct f; [| reflexivity].
      subst r. discriminate Hd. }
    now rewrite N.
  - now rewrite C.
Qed.

Lemma strip_numeric_chars (t : string) :
  all_chars (fun a => is_digit a || is_dot a) (strip_non_numeric t) = true.
Proof.
  induction t as [|a t IH]; [reflexivity |].
  cbn [strip_non_numeric].
  destruct (is_digit a || is_dot a) eqn:E; [| exact IH].
  cbn [all_chars]. now rewrite E, IH.
Qed.

Lemma whole_digits_bound (r : string) :
  all_chars (fun a => is_digit a || is_dot a) r = true ->
  all_chars is_digit (whole_digits r) = true
  /\ String.length (whole_digits r) <= digit_count r.
Proof.
  unfold whole_digits. induction r as [|a r IH]; [now split |].
  cbn [all_chars split_dot digit_count]. intros H.
  apply andb_true_iff in H as [Ha Hr]. specialize (IH Hr).
  destruct (is_dot a) eqn:D.
  - cbn. split; [reflexivity | lia].
  - rewrite orb_false_r in Ha. rewrite Ha.
    destruct (split_dot r) as [w f]. cbn [fst] in *.
    cbn [all_chars String.length]. rewrite Ha. destruct IH as [IH1 IH2].
    split; [exact IH1 | lia].
Qed.

Lemma digit_value_small (a : ascii) :
  is_digit a = true -> (N.of_nat (nat_of_ascii a - 48) <= 9)%N.
Proof.
  unfold is_digit. intros H. apply andb_true_iff in H as [H1 H2].
  apply Nat.leb_le in H1, H2. lia.
Qed.

Lemma digits_value_bound (s : string) (acc : N) :
  all_chars is_digit s = true ->
  (digits_value acc s < (acc + 1) * 10 ^ N.of_nat (String.length s))%N.
Proof.
  revert acc. induction s as [|a s IH]; intros acc H.
  - cbn. lia.
  - cbn [all_chars] in H. apply andb_true_iff in H as [Ha Hs].
    cbn [digits_value String.length].
    pose proof (digit_value_small a Ha) as Hd.
    specialize (IH (acc * 10 + N.of_nat (nat_of_ascii a - 48))%N Hs).
    rewrite Nat2N.inj_succ, N.pow_succ_r'.
    set (P := (10 ^ N.of_nat (String.length s))%N) in *.
    set (d := N.of_nat (nat_of_ascii a - 48)) in *.
    nia.
Qed.

(** A whole part of at most 15 digits is far below the bound of the
    doubles. *)
Lemma short_text_finite (t : string) :
  digit_count (strip_non_numeric t) <= 15 ->
  (digits_value 0 (whole_digits (strip_non_numeric t)) < double_overflow)%N.
Proof.
  intros H.
  destruct (whole_digits_bound _ (strip_numeric_chars t)) as [D L].
  pose proof (digits_value_bound _ 0%N D) as B.
  eapply N.lt_le_trans; [exact B |].
  transitivity (10 ^ 15)%N.
  - rewrite N.add_0_l, N.mul_1_l. apply N.pow_le_mono_r; lia.
  - now vm_compute.
Qed.

Lemma fmtNumber_unfold (s : string) :
  fmtNumber (VStr s)
  = Ok (let t := trim s in
        if is_empty t then EmptyString
        else if includes ","%char t then t
        else
          let n := Number (strip_non_numeric t) in
          if negb (isFinite n) then t else format_integer n).
Proof.
  unfold fmtNumber. cbn [js_coalesce nullish ToString bind]. cbv zeta.
  destruct (is_empty (trim s)); [reflexivity |].
  destruct (includes ","%char (trim s)); [reflexivity |].
  now destruct (negb (isFinite (Number (strip_non_numeric (trim s))))).
Qed.

(** C7, as the code has it.  For a text that has a digit once trimmed, and
    at most 15 digits, [fmtNumber] answers the number read from its digits
    and dots, rounded to an integer and written with commas between the
    thousands, when the trimmed text has no comma and at most one dot; in
    every other case it answers the trimmed text.  A [$] does not keep the
    text from being formatted. *)
Theorem fmtNumber_rule (s : string) :
  has_digit (trim s) = true ->
  digit_count (strip_non_numeric (trim s)) <= 15 ->
  let t := trim s in
  let r := strip_non_numeric t in
  let w := digits_value 0 (whole_digits r) in
  (includes ","%char t = false ->
   count_char "."%char r <= 1 ->
   fmtNumber (VStr s)
   = Ok (group_thousands
           (string_of_N (round_half_expand w (frac_digits r)))))
  /\ (includes ","%char t = true \/ 2 <= count_char "."%char r ->
      fmtNumber (VStr s) = Ok t).
Proof.
  intros Hd Hn t r w. rewrite fmtNumber_unfold. fold t. cbv zeta. fold r.
  rewrite (has_digit_not_empty t Hd).
  assert (Hr : has_digit r = true) by (unfold r; now rewrite has_digit_strip).
  rewrite (Number_with_digit r Hr). fold w. unfold finite_or_infinity.
  pose proof (short_text_finite (trim s) Hn) as Hw. fold t r w in Hw.
  split.
  - intros Hc Hdots. rewrite Hc.
    destruct (Nat.leb_spec 2 (count_char "."%char r)); [lia |].
    destruct (N.leb_spec double_overflow w); [lia |].
    reflexivity.
  - intros [Hc | Hdots].
    + now rewrite Hc.
    + destruct (includes ","%char t); [reflexivity |].
      destruct (Nat.leb_spec 2 (count_char "."%char r)); [reflexivity | lia].
Qed.

Lemma fmtCurrency_unfold (s : string) :
  fmtCurrency (VStr s)
  = Ok (let t := trim s in
        if is_empty t then EmptyString
        else if includes "$"%char t || includes ","%char t then t
        else
          let n := Number (strip_non_numeric t) in
          if negb (isFinite n) then t else format_currency n).
Proof.
  unfold fmtCurrency. cbn [js_coalesce nullish ToString bind]. cbv zeta.
  destruct (is_empty (trim s)); [reflexivity |].
  destruct (includes "$"%char (trim s) || includes ","%char (trim s));
    [reflexivity |].
  now destruct (negb (isFinite (Number (strip_non_numeric (trim s))))).
Qed.

(** The price follows its rule on every text that has a digit, and at
    most 15 of them. *)
Lemma fmtCurrency_rule (s : string) :
  has_digit (trim s) = true ->
  digit_count (strip_non_numeric (trim s)) <= 15 ->
  let t := trim s in
  let r := strip_non_numeric t in
  let w := digits_value 0 (whole_digits r) in
  (includes "$"%char t = false ->
   includes ","%char t = false ->
   count_char "."%char r <= 1 ->
   fmtCurrency (VStr s)
   = Ok ("$" ++ group_thousands
                  (string_of_N (round_half_expand w (frac_digits r)))))
  /\ (includes "$"%char t = true \/ includes ","%char t = true
      \/ 2 <= count_char "."%char r ->
      fmtCurrency (VStr s) = Ok t).
Proof.
  intros Hd Hn t r w. rewrite fmtCurrency_unfold. fold t. cbv zeta. fold r.
  rewrite (has_digit_not_empty t Hd).
  assert (Hr : has_digit r = true) by (unfold r; now rewrite has_digit_strip).
  rewrite (Number_with_digit r Hr). fold w. unfold finite_or_infinity.
  pose proof (short_text_finite (trim s) Hn) as Hw. fold t r w in Hw.
  split.
  - intros Hs Hc Hdots. rewrite Hs, Hc.
    destruct (Nat.leb_spec 2 (count_char "."%char r)); [lia |].
    destruct (N.leb_spec double_overflow w); [lia |].
    reflexivity.
  - intros H.
    destruct (includes "$"%char t || includes ","%char t) eqn:E;
      [reflexivity |].
    apply orb_false_iff in E as [Es Ec].
    destruct H as [Hs | [Hc | Hdots]]; try congruence.
    destruct (Nat.leb_spec 2 (count_char "."%char r)); [reflexivity | lia].
Qed.

Example group_thousands_examples :
  group_thousands "999" = "999"
  /\ group_thousands "1000" = "1,000"
  /\ group_thousands "1234567" = "1,234,567".
Proof. repeat split. Qed.

(** C6.  [fmtCurrency] on the three prices of the specification: the plain
    number is formatted and the formatted price is left as it is, but
    ["N/A"], which has no digit, is read as the number 0 and answered as
    ["$0"] instead of being left as it is. *)
Theorem fmtCurrency_examples :
  fmtCurrency (VStr "450000") = Ok "$450,000"
  /\ fmtCurrency (VStr "$450,000") = Ok "$450,000"
  /\ fmtCurrency (VStr "N/A") = Ok "$0".
Proof. repeat split; vm_compute; reflexivity. Qed.

(** The same reading of a text without digits in [fmtNumber]. *)
Example fmtNumber_not_available : fmtNumber (VStr "N/A") = Ok "0".
Proof. vm_compute. reflexivity. Qed.

(** C7 as stated fails: a square footage that carries a [$] is formatted,
    where the rule of the price leaves such a text as it is. *)
Lemma fmtNumber_dollar :
  fmtNumber (VStr "$1200") = Ok "1,200"
  /\ same_rule_as_price "$1200" = "$1200"
  /\ fmtNumber (VStr "$1200") <> Ok (same_rule_as_price "$1200").
Proof. repeat split; try (vm_compute; reflexivity). vm_compute. discriminate. Qed.

(** A square footage with a fraction and a unit. *)
Lemma fmtNumber_rule_witness :
  fmtNumber (VStr " 1234567.5 sq ft ") = Ok "1,234,568".
Proof.
  refine (proj1 (fmtNumber_rule " 1234567.5 sq ft " _ _) _ _);
    vm_compute; first [reflexivity | lia].
Defined.

(** ** Generated listings and the persisted form *)

Lemma nullish_js_or (v d : value) :
  nullish d = false -> nullish (js_or v d) = false.
Proof.
  intros Hd. unfold js_or. destruct (truthy v) eqn:T; [| exact Hd].
  now destruct v.
Qed.

Lemma copied_field (k : string) (input x : value) :
  (let* v := get k input in Ok (js_or v (VStr EmptyString))) = Ok x ->
  x = js_or (get_opt k input) (VStr EmptyString).
Proof.
  intros H. apply bind_Ok in H as (v & Hv & H).
  apply get_opt_of_get in Hv. subst v. now apply Ok_inj in H.
Qed.

Ltac field_present :=
  eexists; split; [reflexivity |];
  split; [first [reflexivity | now apply nullish_js_or] | reflexivity].

Section PersistedForm.

Variable JSON_parse : string -> result value.
Variable JSON_stringify : value -> string.
Variable mkdir_ok : bool.
Variable write_ok : bool.
Variable hasOpenAIKey : bool.
Variable generateWithOpenAI : string -> result (string * string).
Variable fresh_id : string.
Variable created_at : string.

Local Abbreviation generate :=
  (generate_listing hasOpenAIKey generateWithOpenAI fresh_id created_at).
Local Abbreviation readListings' :=
  (readListings JSON_parse JSON_stringify mkdir_ok write_ok).
Local Abbreviation save :=
  (save_listing JSON_parse JSON_stringify mkdir_ok write_ok).
Local Abbreviation delete :=
  (delete_listing JSON_parse JSON_stringify mkdir_ok write_ok).
Local Abbreviation serviceable' := (serviceable mkdir_ok write_ok).

Lemma generate_listing_shape (body listing : value) :
  generate body = Json 200 (VObj [("ok", VBool true); ("listing", listing)]) ->
  exists generated,
    new_listing fresh_id created_at (js_or body (VObj [])) generated
    = Ok listing.
Proof.
  unfold generate_listing. destruct hasOpenAIKey; [| discriminate].
  cbn [negb].
  destruct (buildPrompt (js_or body (VObj []))) as [prompt|];
    [| discriminate].
  cbn [bind].
  destruct (generateWithOpenAI prompt) as [generated|]; [| discriminate].
  cbn [bind].
  destruct (new_listing fresh_id created_at (js_or body (VObj [])) generated)
    as [l|] eqn:E; [| discriminate].
  cbn [bind]. intros H. exists generated. congruence.
Qed.

Lemma new_listing_complete (input : value) (generated : string * string)
  (listing : value) :
  new_listing fresh_id created_at input generated = Ok listing ->
  complete listing
  /\ (forall k, In k copied_fields ->
      get_opt k listing = js_or (get_opt k input) (VStr EmptyString))
  /\ (forall k, In k agent_fields ->
      get_opt k (get_opt "agent" listing)
      = js_or (get_opt k (get_opt "agent" input)) (VStr EmptyString))
  /\ get_opt "tone" listing
     = js_or (get_opt "tone" input) (VStr "MLS (English)")
  /\ get_opt "title" listing
     = js_or (VStr (fst generated)) (VStr "Property Listing")
  /\ get_opt "id" listing = VStr fresh_id
  /\ get_opt "createdAt" listing = VStr created_at.
Proof.
  unfold new_listing. intros H.
  inv_bind H. apply get_opt_of_get in E. subst.
  repeat (let x := fresh "x" in
          let E := fresh "E" in
          apply bind_Ok in H as (x & E & H); apply copied_field in E).
  apply Ok_inj in H. subst.
  split.
  { split; unfold listing_fields, agent_fields;
      repeat (apply Forall_cons; [field_present |]); apply Forall_nil. }
  split.
  { intros k Hk. cbn in Hk.
    repeat (destruct Hk as [<- | Hk]; [reflexivity |]). contradiction. }
  split.
  { intros k Hk. cbn in Hk.
    repeat (destruct Hk as [<- | Hk]; [reflexivity |]). contradiction. }
  repeat split.
Qed.

(** C9, as the code has it.  A listing built by [POST /api/listings/generate]
    has every field, and every field of its agent, present and neither
    [null] nor [undefined]: a field the input lacks is the empty text, the
    tone ["MLS (English)"] and the title ["Property Listing"].  That route
    does not write to the store.  On a store that the file system serves,
    saving writes the body as received in front of the records read, and
    deleting writes the records read that have another [id]: neither fills
    in a field. *)
Theorem generated_listing_complete :
  (forall body listing,
      generate body
      = Json 200 (VObj [("ok", VBool true); ("listing", listing)]) ->
      let input := js_or body (VObj []) in
      complete listing
      /\ (forall k, In k copied_fields ->
          get_opt k listing = js_or (get_opt k input) (VStr EmptyString))
      /\ (forall k, In k agent_fields ->
          get_opt k (get_opt "agent" listing)
          = js_or (get_opt k (get_opt "agent" input)) (VStr EmptyString))
      /\ get_opt "tone" listing
         = js_or (get_opt "tone" input) (VStr "MLS (English)")
      /\ (exists title,
             get_opt "title" listing
             = js_or (VStr title) (VStr "Property Listing")))
  /\ (forall body st xs,
        serviceable' st = true ->
        fst (readListings' st) = Ok xs ->
        ~ falsy (get_opt "id" body) ->
        listings_file (snd (save body st))
        = written JSON_stringify (body :: xs))
  /\ (forall id st xs,
        serviceable' st = true ->
        fst (readListings' st) = Ok xs ->
        Forall (fun x => nullish x = false) xs ->
        listings_file (snd (delete id st))
        = written JSON_stringify (filter (other_id id) xs)).
Proof.
  split; [| split].
  - intros body listing H input.
    apply generate_listing_shape in H as (generated & H).
    apply new_listing_complete in H as (C & F & A & T & Ti & _).
    subst input. split; [exact C |]. split; [exact F |].
    split; [exact A |]. split; [exact T |]. now exists (fst generated).
  - intros body st xs Hs Hxs Hid. apply readListings_value in Hxs. subst xs.
    destruct (truthy (get_opt "id" body)) eqn:T;
      [| now apply truthy_falsy in T].
    now rewrite (save_run _ _ _ _ body st T Hs).
  - intros id st xs Hs Hxs Hnn. apply readListings_value in Hxs. subst xs.
    now rewrite (delete_run _ _ _ _ id st Hs Hnn).
Qed.

End PersistedForm.

(** ** The theorems at work *)

(** A title that holds a script element appears escaped, once, and opens
    no element. *)
Lemma buildPdfHtml_escapes_witness :
  example_build script_listing = Ok (str (example_build script_listing))
  /\ count_sub "<script" (str (example_build script_listing)) = 0
  /\ count_sub "&lt;script&gt;" (str (example_build script_listing)) = 1.
Proof.
  assert (H : example_build script_listing
              = Ok (str (example_build script_listing)))
    by (vm_compute; reflexivity).
  split; [exact H |]. split.
  - exact (proj2 (proj2 (proj2 (buildPdfHtml_escapes _ _ _ _ _ _ _ H)))).
  - vm_compute. reflexivity.
Defined.

(** An uploaded file is inlined; a link, a file that cannot be read and a
    missing file are not, and the flyer holds the one image. *)
Lemma imageUrlToDataUri_inlines_witness :
  example_image (VStr "/uploads/a.png") = VStr "data:image/png;base64,AQIDBA=="
  /\ example_image (VStr "https://example.com/logo.png") = VNull
  /\ example_image (VStr "/uploads/locked.webp") = VNull
  /\ example_image (VStr "/uploads/missing.png") = VNull
  /\ count_sub "<img" (str (example_build script_listing)) = 1.
Proof.
  destruct (imageUrlToDataUri_inlines "/app" example_join example_extname
              example_disk "11/2/2026, 7:00:00 PM")
    as (R & _ & _ & _ & D).
  unfold example_image. rewrite !R.
  repeat (split; [vm_compute; reflexivity |]).
  assert (H : example_build script_listing
              = Ok (str (example_build script_listing)))
    by (vm_compute; reflexivity).
  destruct (D _ _ H) as (Dimg & _). rewrite Dimg. rewrite !R.
  vm_compute. reflexivity.
Defined.

(** C2 as stated fails: a body whose [id] is the number 0 has an [id] that
    is neither absent nor empty, and is answered 400. *)
Lemma save_validates_zero_id :
  fst (save_listing MiniJson.parse MiniJson.stringify true true zero_id_body
         empty_store)
  = Ok (Json 400 (failure "Listing with id is required."))
  /\ absent_or_empty (get_opt "id" zero_id_body) = false.
Proof. split; vm_compute; reflexivity. Qed.

(** Saved in front of a record with the same [id], the record is still the
    one that comes back. *)
Lemma save_then_get_witness :
  fst (get_listing MiniJson.parse MiniJson.stringify true true "abc123"
         (snd (save_listing MiniJson.parse MiniJson.stringify true true
                 bungalow three_store)))
  = Ok (Json 200 (VObj [("ok", VBool true); ("listing", bungalow)])).
Proof.
  refine (proj2 (save_then_get MiniJson.parse MiniJson.stringify true true
                   bungalow "abc123" three_store
                   [bungalow_again; cottage; bungalow] _ _ _ _ _));
    try (vm_compute; reflexivity).
  discriminate.
Defined.

(** C3 as stated fails: a record whose [id] is the number 123 has an [id]
    that is not empty and that no stored record carries; it is saved, and
    [GET /api/listings/123] does not find it, because the route parameter
    is the text [123] and the lookup compares without converting. *)
Lemma save_then_get_number_id :
  fst (save_listing MiniJson.parse MiniJson.stringify true true numbered_body
         empty_store)
  = Ok (Json 200 ok_true)
  /\ fst (readListings MiniJson.parse MiniJson.stringify true true
            (snd (save_listing MiniJson.parse MiniJson.stringify true true
                    numbered_body empty_store)))
     = Ok [numbered_body]
  /\ fst (get_listing MiniJson.parse MiniJson.stringify true true "123"
            (snd (save_listing MiniJson.parse MiniJson.stringify true true
                    numbered_body empty_store)))
     = Ok (Json 404 (failure "Listing not found."))
  /\ absent_or_empty (get_opt "id" numbered_body) = false
  /\ ToString (get_opt "id" numbered_body) = Ok "123".
Proof. repeat split; vm_compute; reflexivity. Qed.

(** On a file system that refuses to make the data directory,
    [readListings] throws on the empty store, and the read routes fail;
    where the directory can be made and the file written, it answers the
    empty sequence. *)
Example readListings_read_only :
  fst (readListings MiniJson.parse MiniJson.stringify false false empty_store)
  = Throw
  /\ fst (get_listings MiniJson.parse MiniJson.stringify false false
            empty_store)
     = Throw
  /\ fst (get_listing MiniJson.parse MiniJson.stringify false false "abc123"
            empty_store)
     = Ok (Json 500 (failure "Failed to load listing."))
  /\ fst (readListings MiniJson.parse MiniJson.stringify true true empty_store)
     = Ok [].
Proof. repeat split; vm_compute; reflexivity. Qed.

(** A file that does not hold JSON reads as the empty sequence. *)
Example readListings_corrupt :
  fst (readListings MiniJson.parse MiniJson.stringify true true corrupt_store)
  = Ok [].
Proof. vm_compute. reflexivity. Qed.

(** A file that holds JSON for an object reads as the empty sequence. *)
Lemma readListings_not_array_witness :
  fst (readListings MiniJson.parse MiniJson.stringify true true object_store)
  = Ok []
  /\ fst (get_listings MiniJson.parse MiniJson.stringify true true
            object_store)
     = Ok (Json 200 (VObj [("ok", VBool true); ("listings", VArr [])])).
Proof.
  refine (proj2 (readListings_not_array MiniJson.parse MiniJson.stringify
                   true true object_store)
            (MiniJson.stringify (VObj [("listings", VArr [])]))
            (VObj [("listings", VArr [])]) _ _ _);
    vm_compute; reflexivity.
Defined.

(** Both records with the [id] are removed, the third is kept. *)
Lemma delete_removes_all_witness :
  fst (delete_listing MiniJson.parse MiniJson.stringify true true "abc123"
         three_store)
  = Ok (Json 200 ok_true)
  /\ fst (readListings MiniJson.parse MiniJson.stringify true true
           (snd (delete_listing MiniJson.parse MiniJson.stringify true true
                   "abc123" three_store)))
     = Ok [cottage].
Proof.
  destruct (delete_removes_all MiniJson.parse MiniJson.stringify true true
              "abc123" three_store [bungalow_again; cottage; bungalow])
    as (H1 & H2 & _).
  - reflexivity.
  - vm_compute. reflexivity.
  - repeat constructor.
  - vm_compute. reflexivity.
  - split; [exact H1 | exact H2].
Defined.

(** C5 as stated fails: on a stored sequence that holds a [null] beside the
    cottage, deleting the [id] of the cottage does not report success and
    removes nothing. *)
Lemma delete_fails_on_null :
  fst (readListings MiniJson.parse MiniJson.stringify true true null_store)
  = Ok [cottage; VNull]
  /\ fst (delete_listing MiniJson.parse MiniJson.stringify true true "xyz789"
            null_store)
     = Ok (Json 500 (failure "Failed to delete listing."))
  /\ fst (readListings MiniJson.parse MiniJson.stringify true true
            (snd (delete_listing MiniJson.parse MiniJson.stringify true true
                    "xyz789" null_store)))
     = Ok [cottage; VNull]
  /\ get_opt "id" cottage = VStr "xyz789".
Proof. repeat split; vm_compute; reflexivity. Qed.

(** Where the entry at the path of the file cannot be opened, a save and a
    delete answer 500 and leave it as it is, and the record is not found
    afterwards; the same holds of a save where the file system refuses the
    write. *)
Example store_refused :
  save_listing MiniJson.parse MiniJson.stringify true true bungalow
    (mkStore true Locked)
  = (Ok (Json 500 (failure "Failed to save listing.")), mkStore true Locked)
  /\ fst (get_listing MiniJson.parse MiniJson.stringify true true "abc123"
            (mkStore true Locked))
     = Ok (Json 404 (failure "Listing not found."))
  /\ delete_listing MiniJson.parse MiniJson.stringify true true "abc123"
       (mkStore true Locked)
     = (Ok (Json 500 (failure "Failed to delete listing.")),
        mkStore true Locked)
  /\ save_listing MiniJson.parse MiniJson.stringify true false cottage
       three_store
     = (Ok (Json 500 (failure "Failed to save listing.")), three_store)
  /\ delete_listing MiniJson.parse MiniJson.stringify true false "abc123"
       three_store
     = (Ok (Json 500 (failure "Failed to delete listing.")), three_store).
Proof. repeat split; vm_compute; reflexivity. Qed.

(** C9 as stated fails: after one save the store holds a record whose title
    is [null] and which has no address. *)
Lemma save_persists_null :
  fst (save_listing MiniJson.parse MiniJson.stringify true true partial_body
         empty_store)
  = Ok (Json 200 ok_true)
  /\ fst (readListings MiniJson.parse MiniJson.stringify true true
           (snd (save_listing MiniJson.parse MiniJson.stringify true true
                   partial_body empty_store)))
     = Ok [partial_body]
  /\ get_opt "title" partial_body = VNull
  /\ get_opt "address" partial_body = VUndef.
Proof. repeat split; vm_compute; reflexivity. Qed.

(** A generated listing: the [null] beds of the input become the empty
    text, the missing tone its default. *)
Lemma generated_listing_complete_witness :
  exists listing,
    example_generate (VObj [("address", VStr "1 Main St"); ("beds", VNull)])
    = Json 200 (VObj [("ok", VBool true); ("listing", listing)])
    /\ complete listing
    /\ get_opt "beds" listing = VStr EmptyString
    /\ get_opt "tone" listing = VStr "MLS (English)".
Proof.
  eexists. split; [vm_compute; reflexivity |].
  match goal with
  | |- complete ?l /\ _ =>
      destruct (proj1 (generated_listing_complete MiniJson.parse
                         MiniJson.stringify true true true
                         (fun _ => Ok ("Sunny Home", "Sunny Home
A bright place."))
                         "0123456789abcdef01234567" "2026-11-02T19:00:00.000Z")
                  (VObj [("address", VStr "1 Main St"); ("beds", VNull)]) l
                  eq_refl)
        as (C & F & _ & T & _)
  end.
  split; [exact C |]. split.
  - rewrite F; [reflexivity | cbn; tauto].
  - rewrite T. reflexivity.
Defined.

(** The round trip of the specification: the saved record comes back with
    its price as it was sent. *)
Example saved_price_unchanged :
  fst (get_listing MiniJson.parse MiniJson.stringify true true "abc123"
         (snd (save_listing MiniJson.parse MiniJson.stringify true true
                 bungalow empty_store)))
  = Ok (Json 200 (VObj [("ok", VBool true); ("listing", bungalow)]))
  /\ get_opt "price" bungalow = VStr "350000".
Proof. split; vm_compute; reflexivity. Qed.

(** The flyer of a listing whose price is ["N/A"] shows [$0]. *)
Example flyer_shows_zero_price :
  count_sub ">$0</div>" (str (example_build unpriced_listing)) = 1
  /\ count_sub "N/A" (str (example_build unpriced_listing)) = 0.
Proof. split; vm_compute; reflexivity. Qed.

(** ** How the routes of the store compose *)

Lemma other_id_has_id (id : string) (x : value) :
  other_id id x = negb (has_id id x).
Proof. reflexivity. Qed.

Lemma get_Throw (k : string) (x : value) :
  get k x = Throw -> nullish x = true.
Proof.
  destruct x; cbn; try discriminate; try reflexivity.
  now destruct (lookup k fields).
Qed.

Lemma find_by_id_none (id : string) (xs : list value) :
  Forall not_null xs ->
  Forall (fun x => has_id id x = false) xs ->
  find_by_id id xs = Ok VUndef.
Proof.
  induction 1 as [|x xs Hx _ IH]; intros Hall; [reflexivity |].
  inversion Hall as [|? ? Hid Hrest]; subst.
  cbn [find_by_id]. unfold has_id, get_opt in Hid.
  destruct (get "id" x) as [v|] eqn:E.
  - cbn [bind]. rewrite Hid. now apply IH.
  - apply get_Throw in E. unfold not_null in Hx. congruence.
Qed.

Lemma find_by_id_first (id : string) (pre post : list value) (x : value) :
  Forall not_null pre ->
  Forall (fun y => has_id id y = false) pre ->
  has_id id x = true ->
  find_by_id id (pre ++ x :: post)%list = Ok x.
Proof.
  induction 1 as [|y pre Hy _ IH]; intros Hall Hx.
  - cbn [app find_by_id]. unfold has_id, get_opt in Hx.
    destruct (get "id" x) as [v|]; [| discriminate].
    cbn [bind]. now rewrite Hx.
  - inversion Hall as [|? ? Hid Hrest]; subst.
    cbn [app find_by_id]. unfold has_id, get_opt in Hid.
    destruct (get "id" y) as [v|] eqn:E.
    + cbn [bind]. rewrite Hid. now apply IH.
    + apply get_Throw in E. unfold not_null in Hy. congruence.
Qed.

Lemma has_id_truthy (id : string) (x : value) :
  has_id id x = true -> truthy x = true.
Proof. destruct x; try discriminate; reflexivity. Qed.

Lemma filter_other_has_id (id : string) (xs : list value) :
  Forall (fun x => has_id id x = false) (filter (other_id id) xs).
Proof.
  apply Forall_forall. intros x Hx. apply filter_In in Hx as [_ Hx].
  rewrite other_id_has_id in Hx. now apply negb_true_iff in Hx.
Qed.

Lemma filter_not_null (f : value -> bool) (xs : list value) :
  Forall not_null xs -> Forall not_null (filter f xs).
Proof.
  intros H. apply Forall_forall. intros x Hx. apply filter_In in Hx as [Hx _].
  revert x Hx. now apply Forall_forall.
Qed.

Lemma filter_idem {A : Type} (f : A -> bool) (l : list A) :
  filter f (filter f l) = filter f l.
Proof.
  induction l as [|x l IH]; [reflexivity |].
  cbn. destruct (f x) eqn:E; [| exact IH]. cbn. now rewrite E, IH.
Qed.

Lemma filter_not_id_null (id : string) (xs : list value) :
  Exists (fun x => nullish x = true) xs -> filter_not_id id xs = Throw.
Proof.
  induction 1 as [x xs Hx | x xs _ IH].
  - now destruct x.
  - cbn [filter_not_id]. rewrite IH. now destruct (get "id" x).
Qed.

Section StoreRoutes.

Variable JSON_parse : string -> result value.
Variable JSON_stringify : value -> string.
Variable mkdir_ok : bool.
Variable write_ok : bool.

Local Abbreviation readListings' :=
  (readListings JSON_parse JSON_stringify mkdir_ok write_ok).
Local Abbreviation stored' := (stored JSON_parse).
Local Abbreviation written' := (written JSON_stringify).
Local Abbreviation ensured' := (ensured JSON_stringify).
Local Abbreviation can_ensure' := (can_ensure mkdir_ok write_ok).
Local Abbreviation serviceable' := (serviceable mkdir_ok write_ok).
Local Abbreviation save :=
  (save_listing JSON_parse JSON_stringify mkdir_ok write_ok).
Local Abbreviation delete :=
  (delete_listing JSON_parse JSON_stringify mkdir_ok write_ok).
Local Abbreviation get_one :=
  (get_listing JSON_parse JSON_stringify mkdir_ok write_ok).
Local Abbreviation get_all :=
  (get_listings JSON_parse JSON_stringify mkdir_ok write_ok).
Local Abbreviation reads_back' := (reads_back JSON_parse JSON_stringify).

Lemma truthy_not_falsy (v : value) : ~ falsy v -> truthy v = true.
Proof.
  intros H. destruct (truthy v) eqn:T; [reflexivity |].
  now apply truthy_falsy in T.
Qed.

Lemma save_file (body : value) (st : store) (xs : list value) :
  serviceable' st = true ->
  fst (readListings' st) = Ok xs ->
  ~ falsy (get_opt "id" body) ->
  save body st = (Ok (Json 200 ok_true), mkStore true (written' (body :: xs))).
Proof.
  intros Hs Hxs Hid. apply readListings_value in Hxs. subst xs.
  exact (save_run _ _ _ _ body st (truthy_not_falsy _ Hid) Hs).
Qed.

Lemma read_written (d : bool) (xs : list value) :
  reads_back' xs ->
  readListings' (mkStore d (written' xs))
  = (Ok xs, mkStore true (written' xs)).
Proof.
  intros H. rewrite readListings_run, can_ensure_written, ensured_written.
  now rewrite (stored_written _ _ _ H).
Qed.

(** A store that was written stays one the file system serves. *)
Lemma serviceable_after (st : store) (d : bool) (xs : list value) :
  serviceable' st = true -> serviceable' (mkStore d (written' xs)) = true.
Proof.
  intros H. apply serviceable_parts in H as (W & _ & _).
  unfold serviceable. now rewrite W.
Qed.

Lemma get_one_written (id : string) (d : bool) (xs : list value) :
  reads_back' xs ->
  fst (get_one id (mkStore d (written' xs)))
  = match find_by_id id xs with
    | Ok listing =>
        Ok (if truthy listing
            then Json 200 (VObj [("ok", VBool true); ("listing", listing)])
            else Json 404 (failure "Listing not found."))
    | Throw => Ok (Json 500 (failure "Failed to load listing."))
    end.
Proof.
  intros H. rewrite get_one_run, can_ensure_written, ensured_written.
  now rewrite (stored_written _ _ _ H).
Qed.

(** X1.  On a store that the file system serves, after a save that is
    accepted, [GET /api/listings] answers the saved record followed by the
    records read before, in their order: the newest comes first and none is
    lost. *)
Theorem save_then_list (body : value) (st : store) (xs : list value) :
  serviceable' st = true ->
  fst (readListings' st) = Ok xs ->
  ~ falsy (get_opt "id" body) ->
  reads_back' (body :: xs) ->
  fst (get_all (snd (save body st)))
  = Ok (Json 200
          (VObj [("ok", VBool true); ("listings", VArr (body :: xs))])).
Proof.
  intros Hs Hxs Hid Hrb. rewrite (save_file body st xs Hs Hxs Hid). cbn [snd].
  unfold get_listings, seq. now rewrite (read_written _ _ Hrb).
Qed.

(** X2.  The store does not merge records: on a store that the file system
    serves, saved twice under one [id], both records are kept, the later in
    front, and [GET /api/listings/:id] answers the later. *)
Theorem save_twice_keeps_both (r1 r2 : value) (id : string) (st : store)
  (xs : list value) :
  serviceable' st = true ->
  fst (readListings' st) = Ok xs ->
  get_opt "id" r1 = VStr id ->
  get_opt "id" r2 = VStr id ->
  id <> EmptyString ->
  reads_back' (r1 :: xs) ->
  reads_back' (r2 :: r1 :: xs) ->
  let st2 := snd (save r2 (snd (save r1 st))) in
  fst (readListings' st2) = Ok (r2 :: r1 :: xs)
  /\ fst (get_one id st2)
     = Ok (Json 200 (VObj [("ok", VBool true); ("listing", r2)])).
Proof.
  intros Hs Hxs H1 H2 Hne Hrb1 Hrb2.
  assert (F : forall r, get_opt "id" r = VStr id -> ~ falsy (get_opt "id" r)).
  { intros r Hr. rewrite Hr. intros F. inversion F. congruence. }
  rewrite (save_file r1 st xs Hs Hxs (F r1 H1)). cbn [snd].
  rewrite (save_file r2 _ (r1 :: xs));
    [| exact (serviceable_after st _ _ Hs)
     | now rewrite (read_written _ _ Hrb1) | now apply F].
  cbn [snd]. split.
  - now rewrite (read_written _ _ Hrb2).
  - rewrite (get_one_written id _ _ Hrb2).
    rewrite (find_by_id_head id r2 _ H2).
    assert (T : truthy r2 = true) by (destruct r2; try discriminate H2; reflexivity).
    now rewrite T.
Qed.

(** X3.  [GET /api/listings/:id] on a store whose records are not [null]:
    it answers 404 exactly when no record carries the [id], and otherwise
    the first record that carries it. *)
Theorem get_listing_first_match (id : string) (st : store) (xs : list value) :
  fst (readListings' st) = Ok xs ->
  Forall not_null xs ->
  (Forall (fun x => has_id id x = false) xs ->
   fst (get_one id st) = Ok (Json 404 (failure "Listing not found.")))
  /\ (forall pre x post,
        xs = (pre ++ x :: post)%list ->
        Forall (fun y => has_id id y = false) pre ->
        has_id id x = true ->
        fst (get_one id st)
        = Ok (Json 200 (VObj [("ok", VBool true); ("listing", x)]))).
Proof.
  intros Hxs Hnn. pose proof (readListings_ensures _ _ _ _ _ _ Hxs) as E.
  apply readListings_value in Hxs.
  rewrite get_one_run, E. cbn [fst]. rewrite <- Hxs. split.
  - intros Hall. now rewrite (find_by_id_none id xs Hnn Hall).
  - intros pre x post -> Hpre Hx.
    apply Forall_app in Hnn as [Hnn _].
    rewrite (find_by_id_first id pre post x Hnn Hpre Hx).
    now rewrite (has_id_truthy id x Hx).
Qed.

(** X4.  On a store that the file system serves, once an [id] is deleted,
    [GET /api/listings/:id] answers 404 for it. *)
Theorem delete_then_get (id : string) (st : store) (xs : list value) :
  serviceable' st = true ->
  fst (readListings' st) = Ok xs ->
  Forall not_null xs ->
  reads_back' (filter (other_id id) xs) ->
  fst (get_one id (snd (delete id st)))
  = Ok (Json 404 (failure "Listing not found.")).
Proof.
  intros Hs Hxs Hnn Hrb. apply readListings_value in Hxs. subst xs.
  rewrite (delete_run _ _ _ _ id st Hs Hnn). cbn [snd].
  rewrite (get_one_written id _ _ Hrb).
  rewrite find_by_id_none; [reflexivity | | apply filter_other_has_id].
  now apply filter_not_null.
Qed.

(** X5.  Deleting is idempotent on a store that the file system serves: a
    second delete of the same [id] answers 200 again and leaves the store
    as the first left it. *)
Theorem delete_twice (id : string) (st : store) (xs : list value) :
  serviceable' st = true ->
  fst (readListings' st) = Ok xs ->
  Forall not_null xs ->
  reads_back' (filter (other_id id) xs) ->
  delete id (snd (delete id st))
  = (Ok (Json 200 ok_true), snd (delete id st)).
Proof.
  intros Hs Hxs Hnn Hrb. apply readListings_value in Hxs. subst xs.
  rewrite (delete_run _ _ _ _ id st Hs Hnn). cbn [snd].
  rewrite delete_run;
    try rewrite ensured_written, (stored_written _ _ _ Hrb).
  - now rewrite filter_idem.
  - exact (serviceable_after st _ _ Hs).
  - now apply filter_not_null.
Qed.

(** X6.  On a store that the file system serves, saving a record and
    deleting its [id] leaves the records read before that carry another
    [id]; when none of them carried the [id], the sequence is the one read
    before the save. *)
Theorem save_then_delete (r : value) (id : string) (st : store)
  (xs : list value) :
  serviceable' st = true ->
  fst (readListings' st) = Ok xs ->
  Forall not_null xs ->
  get_opt "id" r = VStr id ->
  id <> EmptyString ->
  reads_back' (r :: xs) ->
  listings_file (snd (delete id (snd (save r st))))
  = written' (filter (other_id id) xs)
  /\ (Forall (fun x => has_id id x = false) xs ->
      listings_file (snd (delete id (snd (save r st)))) = written' xs).
Proof.
  intros Hs Hxs Hnn Hid Hne Hrb.
  assert (F : ~ falsy (get_opt "id" r)).
  { rewrite Hid. intros F. inversion F. congruence. }
  rewrite (save_file r st xs Hs Hxs F). cbn [snd].
  assert (Hr : not_null r) by (destruct r; try discriminate Hid; reflexivity).
  rewrite delete_run;
    try rewrite ensured_written, (stored_written _ _ _ Hrb).
  - assert (O : other_id id r = false).
    { unfold other_id. rewrite Hid. cbn. now rewrite String.eqb_refl. }
    cbn [snd listings_file filter]. rewrite O.
    split; [reflexivity |].
    intros Hall. f_equal. apply filter_all.
    eapply Forall_impl; [| exact Hall].
    intros x Hx. rewrite other_id_has_id. now rewrite Hx.
  - exact (serviceable_after st _ _ Hs).
  - now constructor.
Qed.

(** X7.  The two read routes never change a backing file that exists,
    whatever it holds and whatever they answer.  When it is missing they
    create it with the text of the empty array if the file system lets
    them, and leave it missing if not. *)
Theorem read_routes_keep_file (id : string) (st : store) :
  let after (st' : store) :=
    listings_file st'
    = match listings_file st with
      | Missing => if can_ensure' st then written' [] else Missing
      | f => f
      end in
  after (snd (get_all st)) /\ after (snd (get_one id st)).
Proof.
  cbv zeta.
  assert (A : listings_file
                (if can_ensure' st then ensured' st else unensured mkdir_ok st)
              = match listings_file st with
                | Missing => if can_ensure' st then written' [] else Missing
                | f => f
                end).
  { unfold can_ensure, ensured, unensured.
    destruct st as [d [| |raw]]; cbn; try reflexivity.
    destruct ((d || mkdir_ok) && write_ok) eqn:E; [reflexivity |].
    now destruct (d || mkdir_ok). }
  split.
  - unfold get_listings, seq. rewrite readListings_run, <- A.
    now destruct (can_ensure' st).
  - rewrite get_one_run, <- A. now destruct (can_ensure' st).
Qed.

(** X8.  A save on a file whose text does not parse, or parses to something
    other than an array, replaces the file by the one record saved when the
    write goes through: what the file held is not kept.  When the write is
    refused the save answers 500 and the file keeps its text. *)
Theorem save_overwrites_unreadable (body : value) (d : bool) (raw : string) :
  ~ falsy (get_opt "id" body) ->
  (JSON_parse raw = Throw
   \/ exists v, JSON_parse raw = Ok v /\ isArray v = false) ->
  save body (mkStore d (Content raw))
  = if write_ok
    then (Ok (Json 200 ok_true), mkStore true (written' [body]))
    else (Ok (Json 500 (failure "Failed to save listing.")),
          mkStore true (Content raw)).
Proof.
  intros Hid Hraw.
  assert (S : stored' (Content raw) = []).
  { cbn. destruct Hraw as [-> | (v & -> & Hv)]; [reflexivity |].
    now destruct v. }
  unfold save_listing, try_catch. rewrite (truthy_not_falsy _ Hid).
  cbn [negb]. unfold seq. rewrite readListings_run.
  change (can_ensure' (mkStore d (Content raw))) with true. cbv iota.
  rewrite writeListings_ensured.
  change (listings_file (ensured' (mkStore d (Content raw))))
    with (Content raw).
  rewrite S. now destruct write_ok.
Qed.

(** X9.  When the stored array holds a [null], deleting answers 500 for
    every [id] and writes nothing. *)
Theorem delete_null_element (id : string) (st : store) (xs : list value) :
  fst (readListings' st) = Ok xs ->
  Exists (fun x => nullish x = true) xs ->
  fst (delete id st) = Ok (Json 500 (failure "Failed to delete listing."))
  /\ listings_file (snd (delete id st))
     = match listings_file st with
       | Missing => written' []
       | f => f
       end.
Proof.
  intros Hxs Hnull. pose proof (readListings_ensures _ _ _ _ _ _ Hxs) as E.
  apply readListings_value in Hxs. subst xs.
  unfold delete_listing, try_catch, seq. rewrite readListings_run, E.
  unfold lift. rewrite (filter_not_id_null id _ Hnull). cbn.
  split; reflexivity.
Qed.

End StoreRoutes.

(** ** [escapeHtml] loses nothing and changes nothing it need not *)

Lemma decode_escape_one (a : ascii) (t : string) :
  decode_entities 0 (escape_string (String a EmptyString) ++ t)
  = String a (decode_entities 0 t).
Proof. each_ascii a; destruct t; reflexivity. Qed.

Lemma decode_escape_string (s : string) :
  decode_entities 0 (escape_string s) = s.
Proof.
  induction s as [|a s IH]; [reflexivity |].
  now rewrite escape_string_cons, decode_escape_one, IH.
Qed.

(** X10.  [escapeHtml] loses nothing: reading the five references back gives
    the text that was escaped, so two different texts never have the same
    escaped form. *)
Theorem escapeHtml_lossless :
  (forall s h, escapeHtml (VStr s) = Ok h -> decode_entities 0 h = s)
  /\ (forall s1 s2,
        escapeHtml (VStr s1) = escapeHtml (VStr s2) -> s1 = s2).
Proof.
  assert (D : forall s h,
             escapeHtml (VStr s) = Ok h -> decode_entities 0 h = s).
  { intros s h H. apply escapeHtml_VStr in H. subst h.
    apply decode_escape_string. }
  split; [exact D |].
  intros s1 s2 H.
  rewrite <- (D s1 (escape_string s1) eq_refl).
  rewrite <- (D s2 (escape_string s2) eq_refl).
  cbn in H. apply Ok_inj in H. now rewrite H.
Qed.

Lemma escape_one_plain (a : ascii) :
  special a = false -> escape_string (String a EmptyString) = String a EmptyString.
Proof. each_ascii a; cbn; intros H; try reflexivity; discriminate H. Qed.

Lemma escape_one_longer (a : ascii) :
  special a = true ->
  1 < String.length (escape_string (String a EmptyString)).
Proof.
  each_ascii a; cbn; intros H; try discriminate H; lia.
Qed.

Lemma escape_one_nonempty (a : ascii) :
  1 <= String.length (escape_string (String a EmptyString)).
Proof.
  destruct (special a) eqn:E.
  - apply escape_one_longer in E. lia.
  - rewrite (escape_one_plain a E). cbn. lia.
Qed.

Lemma escape_string_length (s : string) :
  String.length s <= String.length (escape_string s).
Proof.
  induction s as [|a s IH]; [cbn; lia |].
  rewrite escape_string_cons, append_length.
  pose proof (escape_one_nonempty a). cbn [String.length]. lia.
Qed.

(** X11.  [escapeHtml] returns a text as it is exactly when the text has
    none of the five characters; a text that has one comes back longer. *)
Theorem escapeHtml_unchanged_iff (s : string) :
  (escapeHtml (VStr s) = Ok s <-> quiet s)
  /\ (~ quiet s ->
      forall h, escapeHtml (VStr s) = Ok h ->
                String.length s < String.length h).
Proof.
  assert (L : forall t, ~ quiet t ->
                        String.length t < String.length (escape_string t)).
  { induction t as [|a t IH]; intros H.
    - exfalso. now apply H.
    - rewrite escape_string_cons, append_length. cbn [String.length].
      pose proof (escape_string_length t) as Ht.
      destruct (special a) eqn:E.
      + pose proof (escape_one_longer a E). lia.
      + rewrite (escape_one_plain a E). cbn [String.length].
        assert (~ quiet t).
        { intros Q. apply H. unfold quiet in *. cbn [sfilter]. now rewrite E. }
        specialize (IH H0). lia. }
  assert (Q : forall t, quiet t -> escape_string t = t).
  { induction t as [|a t IH]; intros H; [reflexivity |].
    unfold quiet in H. cbn [sfilter] in H.
    destruct (special a) eqn:E; [discriminate H |].
    rewrite escape_string_cons, (escape_one_plain a E), (IH H). reflexivity. }
  split.
  - split.
    + intros H. apply escapeHtml_VStr in H.
      destruct (string_dec (sfilter special s) EmptyString) as [q|n];
        [exact q |].
      apply L in n. rewrite <- H in n. lia.
    + intros H. cbn. now rewrite (Q s H).
  - intros H h Hh. apply escapeHtml_VStr in Hh. subst h. now apply L.
Qed.

(** ** Trimming twice *)

Lemma trimStart_space1 (a : ascii) (r : string) :
  ascii_ws a = true -> trimStart (String a r) = trimStart r.
Proof. intros H. cbn [trimStart]. now rewrite H. Qed.

Lemma trimStart_space2 (a b : ascii) (r : string) :
  ascii_ws a = false -> ws2 a b = true ->
  trimStart (String a (String b r)) = trimStart r.
Proof. intros H1 H2. cbn [trimStart]. now rewrite H1, H2. Qed.

Lemma trimStart_space3 (a b c : ascii) (r : string) :
  ascii_ws a = false -> ws2 a b = false -> ws3 a b c = true ->
  trimStart (String a (String b (String c r))) = trimStart r.
Proof. intros H1 H2 H3. cbn [trimStart]. now rewrite H1, H2, H3. Qed.

Lemma opens_text_fixed (s : string) : opens_text s -> trimStart s = s.
Proof.
  destruct s as [|a [|b [|c r]]]; cbn [opens_text trimStart].
  - reflexivity.
  - now intros [-> _].
  - now intros [-> [-> _]].
  - now intros [-> [-> ->]].
Qed.

(** Induction along the white space [trimStart] passes over. *)
Lemma trimStart_cases (P : string -> Prop) :
  (forall s, opens_text s -> P s) ->
  (forall a r, ascii_ws a = true -> P r -> P (String a r)) ->
  (forall a b r, ascii_ws a = false -> ws2 a b = true ->
                 P r -> P (String a (String b r))) ->
  (forall a b c r, ascii_ws a = false -> ws2 a b = false ->
                   ws3 a b c = true ->
                   P r -> P (String a (String b (String c r)))) ->
  forall s, P s.
Proof.
  intros H0 H1 H2 H3 s.
  remember (String.length s) as n eqn:Hn.
  assert (Hle : String.length s <= n) by lia. clear Hn.
  revert s Hle. induction n as [|n IH]; intros s Hle.
  - destruct s; [now apply H0 | cbn in Hle; lia].
  - destruct s as [|a r1]; [now apply H0 |].
    cbn [String.length] in Hle.
    destruct (ascii_ws a) eqn:Ea.
    { apply H1; [exact Ea | apply IH; lia]. }
    destruct r1 as [|b r2]; [apply H0; cbn; now rewrite Ea |].
    cbn [String.length] in Hle.
    destruct (ws2 a b) eqn:Eb.
    { apply H2; [exact Ea | exact Eb | apply IH; lia]. }
    destruct r2 as [|c r3]; [apply H0; cbn; now rewrite Ea, Eb |].
    cbn [String.length] in Hle.
    destruct (ws3 a b c) eqn:Ec.
    { apply H3; [exact Ea | exact Eb | exact Ec | apply IH; lia]. }
    apply H0. cbn. now rewrite Ea, Eb, Ec.
Qed.

Lemma trimStart_length (s : string) :
  String.length (trimStart s) <= String.length s.
Proof.
  induction s using trimStart_cases.
  - now rewrite opens_text_fixed.
  - rewrite trimStart_space1 by assumption. cbn [String.length]. lia.
  - rewrite trimStart_space2 by assumption. cbn [String.length]. lia.
  - rewrite trimStart_space3 by assumption. cbn [String.length]. lia.
Qed.

Lemma fixed_opens_text (s : string) : trimStart s = s -> opens_text s.
Proof.
  induction s using trimStart_cases; [easy | | |]; intros E;
    exfalso; pose proof (trimStart_length s) as L.
  - rewrite trimStart_space1 in E by assumption. rewrite E in L.
    cbn [String.length] in L. lia.
  - rewrite trimStart_space2 in E by assumption. rewrite E in L.
    cbn [String.length] in L. lia.
  - rewrite trimStart_space3 in E by assumption. rewrite E in L.
    cbn [String.length] in L. lia.
Qed.

Lemma trimStart_opens_text (s : string) : opens_text (trimStart s).
Proof.
  induction s using trimStart_cases.
  - now rewrite opens_text_fixed.
  - now rewrite trimStart_space1.
  - now rewrite trimStart_space2.
  - now rewrite trimStart_space3.
Qed.

Lemma trimStart_idem (s : string) : trimStart (trimStart s) = trimStart s.
Proof. apply opens_text_fixed, trimStart_opens_text. Qed.

(** White space in front of any text is passed over. *)
Lemma trimStart_app_space (p w : string) :
  trimStart p = EmptyString -> trimStart (p ++ w) = trimStart w.
Proof.
  induction p using trimStart_cases; intros E.
  - rewrite opens_text_fixed in E by assumption. now subst.
  - rewrite trimStart_space1 in E by assumption.
    cbn [append]. rewrite trimStart_space1 by assumption. now apply IHp.
  - rewrite trimStart_space2 in E by assumption.
    cbn [append]. rewrite trimStart_space2 by assumption. now apply IHp.
  - rewrite trimStart_space3 in E by assumption.
    cbn [append]. rewrite trimStart_space3 by assumption. now apply IHp.
Qed.

(** [trimEnd] cuts a tail of white space off. *)
Lemma trimEnd_split (s : string) :
  exists w, s = trimEnd s ++ w /\ trimStart w = EmptyString.
Proof.
  induction s as [|a s (w & Hs & Hw)].
  - now exists EmptyString.
  - cbn [trimEnd]. destruct (is_empty (trimStart (String a s))) eqn:E.
    + exists (String a s). split; [reflexivity |].
      now destruct (trimStart (String a s)).
    + exists w. split; [| exact Hw]. cbn [append]. now rewrite <- Hs.
Qed.

Lemma trimEnd_keeps_text (s : string) :
  is_empty (trimStart s) = false -> is_empty (trimStart (trimEnd s)) = false.
Proof.
  intros H. destruct (trimEnd_split s) as (w & Hs & Hw).
  destruct (trimStart (trimEnd s)) eqn:E; [| reflexivity].
  rewrite Hs, (trimStart_app_space _ w E), Hw in H. discriminate H.
Qed.

Lemma trimEnd_idem (s : string) : trimEnd (trimEnd s) = trimEnd s.
Proof.
  induction s as [|a s IH]; [reflexivity |].
  cbn [trimEnd]. destruct (is_empty (trimStart (String a s))) eqn:E;
    [reflexivity |].
  pose proof (trimEnd_keeps_text _ E) as K. cbn [trimEnd] in K.
  rewrite E in K. cbn [trimEnd]. now rewrite K, IH.
Qed.

Lemma opens_text_prefix (p w : string) : opens_text (p ++ w) -> opens_text p.
Proof.
  destruct p as [|a [|b [|c r]]]; cbn [append opens_text]; tauto.
Qed.

Lemma trimStart_trimEnd (y : string) :
  trimStart y = y -> trimStart (trimEnd y) = trimEnd y.
Proof.
  intros H. apply opens_text_fixed.
  destruct (trimEnd_split y) as (w & Hs & _).
  apply (opens_text_prefix _ w). rewrite <- Hs. now apply fixed_opens_text.
Qed.

Lemma trim_idem (s : string) : trim (trim s) = trim s.
Proof.
  unfold trim.
  rewrite (trimStart_trimEnd (trimStart s) (trimStart_idem s)).
  apply trimEnd_idem.
Qed.

(** ** Formatting what is already formatted *)

Lemma all_chars_weaken (f g : ascii -> bool) (s : string) :
  (forall a, f a = true -> g a = true) ->
  all_chars f s = true -> all_chars g s = true.
Proof.
  intros W. induction s as [|a s IH]; [reflexivity |].
  cbn [all_chars]. intros H. apply andb_true_iff in H as [Ha Hs].
  now rewrite (W a Ha), (IH Hs).
Qed.

Lemma all_chars_list (f : ascii -> bool) (l : list ascii) :
  all_chars f (string_of_list_ascii l) = forallb f l.
Proof. induction l as [|a l IH]; [reflexivity |]. cbn. now rewrite IH. Qed.

Lemma forallb_list_of_string (f : ascii -> bool) (s : string) :
  forallb f (list_ascii_of_string s) = all_chars f s.
Proof. induction s as [|a s IH]; [reflexivity |]. cbn. now rewrite IH. Qed.

Lemma forallb_rev {A : Type} (f : A -> bool) (l : list A) :
  forallb f (rev l) = forallb f l.
Proof.
  induction l as [|a l IH]; [reflexivity |].
  cbn [rev forallb]. rewrite forallb_app, IH. cbn. rewrite andb_true_r.
  apply andb_comm.
Qed.

Lemma digit_plain (a : ascii) : digit_or_comma a = true -> plain a = true.
Proof. each_ascii a; cbn; intros H; try reflexivity; discriminate H. Qed.

Lemma trimEnd_all_plain (s : string) :
  all_chars plain s = true -> trimEnd s = s.
Proof.
  induction s as [|a s IH]; [reflexivity |].
  cbn [all_chars]. intros H. apply andb_true_iff in H as [Ha Hs].
  cbn [trimEnd]. rewrite (trimStart_plain a s Ha). cbn [is_empty].
  now rewrite (IH Hs).
Qed.

Lemma trim_all_plain (s : string) : all_chars plain s = true -> trim s = s.
Proof.
  intros H. unfold trim. destruct s as [|a s]; [reflexivity |].
  pose proof H as H'. cbn [all_chars] in H'.
  apply andb_true_iff in H' as [Ha _].
  rewrite (trimStart_plain a s Ha). now apply trimEnd_all_plain.
Qed.

Lemma group_rev_cases (P : list ascii -> Prop) :
  (forall l, length l <= 3 -> P l) ->
  (forall a b c d rest,
      P (d :: rest) -> P (a :: b :: c :: d :: rest)) ->
  forall l, P l.
Proof.
  intros H0 H1 l.
  remember (length l) as n eqn:Hn.
  assert (Hle : length l <= n) by lia. clear Hn.
  revert l Hle. induction n as [|n IH]; intros l Hle.
  - apply H0. lia.
  - destruct l as [|a [|b [|c [|d rest]]]]; try (apply H0; cbn; lia).
    apply H1. apply IH. cbn [length] in *. lia.
Qed.

Lemma group_rev_short (l : list ascii) : length l <= 3 -> group_rev l = l.
Proof.
  destruct l as [|a [|b [|c [|d rest]]]]; try reflexivity.
  cbn [length]. lia.
Qed.

Lemma group_rev_long (a b c d : ascii) (rest : list ascii) :
  group_rev (a :: b :: c :: d :: rest)
  = a :: b :: c :: ","%char :: group_rev (d :: rest).
Proof. reflexivity. Qed.

Lemma group_rev_digits (l : list ascii) :
  forallb is_digit l = true -> forallb digit_or_comma (group_rev l) = true.
Proof.
  induction l using group_rev_cases; intros Hl.
  - rewrite group_rev_short by assumption.
    rewrite forallb_forall in *. intros x Hx. unfold digit_or_comma.
    now rewrite (Hl x Hx).
  - rewrite group_rev_long.
    cbn [forallb] in Hl.
    apply andb_true_iff in Hl as [Ha Hl].
    apply andb_true_iff in Hl as [Hb Hl].
    apply andb_true_iff in Hl as [Hc Hl].
    cbn [forallb]. unfold digit_or_comma at 1 2 3.
    rewrite Ha, Hb, Hc. cbn [orb andb].
    change (digit_or_comma ","%char) with true. cbn [andb].
    apply IHl. exact Hl.
Qed.

Lemma group_thousands_chars (digits : string) :
  all_chars is_digit digits = true ->
  all_chars digit_or_comma (group_thousands digits) = true.
Proof.
  intros H. unfold group_thousands.
  rewrite all_chars_list, forallb_rev. apply group_rev_digits.
  now rewrite forallb_rev, forallb_list_of_string.
Qed.

Lemma includes_forallb (c : ascii) (l : list ascii) :
  includes c (string_of_list_ascii l) = existsb (Ascii.eqb c) l.
Proof.
  induction l as [|a l IH]; [reflexivity |]. cbn. rewrite IH.
  now rewrite Ascii.eqb_sym.
Qed.

Lemma existsb_rev {A : Type} (f : A -> bool) (l : list A) :
  existsb f (rev l) = existsb f l.
Proof.
  induction l as [|a l IH]; [reflexivity |].
  cbn [rev existsb]. rewrite existsb_app, IH. cbn. rewrite orb_false_r.
  apply orb_comm.
Qed.

(** Without a group symbol in it, the grouped text is the text of the
    digits. *)
Lemma group_thousands_no_comma (digits : string) :
  includes ","%char (group_thousands digits) = false ->
  group_thousands digits = digits.
Proof.
  unfold group_thousands. rewrite includes_forallb, existsb_rev.
  intros H.
  assert (S : length (rev (list_ascii_of_string digits)) <= 3).
  { destruct (rev (list_ascii_of_string digits))
      as [|a [|b [|c [|d rest]]]]; cbn [length]; try lia.
    rewrite group_rev_long in H. cbn in H.
    rewrite !orb_true_r in H. discriminate H. }
  rewrite (group_rev_short _ S), rev_involutive.
  apply string_of_list_ascii_of_string.
Qed.

Lemma uint_digits (d : Decimal.uint) :
  all_chars is_digit (NilEmpty.string_of_uint d) = true.
Proof. induction d; cbn; auto. Qed.

Lemma string_of_N_NilEmpty (n : N) :
  string_of_N n = NilEmpty.string_of_uint (N.to_uint n).
Proof.
  unfold string_of_N, NilZero.string_of_uint.
  destruct (N.to_uint n) eqn:E; try reflexivity.
  destruct n as [|p]; [discriminate E |].
  now apply DecimalPos.Unsigned.to_uint_nonnil in E.
Qed.

Lemma string_of_N_digits (n : N) : all_chars is_digit (string_of_N n) = true.
Proof. rewrite string_of_N_NilEmpty. apply uint_digits. Qed.

Lemma digits_value_uint (d : Decimal.uint) (acc : N) :
  digits_value acc (NilEmpty.string_of_uint d)
  = (DecimalPos.Unsigned.of_lu (Decimal.rev d)
     + acc * 10 ^ DecimalPos.Unsigned.usize d)%N.
Proof.
  revert acc.
  induction d; intros acc;
    [cbn; lia | ..];
    cbn [NilEmpty.string_of_uint digits_value];
    unfold Decimal.rev; cbn [Decimal.revapp];
    rewrite DecimalPos.Unsigned.of_lu_revapp, IHd;
    cbn [DecimalPos.Unsigned.usize];
    rewrite N.pow_succ_r';
    cbn [DecimalPos.Unsigned.of_lu];
    simpl (N.of_nat _);
    ring.
Qed.

Lemma digits_value_string_of_N (n : N) : digits_value 0 (string_of_N n) = n.
Proof.
  rewrite string_of_N_NilEmpty, digits_value_uint.
  rewrite <- DecimalPos.Unsigned.of_uint_alt.
  rewrite N.mul_0_l, N.add_0_r.
  exact (DecimalN.Unsigned.of_to n).
Qed.

Lemma strip_digits (s : string) :
  all_chars is_digit s = true -> strip_non_numeric s = s.
Proof.
  induction s as [|a s IH]; [reflexivity |].
  cbn [all_chars strip_non_numeric]. intros H.
  apply andb_true_iff in H as [Ha Hs]. now rewrite Ha, (IH Hs).
Qed.

Lemma split_dot_digits (s : string) :
  all_chars is_digit s = true -> split_dot s = (s, None).
Proof.
  induction s as [|a s IH]; [reflexivity |].
  cbn [all_chars split_dot]. intros H.
  apply andb_true_iff in H as [Ha Hs].
  assert (Hd : is_dot a = false).
  { destruct (is_dot a) eqn:D; [| reflexivity].
    rewrite (is_dot_not_digit a D) in Ha. discriminate Ha. }
  rewrite Hd, (IH Hs). reflexivity.
Qed.

Lemma fmtCurrency_of_text (v : value) (p : string) :
  fmtCurrency v = Ok p -> exists s, fmtCurrency (VStr s) = Ok p.
Proof.
  unfold fmtCurrency at 1. intros H. apply bind_Ok in H as (s & _ & H).
  exists s. rewrite fmtCurrency_unfold. rewrite <- H. cbv zeta.
  destruct (is_empty (trim s)); [reflexivity |].
  destruct (includes "$"%char (trim s) || includes ","%char (trim s));
    [reflexivity |].
  now destruct (negb (isFinite (Number (strip_non_numeric (trim s))))).
Qed.

Lemma fmtNumber_of_text (v : value) (p : string) :
  fmtNumber v = Ok p -> exists s, fmtNumber (VStr s) = Ok p.
Proof.
  unfold fmtNumber at 1. intros H. apply bind_Ok in H as (s & _ & H).
  exists s. rewrite fmtNumber_unfold. rewrite <- H. cbv zeta.
  destruct (is_empty (trim s)); [reflexivity |].
  destruct (includes ","%char (trim s)); [reflexivity |].
  now destruct (negb (isFinite (Number (strip_non_numeric (trim s))))).
Qed.

Lemma grouped_plain (n : N) :
  all_chars plain (group_thousands (string_of_N n)) = true.
Proof.
  apply (all_chars_weaken digit_or_comma plain _ digit_plain).
  apply group_thousands_chars, string_of_N_digits.
Qed.

Lemma fmtCurrency_twice (s p : string) :
  fmtCurrency (VStr s) = Ok p -> fmtCurrency (VStr p) = Ok p.
Proof.
  rewrite fmtCurrency_unfold. cbv zeta. intros H. apply Ok_inj in H.
  destruct (is_empty (trim s)) eqn:E; [now subst p |].
  assert (K : fmtCurrency (VStr (trim s)) = Ok (trim s) -> 
              p = trim s -> fmtCurrency (VStr p) = Ok p)
    by (now intros K ->).
  destruct (includes "$"%char (trim s) || includes ","%char (trim s)) eqn:I.
  { apply K; [| easy]. rewrite fmtCurrency_unfold. cbv zeta.
    now rewrite trim_idem, E, I. }
  destruct (Number (strip_non_numeric (trim s))) as [| |w f] eqn:Nn;
    cbn [isFinite negb] in H.
  1, 2: apply K; [| easy]; rewrite fmtCurrency_unfold; cbv zeta;
    now rewrite trim_idem, E, I, Nn.
  subst p. cbn [format_currency format_integer].
  rewrite fmtCurrency_unfold. cbv zeta.
  set (g := group_thousands (string_of_N (round_half_expand w f))).
  assert (P : all_chars plain ("$" ++ g) = true)
    by (cbn [append all_chars]; unfold g; now rewrite grouped_plain).
  rewrite (trim_all_plain _ P). reflexivity.
Qed.

Lemma fmtNumber_twice (s p : string) :
  fmtNumber (VStr s) = Ok p -> fmtNumber (VStr p) = Ok p.
Proof.
  rewrite fmtNumber_unfold. cbv zeta. intros H. apply Ok_inj in H.
  destruct (is_empty (trim s)) eqn:E; [now subst p |].
  assert (K : fmtNumber (VStr (trim s)) = Ok (trim s) -> 
              p = trim s -> fmtNumber (VStr p) = Ok p)
    by (now intros K ->).
  destruct (includes ","%char (trim s)) eqn:I.
  { apply K; [| easy]. rewrite fmtNumber_unfold. cbv zeta.
    now rewrite trim_idem, E, I. }
  destruct (Number (strip_non_numeric (trim s))) as [| |w f] eqn:Nn;
    cbn [isFinite negb] in H.
  1, 2: apply K; [| easy]; rewrite fmtNumber_unfold; cbv zeta;
    now rewrite trim_idem, E, I, Nn.
  subst p. cbn [format_integer].
  rewrite fmtNumber_unfold. cbv zeta.
  set (m := round_half_expand w f).
  rewrite (trim_all_plain _ (grouped_plain m)).
  destruct (is_empty (group_thousands (string_of_N m))) eqn:Eg.
  { now destruct (group_thousands (string_of_N m)). }
  destruct (includes ","%char (group_thousands (string_of_N m))) eqn:Ig;
    [reflexivity |].
  pose proof (group_thousands_no_comma _ Ig) as G.
  rewrite G.
  rewrite (strip_digits _ (string_of_N_digits m)).
  unfold Number. rewrite (split_dot_digits _ (string_of_N_digits m)).
  rewrite digits_value_string_of_N. unfold finite_or_infinity.
  destruct (N.leb double_overflow m); cbn [isFinite negb]; [reflexivity |].
  cbn [format_integer round_half_expand]. now rewrite G.
Qed.

(** X12.  Formatting is idempotent: the text [fmtCurrency] returns for a
    price is returned as it is when it is formatted again, and so is the
    text [fmtNumber] returns for an area. *)
Theorem formatting_idempotent (v : value) :
  (forall p, fmtCurrency v = Ok p -> fmtCurrency (VStr p) = Ok p)
  /\ (forall p, fmtNumber v = Ok p -> fmtNumber (VStr p) = Ok p).
Proof.
  split; intros p H.
  - apply fmtCurrency_of_text in H as (s & H). exact (fmtCurrency_twice s p H).
  - apply fmtNumber_of_text in H as (s & H). exact (fmtNumber_twice s p H).
Qed.

Lemma strip_nothing (t : string) :
  has_digit t = false -> includes "."%char t = false ->
  strip_non_numeric t = EmptyString.
Proof.
  induction t as [|a t IH]; [reflexivity |].
  cbn [has_digit includes strip_non_numeric]. intros Hd Hp.
  apply orb_false_iff in Hd as [Ha Hd]. apply orb_false_iff in Hp as [Hb Hp].
  unfold is_dot. rewrite Ha, Hb. cbn [orb]. now apply IH.
Qed.

(** X22.  A text without a digit is read as the number 0: every text that
    is not blank and holds no digit, dot, [$] or comma is answered as [$0]
    by [fmtCurrency] and as [0] by [fmtNumber], not as the text itself. *)
Theorem formats_zero_without_digit (s : string) :
  is_empty (trim s) = false ->
  has_digit (trim s) = false ->
  includes "."%char (trim s) = false ->
  includes "$"%char (trim s) = false ->
  includes ","%char (trim s) = false ->
  fmtCurrency (VStr s) = Ok "$0" /\ fmtNumber (VStr s) = Ok "0".
Proof.
  intros He Hn Hp Hd Hc.
  pose proof (strip_nothing (trim s) Hn Hp) as Hs.
  rewrite fmtCurrency_unfold, fmtNumber_unfold. cbv zeta.
  rewrite He, Hd, Hc, Hs. cbn [orb]. split; reflexivity.
Qed.

(** ** The title and the description of a generated listing *)

Lemma trimStart_suffix (s : string) : exists p, s = p ++ trimStart s.
Proof.
  induction s using trimStart_cases.
  - exists EmptyString. now rewrite opens_text_fixed.
  - destruct IHs as (p & Hp). exists (String a p).
    rewrite trimStart_space1 by assumption. cbn [append]. now rewrite <- Hp.
  - destruct IHs as (p & Hp). exists (String a (String b p)).
    rewrite trimStart_space2 by assumption. cbn [append]. now rewrite <- Hp.
  - destruct IHs as (p & Hp). exists (String a (String b (String c p))).
    rewrite trimStart_space3 by assumption. cbn [append]. now rewrite <- Hp.
Qed.

(** [trim] cuts a text out of the one it is given. *)
Lemma trim_within (s : string) : exists p w, s = p ++ trim s ++ w.
Proof.
  destruct (trimStart_suffix s) as (p & Hp).
  destruct (trimEnd_split (trimStart s)) as (w & Hw & _).
  exists p, w. unfold trim. now rewrite <- Hw.
Qed.

Lemma includes_within (c : ascii) (p x w s : string) :
  s = p ++ x ++ w -> includes c s = false -> includes c x = false.
Proof.
  intros -> H. rewrite !includes_app in H.
  apply orb_false_iff in H as [_ H]. now apply orb_false_iff in H as [H _].
Qed.

Lemma js_length_app (a b : string) :
  js_length (a ++ b) = js_length a + js_length b.
Proof. induction a as [|x a IH]; [reflexivity |]. cbn. rewrite IH. lia. Qed.

Lemma drop_last_quote_within (s : string) :
  exists w, s = drop_last_quote s ++ w.
Proof.
  induction s as [|a s (w & Hw)]; [now exists EmptyString |].
  destruct s as [|b s].
  - cbn. destruct (is_quote a); [now exists (String a EmptyString) |].
    now exists EmptyString.
  - exists w. change (drop_last_quote (String a (String b s)))
      with (String a (drop_last_quote (String b s))).
    cbn [append]. now rewrite <- Hw.
Qed.

Lemma strip_quotes_within (s : string) :
  exists p w, s = p ++ strip_quotes s ++ w.
Proof.
  destruct s as [|a s]; [now exists EmptyString, EmptyString |].
  cbn [strip_quotes]. destruct (is_quote a).
  - destruct (drop_last_quote_within s) as (w & Hw).
    exists (String a EmptyString), w. cbn [append]. now rewrite <- Hw.
  - destruct (drop_last_quote_within (String a s)) as (w & Hw).
    exists EmptyString, w. exact Hw.
Qed.

Lemma js_length_within (p x w s : string) :
  s = p ++ x ++ w -> js_length x <= js_length s.
Proof. intros ->. rewrite !js_length_app. lia. Qed.

Lemma split_lines_nonempty (s : string) : split_lines s <> [].
Proof.
  induction s as [|a s IH]; [discriminate |].
  cbn [split_lines]. destruct (Ascii.eqb a "010"%char); [discriminate |].
  now destruct (split_lines s).
Qed.

Lemma split_lines_no_break (s : string) :
  Forall (fun l => includes "010"%char l = false) (split_lines s).
Proof.
  induction s as [|a s IH]; [now repeat constructor |].
  cbn [split_lines]. destruct (Ascii.eqb a "010"%char) eqn:E.
  - now constructor.
  - destruct (split_lines s) as [|line lines].
    + constructor; [| constructor]. cbn [includes]. now rewrite E.
    + inversion IH as [|? ? Hl Hls]; subst. constructor; [| exact Hls].
      cbn [includes]. now rewrite Hl, E.
Qed.

Lemma default_title_length : js_length "Property Listing" = 16.
Proof. vm_compute. reflexivity. Qed.

(** The title [generateWithOpenAI] reads from a completion. *)
Lemma read_completion_title (data : value) (title content : string) :
  read_completion data = Ok (title, content) ->
  js_length title <= 90
  /\ includes "010"%char title = false
  /\ trim content = content.
Proof.
  unfold read_completion. intros H.
  apply bind_Ok in H as (trimmed & Ht & H).
  apply bind_Ok in H as (c & Hc & H).
  apply Ok_inj in H. injection H as Htitle <-.
  assert (Tc : trim c = c).
  { destruct (get_opt "content" (first_message (get_opt "choices" data)))
      as [| |b|n|s|xs|fields];
      try discriminate Ht; cbn in Ht; apply Ok_inj in Ht; subst trimmed.
    1, 2: cbn in Hc; apply Ok_inj in Hc; now subst c.
    unfold js_or in Hc. cbn [truthy] in Hc.
    destruct (String.eqb (trim s) EmptyString); cbn in Hc;
      apply Ok_inj in Hc; subst c; [reflexivity | apply trim_idem]. }
  split; [| split; [| exact Tc]].
  - subst title.
    destruct (strip_quotes_within
                match filter not_empty (map trim (split_lines c)) with
                | [] => "Property Listing"
                | first :: _ =>
                    if Nat.leb (js_length first) 90 then first
                    else "Property Listing"
                end) as (p & w & E).
    apply js_length_within in E. etransitivity; [exact E |].
    destruct (filter not_empty (map trim (split_lines c))) as [|first rest];
      [rewrite default_title_length; lia |].
    destruct (Nat.leb_spec (js_length first) 90);
      [assumption | rewrite default_title_length; lia].
  - subst title.
    match goal with
    | |- includes _ (strip_quotes ?x) = false =>
        destruct (strip_quotes_within x) as (p & w & E);
        apply (includes_within _ p _ w x E)
    end.
    destruct (filter not_empty (map trim (split_lines c))) as [|first rest]
      eqn:F; [reflexivity |].
    destruct (Nat.leb (js_length first) 90); [| reflexivity].
    assert (I : In first (filter not_empty (map trim (split_lines c))))
      by (rewrite F; now left).
    apply filter_In in I as [I _]. apply in_map_iff in I as (l & <- & I).
    pose proof (split_lines_no_break c) as B.
    rewrite Forall_forall in B. specialize (B l I).
    destruct (trim_within l) as (p' & w' & E').
    exact (includes_within _ p' _ w' l E' B).
Qed.

(** *** The title rule *)

Lemma split_lines_first (s : string) :
  exists rest, split_lines s = first_line s :: rest.
Proof.
  induction s as [|a s (rest & IH)]; [now exists [] |].
  cbn [split_lines first_line].
  destruct (Ascii.eqb a "010"%char); [now eexists |].
  rewrite IH. now eexists.
Qed.

Lemma first_line_prefix (s : string) : exists w, s = first_line s ++ w.
Proof.
  induction s as [|a s (w & IH)]; [now exists EmptyString |].
  cbn [first_line]. destruct (Ascii.eqb a "010"%char).
  - now exists (String a s).
  - exists w. cbn [append]. now rewrite <- IH.
Qed.

Lemma trimStart_trim (s : string) : trimStart (trim s) = trim s.
Proof. unfold trim. apply trimStart_trimEnd, trimStart_idem. Qed.

Lemma trimEnd_not_empty (s : string) :
  is_empty (trimStart s) = false -> is_empty (trimEnd s) = false.
Proof. destruct s as [|a s]; [easy |]. cbn [trimEnd]. now intros ->. Qed.

(** A completion that was trimmed and is not empty opens with its title
    line: no blank line stands before it. *)
Lemma first_line_not_blank (s : string) :
  is_empty (trim s) = false ->
  trim (first_line (trim s)) = trimEnd (first_line (trim s))
  /\ is_empty (trim (first_line (trim s))) = false.
Proof.
  intros H.
  pose proof (fixed_opens_text _ (trimStart_trim s)) as O.
  destruct (first_line_prefix (trim s)) as (w & E).
  assert (O1 : opens_text (first_line (trim s))).
  { apply (opens_text_prefix _ w). now rewrite <- E. }
  assert (N : is_empty (first_line (trim s)) = false).
  { destruct (trim s) as [|a c]; [discriminate H |].
    cbn [opens_text] in O. destruct O as [Ha _]. cbn [first_line].
    destruct (Ascii.eqb_spec a "010"%char) as [->|_]; [discriminate Ha |].
    reflexivity. }
  assert (T : trimStart (first_line (trim s)) = first_line (trim s))
    by now apply opens_text_fixed.
  unfold trim at 1 4. rewrite T. split; [reflexivity |].
  apply trimEnd_not_empty. now rewrite T.
Qed.

Lemma completion_lines (s : string) :
  match filter not_empty (map trim (split_lines (trim s))) with
  | [] => is_empty (trim s) = true
  | first :: _ =>
      is_empty (trim s) = false /\ first = trim (first_line (trim s))
  end.
Proof.
  destruct (is_empty (trim s)) eqn:E.
  - destruct (trim s); [reflexivity | discriminate E].
  - destruct (first_line_not_blank s E) as [_ N].
    destruct (split_lines_first (trim s)) as (rest & ->).
    cbn [map filter]. unfold not_empty at 1. rewrite N. cbn [negb].
    now split.
Qed.

Lemma ends_with_quote_cons (a b : ascii) (s : string) :
  ends_with_quote (String a (String b s)) = ends_with_quote (String b s).
Proof.
  unfold ends_with_quote. cbn [list_ascii_of_string rev].
  destruct (rev (list_ascii_of_string s) ++ [b])%list eqn:E; [| reflexivity].
  now destruct (rev (list_ascii_of_string s)).
Qed.

Lemma drop_last_quote_spec (s : string) :
  drop_last_quote s = if ends_with_quote s then without_last s else s.
Proof.
  induction s as [|a s IH]; [reflexivity |].
  destruct s as [|b s].
  - cbn. now destruct (is_quote a).
  - change (drop_last_quote (String a (String b s)))
      with (String a (drop_last_quote (String b s))).
    rewrite IH, ends_with_quote_cons.
    destruct (ends_with_quote (String b s)); reflexivity.
Qed.

Lemma strip_quotes_unquoted (s : string) : strip_quotes s = unquoted s.
Proof.
  unfold unquoted. destruct s as [|a s]; [reflexivity |].
  cbn [strip_quotes]. destruct (is_quote a); apply drop_last_quote_spec.
Qed.

Lemma call_trim_text (data : value) (trimmed : value) (c : string) :
  call_trim (get_opt "content" (first_message (get_opt "choices" data)))
  = Ok trimmed ->
  ToString (js_or trimmed (VStr EmptyString)) = Ok c ->
  c = completion_text data.
Proof.
  unfold completion_text.
  destruct (get_opt "content" (first_message (get_opt "choices" data)))
    as [| |b|n|s|xs|fields]; intros Ht Hc;
    try discriminate Ht; cbn in Ht; apply Ok_inj in Ht; subst trimmed.
  1, 2: cbn in Hc; apply Ok_inj in Hc; now subst c.
  unfold js_or in Hc. cbn [truthy] in Hc.
  destruct (String.eqb_spec (trim s) EmptyString) as [E|_]; cbn in Hc;
    apply Ok_inj in Hc; subst c; [now rewrite E | reflexivity].
Qed.

Lemma completion_text_trimmed (data : value) :
  exists s, completion_text data = trim s.
Proof.
  unfold completion_text.
  destruct (get_opt "content" (first_message (get_opt "choices" data)));
    try (now exists EmptyString).
  now eexists.
Qed.

(** What [generateWithOpenAI] reads from the answer of the service is the
    text of the completion and, but for the stand-in for an empty title,
    the title of the rule. *)
Lemma read_completion_rule (data : value) (title content : string) :
  read_completion data = Ok (title, content) ->
  content = completion_text data
  /\ title_rule content
     = if is_empty title then "Property Listing" else title.
Proof.
  unfold read_completion. intros H.
  apply bind_Ok in H as (trimmed & Ht & H).
  apply bind_Ok in H as (c & Hc & H).
  apply Ok_inj in H. injection H as Htitle <-.
  pose proof (call_trim_text data trimmed c Ht Hc) as E.
  split; [exact E |].
  destruct (completion_text_trimmed data) as (s & Es).
  rewrite Es in E. subst c.
  unfold title_rule. cbv zeta.
  pose proof (completion_lines s) as L.
  destruct (filter not_empty (map trim (split_lines (trim s))))
    as [|first rest].
  - assert (F : trim (first_line (trim s)) = EmptyString).
    { destruct (trim s); [reflexivity | discriminate L]. }
    rewrite F. cbn [is_empty orb].
    rewrite <- strip_quotes_unquoted, Htitle. reflexivity.
  - destruct L as [Z ->].
    destruct (first_line_not_blank s Z) as [_ N].
    rewrite N. cbn [orb].
    rewrite Nat.ltb_antisym, <- strip_quotes_unquoted.
    destruct (Nat.leb (js_length (trim (first_line (trim s)))) 90);
      cbn [negb]; rewrite Htitle; reflexivity.
Qed.

Section CompletionFacts.

Variable env_key : option string.
Variable env_model : option string.
Variable fetch : string -> string -> string -> reply.
Variable fresh_id : string.
Variable created_at : string.

Local Abbreviation route :=
  (generate_route env_key env_model fetch fresh_id created_at).
Local Abbreviation service := (generateWithOpenAI env_key env_model fetch).

Lemma generateWithOpenAI_title (prompt title content : string) :
  service prompt = Ok (title, content) ->
  js_length title <= 90
  /\ includes "010"%char title = false
  /\ trim content = content.
Proof.
  unfold generateWithOpenAI.
  destruct (is_empty (OPENAI_API_KEY env_key)).
  - intros H. apply Ok_inj in H. injection H as <- <-.
    split; [rewrite default_title_length; lia |].
    split; vm_compute; reflexivity.
  - unfold request_completion.
    destruct (fetch _ _ prompt) as [| |[data|]]; try discriminate.
    cbn [bind]. apply read_completion_title.
Qed.

Lemma generate_listing_steps (has : bool)
  (generate : string -> result (string * string)) (body listing : value) :
  generate_listing has generate fresh_id created_at body
  = Json 200 (VObj [("ok", VBool true); ("listing", listing)]) ->
  exists prompt generated,
    has = true
    /\ buildPrompt (js_or body (VObj [])) = Ok prompt
    /\ generate prompt = Ok generated
    /\ new_listing fresh_id created_at (js_or body (VObj [])) generated
       = Ok listing.
Proof.
  unfold generate_listing. destruct has; [| discriminate].
  cbn [negb].
  destruct (buildPrompt (js_or body (VObj []))) as [prompt|];
    [| discriminate].
  cbn [bind].
  destruct (generate prompt) as [generated|] eqn:G; [| discriminate].
  cbn [bind].
  destruct (new_listing fresh_id created_at (js_or body (VObj [])) generated)
    as [l|] eqn:E; [| discriminate].
  cbn [bind]. intros H. exists prompt, generated.
  repeat split; try assumption. congruence.
Qed.

Lemma new_listing_texts (input : value) (generated : string * string)
  (listing : value) :
  new_listing fresh_id created_at input generated = Ok listing ->
  get_opt "title" listing
  = js_or (VStr (fst generated)) (VStr "Property Listing")
  /\ get_opt "description" listing
     = js_or (VStr (snd generated)) (VStr EmptyString).
Proof.
  unfold new_listing. intros H.
  inv_bind H.
  repeat (let x := fresh "x" in
          let E := fresh "E" in
          apply bind_Ok in H as (x & E & H)).
  apply Ok_inj in H. subst. split; reflexivity.
Qed.

(** With a key set, the service is asked, and its answer is read. *)
Lemma service_answer (prompt title content : string) :
  hasOpenAIKey env_key = true ->
  service prompt = Ok (title, content) ->
  exists data,
    fetch (OPENAI_API_KEY env_key) (OPENAI_MODEL env_model) prompt
    = Answered (Ok data)
    /\ read_completion data = Ok (title, content).
Proof.
  intros K. unfold generateWithOpenAI.
  assert (E : is_empty (OPENAI_API_KEY env_key) = false).
  { unfold hasOpenAIKey in K. unfold OPENAI_API_KEY, env_or.
    destruct env_key as [k|]; [| discriminate K].
    unfold not_empty in K. destruct (is_empty k) eqn:Z; [discriminate K |].
    exact Z. }
  rewrite E. unfold request_completion.
  destruct (fetch _ _ prompt) as [| |[data|]]; try discriminate.
  cbn [bind]. intros H. now exists data.
Qed.

(** X13.  The title and the description of a generated listing are read
    from the completion: when [POST /api/listings/generate] answers 200, the
    service was asked with the prompt of the body and answered, the
    description of the listing is the text of the completion, trimmed, and
    its title is the title of the rule for that text: the first line, when
    it has at most 90 UTF-16 code units, without the quotes around it, and
    [Property Listing] when the line is longer, or nothing is left of it,
    or the completion is empty.  The title is never empty, has at most 90
    code units and holds no line feed. *)
Theorem generate_route_title (body listing : value) :
  route body = Json 200 (VObj [("ok", VBool true); ("listing", listing)]) ->
  exists prompt data,
    buildPrompt (js_or body (VObj [])) = Ok prompt
    /\ fetch (OPENAI_API_KEY env_key) (OPENAI_MODEL env_model) prompt
       = Answered (Ok data)
    /\ get_opt "title" listing = VStr (title_rule (completion_text data))
    /\ get_opt "description" listing = VStr (completion_text data)
    /\ title_rule (completion_text data) <> EmptyString
    /\ js_length (title_rule (completion_text data)) <= 90
    /\ includes "010"%char (title_rule (completion_text data)) = false
    /\ trim (completion_text data) = completion_text data.
Proof.
  unfold generate_route. intros H.
  apply generate_listing_steps in H as (prompt & [t c] & K & P & G & H).
  pose proof (generateWithOpenAI_title _ _ _ G) as (L & B & T).
  apply (service_answer _ _ _ K) in G as (data & F & R).
  apply read_completion_rule in R as (Ec & Et). subst c.
  apply new_listing_texts in H as (Ht & Hd). cbn [fst snd] in Ht, Hd.
  exists prompt, data. split; [exact P |]. split; [exact F |].
  rewrite Et.
  assert (D : js_or (VStr (completion_text data)) (VStr EmptyString)
              = VStr (completion_text data)).
  { unfold js_or. cbn [truthy].
    destruct (String.eqb_spec (completion_text data) EmptyString) as [->|_];
      reflexivity. }
  rewrite D in Hd.
  assert (J : js_or (VStr t) (VStr "Property Listing")
              = VStr (if is_empty t then "Property Listing" else t)).
  { unfold js_or. cbn [truthy]. now destruct t. }
  rewrite J in Ht.
  split; [exact Ht |]. split; [exact Hd |].
  destruct t as [|a t]; cbn [is_empty].
  - split; [discriminate |].
    split; [rewrite default_title_length; lia |].
    split; [reflexivity | exact T].
  - split; [discriminate |]. split; [exact L |]. split; [exact B | exact T].
Qed.

(** X14.  The text [generateWithOpenAI] returns when no key is set never
    reaches a client: without a key the route answers 503 before it asks
    for a completion, and with a key it answers what the request to the
    service gives. *)
Theorem placeholder_unreachable (body : value) :
  route body
  = generate_listing (hasOpenAIKey env_key)
      (request_completion env_key env_model fetch) fresh_id created_at body
  /\ (hasOpenAIKey env_key = false ->
      route body
      = Json 503
          (VObj [("error",
                  VStr "AI generation is disabled (missing OPENAI_API_KEY).")])).
Proof.
  unfold generate_route, generate_listing, generateWithOpenAI,
    OPENAI_API_KEY, hasOpenAIKey, env_or, not_empty.
  destruct env_key as [k|]; [destruct k as [|a k] |]; cbn [is_empty negb];
    split; try reflexivity; discriminate.
Qed.

End CompletionFacts.

(** ** The language rule of the prompt *)

Lemma prefix_refl_app (p x : string) : String.prefix p (p ++ x) = true.
Proof.
  induction p as [|a p IH]; [apply prefix_nil |].
  cbn. destruct (ascii_dec a a); [exact IH | contradiction].
Qed.

Lemma prefix_app_cong (a p s : string) :
  String.prefix p s = true -> String.prefix (a ++ p) (a ++ s) = true.
Proof.
  intros H. induction a as [|x a IH]; [exact H |].
  cbn. destruct (ascii_dec x x); [exact IH | contradiction].
Qed.

Lemma prefix_one_trimEnd (a : ascii) (s : string) :
  has_plain s = true ->
  String.prefix (String a EmptyString) (trimEnd (String a s)) = true.
Proof.
  intros H.
  change (String a s) with (String a EmptyString ++ s).
  rewrite (trimEnd_app_keep _ s H). apply prefix_refl_app.
Qed.

Lemma includes_text_app (needle a b : string) :
  includes_text needle b = true -> includes_text needle (a ++ b) = true.
Proof.
  intros H. induction a as [|x a IH]; [exact H |].
  cbn [append includes_text]. rewrite IH. apply orb_true_r.
Qed.

Lemma includes_text_here (needle b : string) :
  includes_text needle (needle ++ b) = true.
Proof.
  destruct (needle ++ b) eqn:E; cbn [includes_text];
    rewrite <- E, prefix_refl_app; reflexivity.
Qed.

Lemma toLowerCase_app (a b : string) :
  toLowerCase (a ++ b) = toLowerCase a ++ toLowerCase b.
Proof. induction a as [|x a IH]; [reflexivity |]. cbn. now rewrite IH. Qed.

(** The word is found in any letter case, wherever it stands. *)
Lemma spanish_found (a w b : string) :
  toLowerCase w = "spanish" ->
  includes_text "spanish" (toLowerCase (a ++ w ++ b)) = true.
Proof.
  intros H. rewrite !toLowerCase_app, H.
  apply includes_text_app, includes_text_here.
Qed.

Lemma buildPrompt_opening (input : value) (prompt : string) :
  buildPrompt input = Ok prompt ->
  exists tone,
    ToString (js_or (get_opt "tone" input) (VStr "MLS (English)")) = Ok tone
    /\ String.prefix
         (prompt_opening tone
            (if includes_text "spanish" (toLowerCase tone)
             then spanish_rule else english_rule))
         prompt = true.
Proof.
  unfold buildPrompt. intros H.
  apply bind_Ok in H as (tone_field & Ef & H).
  apply get_opt_of_get in Ef. subst tone_field.
  apply bind_Ok in H as (spanish & Es & H).
  unfold test_spanish in Es. apply bind_Ok in Es as (s & Hs & Es).
  apply Ok_inj in Es. subst spanish.
  apply bind_Ok in H as (tone & Ht & H).
  assert (s = tone) by congruence. subst s.
  repeat (let x := fresh "x" in
          let E := fresh "E" in
          apply bind_Ok in H as (x & E & H)).
  apply Ok_inj in H. subst prompt.
  exists tone. split; [exact Ht |].
  set (rule := if includes_text "spanish" (toLowerCase tone)
               then spanish_rule else english_rule).
  assert (R : (if includes_text "spanish" (toLowerCase tone)
               then "Language requirement: Output must be 100% Spanish. Do NOT include English."
               else "Language requirement: Output must be 100% English.")
              = rule) by reflexivity.
  rewrite R. clear R.
  unfold trim.
  match goal with
  | |- context [trimStart (?head ++ ?rest)] =>
      change (trimStart (head ++ rest))
        with (trimStart
                (String "010"%char
                   ("You are an expert real estate listing writer.
Style/Tone: " ++ rest)))
  end.
  rewrite trimStart_space1 by reflexivity.
  match goal with
  | |- context [trimStart (?head ++ ?rest)] =>
      change (head ++ rest)
        with (String "Y"%char
                ("ou are an expert real estate listing writer.
Style/Tone: " ++ rest))
  end.
  rewrite trimStart_plain by reflexivity.
  match goal with
  | |- context [trimEnd (String "Y"%char (?head ++ ?rest))] =>
      change (String "Y"%char (head ++ rest))
        with ("You are an expert real estate listing writer.
Style/Tone: " ++ rest)
  end.
  unfold prompt_opening.
  do 6 (rewrite trimEnd_app_keep
          by (repeat first [reflexivity | apply has_plain_app_r]);
        apply prefix_app_cong).
  apply (prefix_one_trimEnd "010"%char). reflexivity.
Qed.

(** X15.  The prompt opens with the instruction line, the tone in quotes
    and the language rule.  Without a tone the tone is [MLS (English)] and
    the rule asks for English; a tone in which the word [spanish] stands, in
    any letter case and at any place, gets the rule that asks for Spanish,
    and every other tone the rule that asks for English. *)
Theorem buildPrompt_language (input : value) (prompt : string) :
  buildPrompt input = Ok prompt ->
  (truthy (get_opt "tone" input) = false ->
   startsWith (prompt_opening "MLS (English)" english_rule) prompt = true)
  /\ (forall a w b,
        get_opt "tone" input = VStr (a ++ w ++ b) ->
        toLowerCase w = "spanish" ->
        startsWith (prompt_opening (a ++ w ++ b) spanish_rule) prompt = true)
  /\ (forall t,
        get_opt "tone" input = VStr t ->
        t <> EmptyString ->
        includes_text "spanish" (toLowerCase t) = false ->
        startsWith (prompt_opening t english_rule) prompt = true).
Proof.
  intros H. apply buildPrompt_opening in H as (tone & Ht & H).
  unfold startsWith, js_or in *. split; [| split].
  - intros T. rewrite T in Ht. cbn in Ht. apply Ok_inj in Ht. subst tone.
    exact H.
  - intros a w b E Hw. rewrite E in Ht.
    pose proof (spanish_found a w b Hw) as F.
    assert (Hne : String.eqb (a ++ w ++ b) EmptyString = false).
    { destruct (String.eqb_spec (a ++ w ++ b) EmptyString) as [Z|];
        [| reflexivity].
      rewrite Z in F. discriminate F. }
    cbn [truthy] in Ht. rewrite Hne in Ht. cbn in Ht.
    apply Ok_inj in Ht. subst tone. now rewrite F in H.
  - intros t E Hne F. rewrite E in Ht. cbn [truthy] in Ht.
    apply String.eqb_neq in Hne. rewrite Hne in Ht. cbn in Ht.
    apply Ok_inj in Ht. subst tone. now rewrite F in H.
Qed.

(** ** The PDF routes and the browser *)

Lemma print_listing_file (chrome : puppeteer) (html : result string)
  (b : browsers) (bytes : list Byte.byte) :
  fst (print_listing chrome html b) = PdfFile bytes
  <-> exists document,
        html = Ok document
        /\ launch chrome = true
        /\ newPage chrome = true
        /\ setContent chrome document = true
        /\ pdf chrome document = Ok bytes.
Proof.
  unfold print_listing, pdf_failure. split.
  - destruct html as [document|]; [| discriminate].
    destruct (launch chrome); [| discriminate].
    destruct (newPage chrome); [| discriminate].
    destruct (setContent chrome document) eqn:S; [| discriminate].
    cbn [negb fst].
    destruct (pdf chrome document) as [out|] eqn:P; [| discriminate].
    intros H. exists document. repeat split; try assumption. congruence.
  - intros (document & -> & -> & -> & S & P). cbn [negb]. rewrite S, P.
    reflexivity.
Qed.

Lemma print_listing_browsers (chrome : puppeteer) (html : result string)
  (b : browsers) :
  snd (print_listing chrome html b)
  = match html with
    | Ok _ =>
        if launch chrome
        then mkBrowsers (S (launched b))
               (if close chrome then running b else S (running b))
        else b
    | Throw => b
    end.
Proof.
  unfold print_listing. destruct html; [| reflexivity].
  now destruct (launch chrome).
Qed.

Lemma print_listing_answers (chrome : puppeteer) (html : result string)
  (b : browsers) :
  (exists bytes, fst (print_listing chrome html b) = PdfFile bytes)
  \/ fst (print_listing chrome html b) = pdf_failure.
Proof.
  unfold print_listing. destruct html as [document|]; [| now right].
  destruct (launch chrome); [| now right]. cbn [negb fst].
  destruct (if negb (newPage chrome) then Throw
            else if negb (setContent chrome document) then Throw
                 else pdf chrome document) as [bytes|];
    [left; now exists bytes | now right].
Qed.

Section PdfFacts.

Variable dirname : string.
Variable path_join : string -> string -> string.
Variable path_extname : string -> string.
Variable disk : string -> entry.
Variable now : string.
Variable JSON_parse : string -> result value.
Variable JSON_stringify : value -> string.
Variable mkdir_ok : bool.
Variable write_ok : bool.
Variable chrome : puppeteer.

Local Abbreviation build := (buildPdfHtml dirname path_join path_extname disk now).
Local Abbreviation post :=
  (post_pdf dirname path_join path_extname disk now chrome).
Local Abbreviation get_file :=
  (get_pdf dirname path_join path_extname disk now JSON_parse JSON_stringify
     mkdir_ok write_ok chrome).
Local Abbreviation readListings' :=
  (readListings JSON_parse JSON_stringify mkdir_ok write_ok).

(** X16.  [POST /api/pdf] launches at most one browser and, whatever fails
    after the launch, calls [close] on it: when [close] resolves, as many
    browsers run after the request as before.  No browser is launched when
    the flyer cannot be built.  The route sends the file exactly when the
    flyer is built and every call to the browser succeeds, the file being
    what [page.pdf] gives for the flyer; every other request is answered
    500. *)
Theorem post_pdf_browser (body : value) (b : browsers) :
  let flyer := build (js_or body (VObj [])) in
  let served := post body b in
  (close chrome = true -> running (snd served) = running b)
  /\ launched (snd served) <= S (launched b)
  /\ (flyer = Throw -> snd served = b)
  /\ (forall bytes,
        fst served = PdfFile bytes
        <-> exists document,
              flyer = Ok document
              /\ launch chrome = true
              /\ newPage chrome = true
              /\ setContent chrome document = true
              /\ pdf chrome document = Ok bytes)
  /\ ((forall bytes, fst served <> PdfFile bytes) ->
      fst served = pdf_failure).
Proof.
  cbv zeta. unfold post_pdf.
  set (flyer := build (js_or body (VObj []))).
  rewrite print_listing_browsers.
  split; [| split; [| split; [| split]]].
  - intros C. destruct flyer; [| reflexivity].
    destruct (launch chrome); [| reflexivity]. cbn. now rewrite C.
  - destruct flyer; [| lia]. destruct (launch chrome); cbn; lia.
  - now intros ->.
  - intros bytes. apply print_listing_file.
  - intros N.
    destruct (print_listing_answers chrome flyer b) as [(bytes & F) | F];
      [now destruct (N bytes) | exact F].
Qed.

(** X17.  [GET /pdf/:id] on a store whose records are not [null]: an [id]
    that no record carries is answered 404 without a browser being
    launched; otherwise the route answers, and does to the browsers, what
    [POST /api/pdf] does for the first record that carries the [id].  The
    backing file is left as the read routes leave it. *)
Theorem get_pdf_first_match (id : string) (b : browsers) (st : store)
  (xs : list value) :
  fst (readListings' st) = Ok xs ->
  Forall not_null xs ->
  (Forall (fun x => has_id id x = false) xs ->
   fst (get_file id b st) = (PdfText 404 (Some "Listing not found."), b))
  /\ (forall pre x rest,
        xs = (pre ++ x :: rest)%list ->
        Forall (fun y => has_id id y = false) pre ->
        has_id id x = true ->
        fst (get_file id b st) = post x b)
  /\ listings_file (snd (get_file id b st))
     = match listings_file st with
       | Missing => written JSON_stringify []
       | f => f
       end.
Proof.
  intros Hxs Hnn. unfold get_pdf.
  pose proof (readListings_ensures _ _ _ _ _ _ Hxs) as E.
  apply readListings_value in Hxs.
  rewrite readListings_run, E, <- Hxs.
  split; [| split].
  - intros Hall. now rewrite (find_by_id_none id xs Hnn Hall).
  - intros pre x rest -> Hpre Hx.
    apply Forall_app in Hnn as [Hnn _].
    rewrite (find_by_id_first id pre rest x Hnn Hpre Hx).
    pose proof (has_id_truthy id x Hx) as T. rewrite T. cbn [negb fst].
    unfold post_pdf, js_or. now rewrite T.
  - destruct (find_by_id id xs) as [listing|]; [| reflexivity].
    now destruct (negb (truthy listing)).
Qed.

End PdfFacts.

(** ** The [id] on the share page *)

Lemma json_plain_kept (a : ascii) :
  json_plain a = true -> MiniJson.escape_char a = String a EmptyString.
Proof. each_ascii a; cbn; intros H; try reflexivity; discriminate H. Qed.

Lemma json_escape_backslash (a : ascii) :
  json_plain a = false ->
  exists rest, MiniJson.escape_char a = String "092"%char rest.
Proof.
  each_ascii a; cbn; intros H; try discriminate H; eexists; reflexivity.
Qed.

Lemma json_plain_differs (x a : ascii) :
  json_plain x = true -> json_plain a = false -> x <> a.
Proof. intros Hx Ha ->. congruence. Qed.

(** A pattern of characters JSON leaves alone stands at the head of the
    escaped text exactly when it stands at the head of the text. *)
Lemma prefix_escape_chars (p t : string) :
  all_chars json_plain p = true ->
  String.prefix p (MiniJson.escape_chars t) = String.prefix p t.
Proof.
  revert p. induction t as [|a t IH]; intros p Hp; [reflexivity |].
  destruct p as [|x p]; [now rewrite !prefix_nil |].
  cbn [all_chars] in Hp. apply andb_true_iff in Hp as [Hx Hp].
  cbn [MiniJson.escape_chars].
  destruct (json_plain a) eqn:Ha.
  - rewrite (json_plain_kept a Ha). cbn [append String.prefix].
    destruct (ascii_dec x a); [now apply IH | reflexivity].
  - destruct (json_escape_backslash a Ha) as (rest & ->).
    cbn [append String.prefix].
    destruct (ascii_dec x "092"%char) as [->|_]; [discriminate Hx |].
    destruct (ascii_dec x a) as [->|_]; [congruence | reflexivity].
Qed.

Lemma count_sub_json_escape (q : string) (a : ascii) (r : string) :
  json_plain a = false ->
  count_sub (String "<"%char q) (MiniJson.escape_char a ++ r)
  = count_sub (String "<"%char q) r.
Proof.
  each_ascii a; cbn; intros H; try discriminate H; reflexivity.
Qed.

(** JSON escaping neither adds nor removes an occurrence of a pattern that
    opens with [<] and is made of characters JSON leaves alone. *)
Lemma count_sub_escape_chars (q t : string) :
  all_chars json_plain q = true ->
  count_sub (String "<"%char q) (MiniJson.escape_chars t)
  = count_sub (String "<"%char q) t.
Proof.
  intros Hq.
  assert (Hp : all_chars json_plain (String "<"%char q) = true)
    by (cbn [all_chars]; now rewrite Hq).
  induction t as [|a t IH]; [reflexivity |].
  destruct (json_plain a) eqn:Ha.
  - cbn [count_sub]. rewrite <- IH.
    rewrite <- (prefix_escape_chars _ (String a t) Hp).
    cbn [MiniJson.escape_chars]. rewrite (json_plain_kept a Ha).
    cbn [append count_sub]. reflexivity.
  - cbn [MiniJson.escape_chars]. rewrite (count_sub_json_escape q a _ Ha), IH.
    cbn [count_sub String.prefix].
    destruct (ascii_dec "<"%char a) as [<-|_]; [discriminate Ha | reflexivity].
Qed.

(** A character the pattern does not hold separates what stands before it
    from what stands after it. *)
Lemma prefix_barrier (c : ascii) (p a b : string) :
  includes c p = false ->
  String.prefix p (a ++ String c b) = String.prefix p a.
Proof.
  revert a. induction p as [|x p IH]; intros a H;
    [now rewrite !prefix_nil |].
  cbn [includes] in H. apply orb_false_iff in H as [Hx Hp].
  destruct a as [|y a]; cbn [append String.prefix].
  - destruct (ascii_dec x c) as [->|_]; [| reflexivity].
    now rewrite Ascii.eqb_refl in Hx.
  - destruct (ascii_dec x y); [now apply IH | reflexivity].
Qed.

Lemma count_sub_barrier (c : ascii) (p a b : string) :
  includes c p = false ->
  count_sub p (a ++ String c b) = count_sub p a + count_sub p (String c b).
Proof.
  intros H. induction a as [|y a IH]; [reflexivity |].
  pose proof (prefix_barrier c p (String y a) b H) as B.
  remember (count_sub p (String c b)) as tail eqn:Et.
  change (String y a ++ String c b) with (String y (a ++ String c b)) in *.
  cbn [count_sub]. rewrite IH, B. lia.
Qed.

Lemma share_page_count (q id : string) :
  all_chars json_plain q = true ->
  includes "034"%char (String "<"%char q) = false ->
  no_partial (String "<"%char q) share_head = true ->
  no_partial (String "<"%char q) share_mid = true ->
  count_sub (String "<"%char q) (share_page id)
  = count_sub (String "<"%char q) share_head
    + count_sub (String "<"%char q) share_mid
    + count_sub (String "<"%char q) id
    + count_sub (String "<"%char q) share_tail.
Proof.
  intros Hq Hd Hh Hm. unfold share_page, MiniJson.quote, quoted, dq.
  set (p := String "<"%char q) in *.
  rewrite (count_sub_app p share_head _ Hh).
  rewrite (count_sub_app p (escape_string id));
    [| apply no_partial_lt_free, lt_free_escape_string].
  unfold p at 2.
  rewrite (count_sub_lt_free q _ (lt_free_escape_string id)). fold p.
  rewrite (count_sub_app p share_mid _ Hm).
  rewrite !append_assoc.
  change (String "034"%char EmptyString
          ++ MiniJson.escape_chars id ++ String "034"%char EmptyString
          ++ share_tail)
    with (String "034"%char
            (MiniJson.escape_chars id ++ String "034"%char share_tail)).
  assert (D : forall s, count_sub p (String "034"%char s) = count_sub p s).
  { intros s. unfold p. cbn [count_sub String.prefix].
    destruct (ascii_dec "<"%char "034"%char); [discriminate | reflexivity]. }
  rewrite D, (count_sub_barrier _ p _ _ Hd), D.
  unfold p at 3. rewrite (count_sub_escape_chars q id Hq). fold p. lia.
Qed.

(** X18.  The share page carries the [id] twice: escaped in its title, and
    as a JSON text in its script, where [<] and [/] stay as they are.  The
    page therefore has one [<script] and one [</script] of its own, and as
    many more as the [id] holds. *)
Theorem share_page_script (id : string) :
  count_sub "<script" (share_page id) = 1 + count_sub "<script" id
  /\ count_sub "</script" (share_page id) = 1 + count_sub "</script" id.
Proof.
  split.
  - rewrite (share_page_count "script" id) by (vm_compute; reflexivity).
    replace (count_sub "<script" share_head) with 0
      by (vm_compute; reflexivity).
    replace (count_sub "<script" share_mid) with 1
      by (vm_compute; reflexivity).
    replace (count_sub "<script" share_tail) with 0
      by (vm_compute; reflexivity).
    lia.
  - rewrite (share_page_count "/script" id) by (vm_compute; reflexivity).
    replace (count_sub "</script" share_head) with 0
      by (vm_compute; reflexivity).
    replace (count_sub "</script" share_mid) with 0
      by (vm_compute; reflexivity).
    replace (count_sub "</script" share_tail) with 1
      by (vm_compute; reflexivity).
    lia.
Qed.

(** ** Listings for which a flyer is built *)

Lemma bind_total {A B : Type} (m : result A) (k : A -> result B) (a : A) :
  m = Ok a -> (exists b, k a = Ok b) -> exists b, bind m k = Ok b.
Proof. now intros ->. Qed.

Lemma get_total (k : string) (o : value) :
  nullish o = false -> get k o = Ok (get_opt k o).
Proof.
  intros H. unfold get_opt.
  destruct o as [| | | | | |fields]; try discriminate H; try reflexivity.
  cbn [get]. now destruct (lookup k fields).
Qed.

Lemma ToString_scalar (v : value) :
  scalar v = true -> ToString v = Ok (str (ToString v)).
Proof. now destruct v as [| |[]| | | |]. Qed.

Lemma scalar_js_or (a b : value) :
  scalar a = true -> scalar b = true -> scalar (js_or a b) = true.
Proof. unfold js_or. now destruct (truthy a). Qed.

Lemma scalar_coalesce (a : value) :
  scalar a = true -> scalar (js_coalesce a (VStr EmptyString)) = true.
Proof. unfold js_coalesce. now destruct (nullish a). Qed.

Lemma escapeHtml_scalar (v : value) :
  scalar v = true -> escapeHtml v = Ok (escape_string (text v)).
Proof.
  intros H. unfold escapeHtml, text.
  now rewrite (ToString_scalar _ (scalar_coalesce v H)).
Qed.

Lemma fmtCurrency_scalar (v : value) :
  scalar v = true -> fmtCurrency v = Ok (str (fmtCurrency v)).
Proof.
  intros H. unfold fmtCurrency.
  rewrite (ToString_scalar _ (scalar_coalesce v H)). cbn [bind]. cbv zeta.
  repeat match goal with
         | |- context [if ?c then _ else _] => destruct c
         end; reflexivity.
Qed.

Lemma fmtNumber_scalar (v : value) :
  scalar v = true -> fmtNumber v = Ok (str (fmtNumber v)).
Proof.
  intros H. unfold fmtNumber.
  rewrite (ToString_scalar _ (scalar_coalesce v H)). cbn [bind]. cbv zeta.
  repeat match goal with
         | |- context [if ?c then _ else _] => destruct c
         end; reflexivity.
Qed.

Lemma join_scalar (sep : string) (l : list value) :
  forallb scalar l = true -> join sep l = Ok (str (join sep l)).
Proof.
  induction l as [|x l IH]; [reflexivity |].
  cbn [forallb]. intros H. apply andb_true_iff in H as [Hx Hl].
  cbn [join].
  assert (E : (if nullish x then Ok EmptyString else ToString x)
              = Ok (str (if nullish x then Ok EmptyString else ToString x))).
  { destruct (nullish x); [reflexivity | now apply ToString_scalar]. }
  rewrite E. cbn [bind]. destruct l as [|y l]; [reflexivity |].
  rewrite (IH Hl). reflexivity.
Qed.

Lemma forallb_filter {A : Type} (f g : A -> bool) (l : list A) :
  forallb f l = true -> forallb f (filter g l) = true.
Proof.
  induction l as [|x l IH]; [reflexivity |].
  cbn [forallb filter]. intros H. apply andb_true_iff in H as [Hx Hl].
  destruct (g x); [cbn [forallb]; now rewrite Hx, IH | now apply IH].
Qed.

Lemma when_escape_total (part : string -> string) (c : value) :
  scalar c = true ->
  when c (let* e := escapeHtml c in Ok (part e))
  = Ok (if truthy c then part (escape_string (text c)) else EmptyString).
Proof.
  intros H. unfold when. rewrite (escapeHtml_scalar c H).
  now destruct (truthy c).
Qed.

Lemma when_uri_total (part : string -> string) (c : value) :
  scalar c = true ->
  when c (let* u := ToString c in Ok (part u))
  = Ok (if truthy c then part (str (ToString c)) else EmptyString).
Proof.
  intros H. unfold when. rewrite (ToString_scalar c H).
  now destruct (truthy c).
Qed.

Lemma lookup_forallb (P : string * value -> bool) (k : string)
  (fields : list (string * value)) (v : value) :
  forallb P fields = true -> lookup k fields = Some v -> P (k, v) = true.
Proof.
  induction fields as [|[k' v'] fields IH]; [discriminate |].
  cbn [forallb lookup]. intros H L. apply andb_true_iff in H as [H1 H2].
  destruct (String.eqb_spec k k') as [->|_]; [| now apply IH].
  now injection L as <-.
Qed.

Lemma plain_listing_field (listing : value) (k : string) :
  plain_listing listing = true -> k <> "agent" ->
  scalar (get_opt k listing) = true.
Proof.
  destruct listing as [| | | | | |fields]; try discriminate.
  cbn [plain_listing]. intros H Hk. unfold get_opt, get.
  destruct (lookup k fields) as [v|] eqn:L; [| reflexivity].
  pose proof (lookup_forallb _ k fields v H L) as P. cbn [fst snd] in P.
  apply String.eqb_neq in Hk. now rewrite Hk in P.
Qed.

Lemma plain_listing_agent (listing : value) (k : string) :
  plain_listing listing = true ->
  let agent := js_or (get_opt "agent" listing) (VObj []) in
  nullish agent = false /\ scalar (get_opt k agent) = true.
Proof.
  destruct listing as [| | | | | |fields]; try discriminate.
  cbn [plain_listing]. intros H. cbv zeta.
  assert (E : get_opt "agent" (VObj fields)
              = match lookup "agent" fields with
                | Some a => a
                | None => VUndef
                end).
  { unfold get_opt, get. now destruct (lookup "agent" fields). }
  rewrite E. clear E.
  destruct (lookup "agent" fields) as [a|] eqn:L; [| now split].
  pose proof (lookup_forallb _ "agent" fields a H L) as P.
  cbn [fst snd] in P. rewrite String.eqb_refl in P.
  unfold js_or. destruct a as [| |[]|n|s|xs|agent]; try discriminate P;
    cbn [truthy]; try (now split).
  - destruct (negb (n =? 0)%Z); now split.
  - destruct (negb (String.eqb s EmptyString)); now split.
  - split; [reflexivity |]. unfold get_opt, get.
    destruct (lookup k agent) as [v|] eqn:La; [| reflexivity].
    exact (lookup_forallb _ k agent v P La).
Qed.

Section Printable.

Variable dirname : string.
Variable path_join : string -> string -> string.
Variable path_extname : string -> string.
Variable disk : string -> entry.
Variable now : string.

Local Abbreviation image := (imageUrlToDataUri dirname path_join path_extname disk).
Local Abbreviation build := (buildPdfHtml dirname path_join path_extname disk now).

Lemma scalar_image (ref : value) : scalar (image ref) = true.
Proof.
  destruct (image_cases dirname path_join path_extname disk ref)
    as [-> | (ext & bytes & ->)]; reflexivity.
Qed.

Lemma buildPdfHtml_total (listing : value) :
  plain_listing listing = true -> exists doc, build listing = Ok doc.
Proof.
  intros P.
  assert (N : nullish listing = false) by (now destruct listing).
  pose proof (fun k => plain_listing_field listing k P) as F.
  pose proof (fun k => proj1 (plain_listing_agent listing k P)) as NA.
  pose proof (fun k => proj2 (plain_listing_agent listing k P)) as A.
  cbv zeta in NA, A. specialize (NA EmptyString).
  unfold buildPdfHtml.
  assert (Sc : forall k, k <> "agent" -> scalar (get_opt k listing) = true)
    by exact F.
  repeat
    (eapply bind_total;
     [ first
         [ apply (get_total _ _ N)
         | apply (get_total _ _ NA)
         | apply fmtCurrency_scalar; apply F; discriminate
         | apply fmtNumber_scalar; apply F; discriminate
         | apply when_uri_total; apply scalar_image
         | apply when_escape_total; first [apply A | apply F; discriminate]
         | apply join_scalar; apply forallb_filter; cbn [forallb];
           rewrite ?andb_true_iff;
           repeat split;
           first [ apply F; discriminate
                 | apply scalar_js_or; [reflexivity | apply F; discriminate]
                 | reflexivity ]
         | apply escapeHtml_scalar;
           repeat first
             [ apply A
             | apply F; discriminate
             | reflexivity
             | apply scalar_js_or ]
         | match goal with
           | |- (if truthy ?c then _ else _) = Ok _ =>
               instantiate (1 := str (if truthy c then escapeHtml c
                                      else Ok "—"));
               destruct (truthy c);
               [rewrite (escapeHtml_scalar c (A _)); reflexivity
               | reflexivity]
           end ]
     | cbv beta ]).
  all: try (eexists; reflexivity).
Qed.

(** X19.  A flyer is built for every listing whose fields are texts,
    numbers, booleans or [null], its agent being such an object or
    missing: [buildPdfHtml] does not throw on it, and the document is the
    template filled with the escaped texts.  The empty listing that
    [POST /api/pdf] takes for a missing body is one of them. *)
Theorem buildPdfHtml_plain_listing (listing : value) :
  plain_listing listing = true ->
  build listing
  = Ok (fill (slots_of dirname path_join path_extname disk now listing))
  /\ build (js_or VUndef (VObj []))
     = Ok (fill
             (slots_of dirname path_join path_extname disk now (VObj []))).
Proof.
  intros P. split.
  - destruct (buildPdfHtml_total listing P) as (doc & H).
    rewrite H. f_equal.
    exact (buildPdfHtml_fill dirname path_join path_extname disk now
             listing doc H).
  - destruct (buildPdfHtml_total (VObj []) eq_refl) as (doc & H).
    change (js_or VUndef (VObj [])) with (VObj []).
    rewrite H. f_equal.
    exact (buildPdfHtml_fill dirname path_join path_extname disk now
             (VObj []) doc H).
Qed.

End Printable.

(** ** From a generated listing to its share link *)

Section Workflow.

Variable dirname : string.
Variable path_join : string -> string -> string.
Variable path_extname : string -> string.
Variable disk : string -> entry.
Variable now : string.
Variable JSON_parse : string -> result value.
Variable JSON_stringify : value -> string.
Variable mkdir_ok : bool.
Variable write_ok : bool.
Variable chrome : puppeteer.
Variable has_key : bool.
Variable completion : string -> result (string * string).
Variable fresh_id : string.
Variable created_at : string.

Local Abbreviation generate :=
  (generate_listing has_key completion fresh_id created_at).
Local Abbreviation readListings' :=
  (readListings JSON_parse JSON_stringify mkdir_ok write_ok).
Local Abbreviation save :=
  (save_listing JSON_parse JSON_stringify mkdir_ok write_ok).
Local Abbreviation get_one :=
  (get_listing JSON_parse JSON_stringify mkdir_ok write_ok).
Local Abbreviation get_file :=
  (get_pdf dirname path_join path_extname disk now JSON_parse JSON_stringify
     mkdir_ok write_ok chrome).
Local Abbreviation serviceable' := (serviceable mkdir_ok write_ok).
Local Abbreviation post :=
  (post_pdf dirname path_join path_extname disk now chrome).

(** X21.  The three steps of the application fit together on a store that
    the file system serves: a listing that [POST /api/listings/generate]
    returns is accepted by [POST /api/listings/save] as it is; after the
    save, [GET /api/listings/:id] with the identifier drawn for the listing
    answers that listing, and [GET /pdf/:id] prints the flyer that
    [POST /api/pdf] prints for it. *)
Theorem generated_listing_shared (body listing : value) (st : store)
  (xs : list value) (b : browsers) :
  generate body = Json 200 (VObj [("ok", VBool true); ("listing", listing)]) ->
  fresh_id <> EmptyString ->
  serviceable' st = true ->
  fst (readListings' st) = Ok xs ->
  reads_back JSON_parse JSON_stringify (listing :: xs) ->
  let st' := snd (save listing st) in
  fst (save listing st) = Ok (Json 200 ok_true)
  /\ fst (get_one fresh_id st')
     = Ok (Json 200 (VObj [("ok", VBool true); ("listing", listing)]))
  /\ fst (get_file fresh_id b st') = post listing b.
Proof.
  intros G Hne Hs Hxs Hrb. cbv zeta.
  apply (generate_listing_steps fresh_id created_at) in G
    as (prompt & generated & _ & _ & _ & G).
  apply new_listing_complete in G as (_ & _ & _ & _ & _ & Hid & _).
  assert (F : ~ falsy (get_opt "id" listing)).
  { rewrite Hid. intros F. inversion F. congruence. }
  assert (T : truthy listing = true)
    by (destruct listing; try discriminate Hid; reflexivity).
  rewrite (save_file _ _ _ _ listing st xs Hs Hxs F). cbn [fst snd].
  split; [reflexivity |]. split.
  - rewrite (get_one_written _ _ _ _ fresh_id _ _ Hrb).
    rewrite (find_by_id_head fresh_id listing xs Hid).
    now rewrite T.
  - unfold get_pdf. rewrite (read_written _ _ _ _ true _ Hrb).
    rewrite (find_by_id_head fresh_id listing xs Hid), T. cbn [negb fst].
    unfold post_pdf, js_or. now rewrite T.
Qed.

End Workflow.

(** ** The store routes at work *)

Lemma string_id_not_falsy (s : string) (a : ascii) (rest : string) :
  s = String a rest -> ~ falsy (VStr s).
Proof. intros -> F. inversion F. Defined.

(** A fourth record saved on the store of three is listed in front. *)
Lemma save_then_list_witness :
  fst (get_listings MiniJson.parse MiniJson.stringify true true
         (snd (save_listing MiniJson.parse MiniJson.stringify true true cottage
                 three_store)))
  = Ok (Json 200
          (VObj [("ok", VBool true);
                 ("listings",
                  VArr [cottage; bungalow_again; cottage; bungalow])])).
Proof.
  refine (save_then_list MiniJson.parse MiniJson.stringify true true cottage
            three_store [bungalow_again; cottage; bungalow] _ _ _ _).
  - reflexivity.
  - vm_compute. reflexivity.
  - exact (string_id_not_falsy _ _ _ eq_refl).
  - vm_compute. reflexivity.
Defined.

(** The bungalow saved twice on the empty store is held twice. *)
Lemma save_twice_keeps_both_witness :
  fst (readListings MiniJson.parse MiniJson.stringify true true
         (snd (save_listing MiniJson.parse MiniJson.stringify true true bungalow_again
                 (snd (save_listing MiniJson.parse MiniJson.stringify true true
                         bungalow empty_store)))))
  = Ok [bungalow_again; bungalow]
  /\ fst (get_listing MiniJson.parse MiniJson.stringify true true "abc123"
            (snd (save_listing MiniJson.parse MiniJson.stringify true true
                    bungalow_again
                    (snd (save_listing MiniJson.parse MiniJson.stringify true true
                            bungalow empty_store)))))
     = Ok (Json 200 (VObj [("ok", VBool true); ("listing", bungalow_again)])).
Proof.
  refine (save_twice_keeps_both MiniJson.parse MiniJson.stringify true true bungalow
            bungalow_again "abc123" empty_store [] _ _ _ _ _ _ _);
    try (vm_compute; reflexivity).
  discriminate.
Defined.

(** On the store of three, an unknown [id] is answered 404 and the cottage
    is found behind a record with another [id]. *)
Lemma get_listing_first_match_witness :
  fst (get_listing MiniJson.parse MiniJson.stringify true true "nobody" three_store)
  = Ok (Json 404 (failure "Listing not found."))
  /\ fst (get_listing MiniJson.parse MiniJson.stringify true true "xyz789" three_store)
     = Ok (Json 200 (VObj [("ok", VBool true); ("listing", cottage)])).
Proof.
  assert (R : fst (readListings MiniJson.parse MiniJson.stringify true true three_store)
              = Ok [bungalow_again; cottage; bungalow])
    by (vm_compute; reflexivity).
  assert (N : Forall not_null [bungalow_again; cottage; bungalow])
    by (repeat constructor).
  split.
  - apply (proj1 (get_listing_first_match MiniJson.parse MiniJson.stringify true true
                    "nobody" three_store _ R N)).
    repeat constructor.
  - apply (proj2 (get_listing_first_match MiniJson.parse MiniJson.stringify true true
                    "xyz789" three_store _ R N)
             [bungalow_again] cottage [bungalow]).
    + reflexivity.
    + repeat constructor.
    + reflexivity.
Defined.

(** Both bungalows are gone after the delete. *)
Lemma delete_then_get_witness :
  fst (get_listing MiniJson.parse MiniJson.stringify true true "abc123"
         (snd (delete_listing MiniJson.parse MiniJson.stringify true true "abc123"
                 three_store)))
  = Ok (Json 404 (failure "Listing not found.")).
Proof.
  refine (delete_then_get MiniJson.parse MiniJson.stringify true true "abc123"
            three_store [bungalow_again; cottage; bungalow] _ _ _ _).
  - reflexivity.
  - vm_compute. reflexivity.
  - repeat constructor.
  - vm_compute. reflexivity.
Defined.

(** A second delete on the store of three changes nothing more. *)
Lemma delete_twice_witness :
  delete_listing MiniJson.parse MiniJson.stringify true true "abc123"
    (snd (delete_listing MiniJson.parse MiniJson.stringify true true "abc123"
            three_store))
  = (Ok (Json 200 ok_true),
     snd (delete_listing MiniJson.parse MiniJson.stringify true true "abc123"
            three_store)).
Proof.
  refine (delete_twice MiniJson.parse MiniJson.stringify true true "abc123"
            three_store [bungalow_again; cottage; bungalow] _ _ _ _).
  - reflexivity.
  - vm_compute. reflexivity.
  - repeat constructor.
  - vm_compute. reflexivity.
Defined.

(** Saving the cottage on the store of three and deleting its [id] removes
    the cottage held before as well. *)
Lemma save_then_delete_witness :
  listings_file
    (snd (delete_listing MiniJson.parse MiniJson.stringify true true "xyz789"
            (snd (save_listing MiniJson.parse MiniJson.stringify true true cottage
                    three_store))))
  = written MiniJson.stringify [bungalow_again; bungalow].
Proof.
  refine (proj1 (save_then_delete MiniJson.parse MiniJson.stringify true true cottage
                   "xyz789" three_store [bungalow_again; cottage; bungalow]
                   _ _ _ _ _ _));
    try (vm_compute; reflexivity).
  - repeat constructor.
  - discriminate.
Defined.

(** A save on the file that does not hold JSON leaves the one record. *)
Lemma save_overwrites_unreadable_witness :
  save_listing MiniJson.parse MiniJson.stringify true true bungalow corrupt_store
  = (Ok (Json 200 ok_true),
     mkStore true (written MiniJson.stringify [bungalow])).
Proof.
  refine (save_overwrites_unreadable MiniJson.parse MiniJson.stringify true true
            bungalow true "[{oops" _ _).
  - exact (string_id_not_falsy _ _ _ eq_refl).
  - left. vm_compute. reflexivity.
Defined.

(** With a [null] in the array, not even the cottage can be deleted. *)
Lemma delete_null_element_witness :
  fst (delete_listing MiniJson.parse MiniJson.stringify true true "xyz789" null_store)
  = Ok (Json 500 (failure "Failed to delete listing."))
  /\ listings_file
       (snd (delete_listing MiniJson.parse MiniJson.stringify true true "xyz789"
               null_store))
     = listings_file null_store.
Proof.
  refine (delete_null_element MiniJson.parse MiniJson.stringify true true "xyz789"
            null_store [cottage; VNull] _ _).
  - vm_compute. reflexivity.
  - right. left. reflexivity.
Defined.

(** ** The further theorems at work *)

(** The listing generated from the completion in quotes: its title is the
    first line without the quotes. *)
Lemma generate_route_title_witness :
  exists prompt data,
    buildPrompt (js_or (VObj []) (VObj [])) = Ok prompt
    /\ Answered (Ok quoted_completion) = Answered (Ok data)
    /\ get_opt "title" (listing_of (example_route (VObj [])))
       = VStr (title_rule (completion_text data))
    /\ get_opt "description" (listing_of (example_route (VObj [])))
       = VStr (completion_text data)
    /\ title_rule (completion_text data) <> EmptyString
    /\ js_length (title_rule (completion_text data)) <= 90
    /\ includes "010"%char (title_rule (completion_text data)) = false
    /\ trim (completion_text data) = completion_text data.
Proof.
  refine (generate_route_title (Some "sk-test") None
            (fun _ _ _ => Answered (Ok quoted_completion))
            "0123456789abcdef01234567" "2026-11-02T19:00:00.000Z"
            (VObj []) (listing_of (example_route (VObj []))) _).
  vm_compute. reflexivity.
Defined.

Example title_rule_unquotes :
  title_rule (completion_text quoted_completion) = "Sunny Home"
  /\ title_rule EmptyString = "Property Listing"
  /\ title_rule "''" = "Property Listing"
  /\ title_rule "'Sunny' Home
A bright place." = "Sunny' Home".
Proof. repeat split; vm_compute; reflexivity. Qed.

Example generated_title_unquoted :
  get_opt "title" (listing_of (example_route (VObj []))) = VStr "Sunny Home".
Proof. vm_compute. reflexivity. Qed.

(** A tone that names the language in capitals. *)
Lemma buildPrompt_language_witness :
  startsWith (prompt_opening "Luxury (SPANISH)" spanish_rule)
    (str (buildPrompt spanish_input)) = true.
Proof.
  refine (proj1 (proj2 (buildPrompt_language spanish_input
                          (str (buildPrompt spanish_input)) _))
            "Luxury (" "SPANISH" ")" _ _);
    vm_compute; reflexivity.
Defined.

(** The flyer of the cottage, asked for by its [id], is the one the POST
    route prints for it; an unknown [id] launches no browser. *)
Lemma get_pdf_first_match_witness :
  fst (example_get_pdf "nobody" (mkBrowsers 0 0) three_store)
  = (PdfText 404 (Some "Listing not found."), mkBrowsers 0 0)
  /\ fst (example_get_pdf "xyz789" (mkBrowsers 0 0) three_store)
     = example_post_pdf cottage (mkBrowsers 0 0).
Proof.
  assert (R : fst (readListings MiniJson.parse MiniJson.stringify true true three_store)
              = Ok [bungalow_again; cottage; bungalow])
    by (vm_compute; reflexivity).
  assert (N : Forall not_null [bungalow_again; cottage; bungalow])
    by (repeat constructor).
  destruct (get_pdf_first_match "/app" example_join example_extname
              example_disk "11/2/2026, 7:00:00 PM" MiniJson.parse
              MiniJson.stringify true true example_chrome "nobody" (mkBrowsers 0 0)
              three_store _ R N) as (H404 & _ & _).
  destruct (get_pdf_first_match "/app" example_join example_extname
              example_disk "11/2/2026, 7:00:00 PM" MiniJson.parse
              MiniJson.stringify true true example_chrome "xyz789" (mkBrowsers 0 0)
              three_store _ R N) as (_ & Hfound & _).
  split.
  - apply H404. repeat constructor.
  - apply (Hfound [bungalow_again] cottage [bungalow]).
    + reflexivity.
    + repeat constructor.
    + reflexivity.
Defined.

Example post_pdf_prints :
  example_post_pdf cottage (mkBrowsers 0 0)
  = (PdfFile [Byte.x25; Byte.x50; Byte.x44; Byte.x46], mkBrowsers 1 0).
Proof. vm_compute. reflexivity. Qed.

(** The flyer of the listing with the script in its title. *)
Lemma buildPdfHtml_plain_listing_witness :
  example_build script_listing
  = Ok (fill
          (slots_of "/app" example_join example_extname example_disk
             "11/2/2026, 7:00:00 PM" script_listing)).
Proof.
  refine (proj1 (buildPdfHtml_plain_listing "/app" example_join
                   example_extname example_disk "11/2/2026, 7:00:00 PM"
                   script_listing _)).
  vm_compute. reflexivity.
Defined.

(** Two listings without optional parts, one of them with markup in its
    texts, give the same markup. *)
Lemma buildPdfHtml_markup_independent_witness :
  markup (str (example_build unpriced_listing))
  = markup (str (example_build tagged_listing)).
Proof.
  refine (buildPdfHtml_markup_independent "/app" example_join
            example_extname example_disk "11/2/2026, 7:00:00 PM"
            unpriced_listing tagged_listing _ _ _ _ _);
    vm_compute; reflexivity.
Defined.

(** Texts the two formatters return are fixed under them. *)
Example formatted_twice :
  fmtCurrency (VStr "1234.5") = Ok "$1,235"
  /\ fmtCurrency (VStr "$1,235") = Ok "$1,235"
  /\ fmtNumber (VStr "950 sq ft") = Ok "950"
  /\ fmtNumber (VStr "950") = Ok "950".
Proof. repeat split; vm_compute; reflexivity. Qed.

(** An [id] that closes the script element reaches the script as it is;
    in the title it is escaped. *)
Example share_page_injection :
  count_sub "</script" (share_page "</script><script>alert(1)</script>") = 3
  /\ count_sub "<title>Listing &lt;/script&gt;"
       (share_page "</script><script>alert(1)</script>") = 1.
Proof. split; vm_compute; reflexivity. Qed.

(** Escaped texts read back. *)
Example escape_round_trip :
  escapeHtml (VStr "Tom & <Jerry>") = Ok "Tom &amp; &lt;Jerry&gt;"
  /\ decode_entities 0 "Tom &amp; &lt;Jerry&gt;" = "Tom & <Jerry>"
  /\ escapeHtml (VStr "1 Main St") = Ok "1 Main St".
Proof. repeat split. Qed.

(** A generated listing, saved on the empty store, is found and printed
    under its identifier. *)
Lemma generated_listing_shared_witness :
  fst (save_listing MiniJson.parse MiniJson.stringify true true
         (listing_of (example_generate (VObj [("address", VStr "1 Main St")])))
         empty_store)
  = Ok (Json 200 ok_true)
  /\ fst (get_listing MiniJson.parse MiniJson.stringify true true
            "0123456789abcdef01234567"
            (snd (save_listing MiniJson.parse MiniJson.stringify true true
                    (listing_of
                       (example_generate
                          (VObj [("address", VStr "1 Main St")])))
                    empty_store)))
     = Ok (Json 200
             (VObj [("ok", VBool true);
                    ("listing",
                     listing_of
                       (example_generate
                          (VObj [("address", VStr "1 Main St")])))]))
  /\ fst (example_get_pdf "0123456789abcdef01234567" (mkBrowsers 0 0)
            (snd (save_listing MiniJson.parse MiniJson.stringify true true
                    (listing_of
                       (example_generate
                          (VObj [("address", VStr "1 Main St")])))
                    empty_store)))
     = example_post_pdf
         (listing_of (example_generate (VObj [("address", VStr "1 Main St")])))
         (mkBrowsers 0 0).
Proof.
  refine (generated_listing_shared "/app" example_join example_extname
            example_disk "11/2/2026, 7:00:00 PM" MiniJson.parse
            MiniJson.stringify true true example_chrome true
            (fun _ => Ok ("Sunny Home", "Sunny Home
A bright place."))
            "0123456789abcdef01234567" "2026-11-02T19:00:00.000Z"
            (VObj [("address", VStr "1 Main St")])
            (listing_of (example_generate (VObj [("address", VStr "1 Main St")])))
            empty_store [] (mkBrowsers 0 0) _ _ _ _ _);
    try (vm_compute; reflexivity).
  discriminate.
Defined.

(** A price that is a phrase. *)
Lemma formats_zero_without_digit_witness :
  fmtCurrency (VStr " Call for price ") = Ok "$0"
  /\ fmtNumber (VStr " Call for price ") = Ok "0".
Proof.
  refine (formats_zero_without_digit " Call for price " _ _ _ _ _);
    vm_compute; reflexivity.
Defined.
